(** * omen-rgb: the colour engine of the HP OMEN keyboard controller

    A shallow embedding of [omen-rgb.py]: the hex/RGB conversions, the
    sysfs writer [write_color] with its process-wide last colour, the
    interpolating [set_color], the animation threads ([RainbowThread],
    [NewYearsThread], [PoliceThread]) and the part of [RGBController]
    that owns the single animation slot.

    Conventions.
    - Python [str] values are [string]s of ASCII characters.
    - Python [int] is [Z]; Python [float] is the kernel's binary64
      ([PrimFloat]), which is the IEEE-754 double CPython uses.
    - The process state that the functions read and write is threaded
      explicitly ([world]); a Python exception is the [Raise] outcome of
      a computation in the monad [M]. *)

From Stdlib Require Import ZArith List String Ascii Bool Lia.
From Stdlib Require Import HexString Floats Uint63.
From stdpp Require Import base option gmap strings.
Import ListNotations.

Local Open Scope Z_scope.
Local Open Scope string_scope.
Local Open Scope list_scope.

(** Decimal float literals stand for the nearest binary64 value, as in
    Python. *)
Set Warnings "-inexact-float".

(** ** Strings: [str.lower], [int(s, 16)] and the [02x] format *)

Definition lower_char (c : ascii) : ascii :=
  let n := nat_of_ascii c in
  if ((65 <=? n) && (n <=? 90))%nat then ascii_of_nat (n + 32) else c.

(** [s.lower()] on an ASCII string. *)
Fixpoint lower (s : string) : string :=
  match s with
  | EmptyString => EmptyString
  | String c s' => String (lower_char c) (lower s')
  end.

(** The characters [int] skips around a literal: space, tab, newline,
    vertical tab, form feed and carriage return. *)
Definition is_space (c : ascii) : bool :=
  let n := nat_of_ascii c in
  (((9 <=? n) && (n <=? 13)) || (n =? 32))%nat.

Fixpoint lstrip (s : string) : string :=
  match s with
  | String c s' => if is_space c then lstrip s' else s
  | EmptyString => EmptyString
  end.

(** Value of one base-16 digit, either case. *)
Definition digit16 (c : ascii) : option Z :=
  match HexString.ascii_to_digit c with
  | Some d => Some (Z.of_N d)
  | None => None
  end.

(** The digit run of an integer literal: digits with single underscores
    between them.  Returns the value read and the unread rest; a doubled
    or a trailing underscore is an error. *)
Fixpoint scan16 (acc : Z) (prev_us : bool) (s : string) : option (Z * string) :=
  match s with
  | String c s' =>
      match digit16 c with
      | Some d => scan16 (16 * acc + d) false s'
      | None =>
          if Ascii.eqb c "_" then
            if prev_us then None else scan16 acc true s'
          else if prev_us then None else Some (acc, s)
      end
  | EmptyString => if prev_us then None else Some (acc, s)
  end.

(** [int(s, 16)]; [None] stands for the [ValueError] it raises.
    Surrounding white space, a sign, a [0x] prefix and underscores between
    digits are accepted, as CPython does. *)
Definition py_int16 (s : string) : option Z :=
  let s1 := lstrip s in
  let '(neg, s2) :=
    match s1 with
    | String "+" r => (false, r)
    | String "-" r => (true, r)
    | _ => (false, s1)
    end in
  let s3 :=
    match s2 with
    | String "0" (String x r) =>
        if Ascii.eqb x "x" || Ascii.eqb x "X" then
          match r with String "_" r' => r' | _ => r end
        else s2
    | _ => s2
    end in
  match s3 with
  | String c _ =>
      match digit16 c with
      | None => None
      | Some _ =>
          match scan16 0 false s3 with
          | Some (v, rest) =>
              match lstrip rest with
              | EmptyString => Some (if neg then - v else v)
              | _ => None
              end
          | None => None
          end
      end
  | EmptyString => None
  end.

(** Lower-case base-16 digits of [|n|]. *)
Definition hex_abs (n : Z) : string :=
  match n with
  | Z0 => "0"
  | Zpos p | Zneg p => HexString.Raw.of_pos p ""
  end.

(** The format [f"{n:02x}"]: zero-padded to two characters, a minus sign
    counting towards the width. *)
Definition fmt02x (n : Z) : string :=
  let ds := hex_abs n in
  if (n <? 0)%Z then "-" +:+ ds
  else if (String.length ds <? 2)%nat then "0" +:+ ds
  else ds.

Definition rgb : Type := Z * Z * Z.

(** [hex_to_rgb]: [tuple(int(h[i:i+2], 16) for i in (0, 2, 4))];
    [None] is the [ValueError] of a slice that is no base-16 literal. *)
Definition hex_to_rgb (h : string) : option rgb :=
  match py_int16 (substring 0 2 h),
        py_int16 (substring 2 2 h),
        py_int16 (substring 4 2 h) with
  | Some r, Some g, Some b => Some (r, g, b)
  | _, _, _ => None
  end.

(** [rgb_to_hex]: [f"{c[0]:02x}{c[1]:02x}{c[2]:02x}"]. *)
Definition rgb_to_hex (c : rgb) : string :=
  let '(r, g, b) := c in fmt02x r +:+ fmt02x g +:+ fmt02x b.

(** A colour in its external form: exactly six base-16 digits. *)
Definition is_hex_char (c : ascii) : bool :=
  match digit16 c with Some _ => true | None => false end.

Definition is_lower_hex_char (c : ascii) : bool :=
  is_hex_char c && Ascii.eqb (lower_char c) c.

Fixpoint string_forall (p : ascii -> bool) (s : string) : bool :=
  match s with
  | EmptyString => true
  | String c s' => p c && string_forall p s'
  end.

Definition is_hex6 (s : string) : bool :=
  (String.length s =? 6)%nat && string_forall is_hex_char s.

Definition is_lower_hex6 (s : string) : bool :=
  (String.length s =? 6)%nat && string_forall is_lower_hex_char s.

(** ** Floating point: [int]/[float] conversions *)

(** Conversion of a Python [int] to [float], for integers below [2^53]
    in magnitude, where it is exact and where dividing two converted
    integers is Python's [int / int].  Every integer converted here is
    a colour channel, a channel difference, a step index or a
    millisecond count, and the statements about durations bound them by
    [2^32].  Larger integers are outside this definition: Python rounds
    them correctly or raises [OverflowError], the machine conversion
    used here wraps at [2^63]. *)
Definition Z2F (z : Z) : float :=
  if (z <? 0)%Z then PrimFloat.opp (PrimFloat.of_uint63 (Uint63.of_Z (- z)))
  else PrimFloat.of_uint63 (Uint63.of_Z z).

(** Python exceptions raised by the code under study. *)
Inductive exn : Type :=
  | ValueError
  | OverflowError
  | IndexError.

Inductive result (A : Type) : Type :=
  | Ok (a : A)
  | Raise (e : exn).
Arguments Ok {A} a.
Arguments Raise {A} e.

(** Integer part of a finite float, the sign dropped: with
    [|x| = m * 2^(e - 2101)] and [m] in [[1/2, 1)], the 53-bit mantissa
    [m * 2^53] is shifted by [e - 2154] places. *)
Definition trunc_abs (x : float) : Z :=
  let '(m, e) := PrimFloat.frshiftexp (PrimFloat.abs x) in
  let mant := PrimFloat.normfr_mantissa m in
  if (2154 <=? e)%uint63
  then Z.shiftl (Uint63.to_Z mant) (Uint63.to_Z (e - 2154)%uint63)
  else Uint63.to_Z (mant >> (2154 - e))%uint63.

(** [int(x)] of a float: truncation towards zero; [ValueError] on a NaN
    and [OverflowError] on an infinity. *)
Definition py_int (x : float) : result Z :=
  if PrimFloat.is_nan x then Raise ValueError
  else if PrimFloat.is_infinity x then Raise OverflowError
  else Ok (if PrimFloat.ltb x 0 then - trunc_abs x else trunc_abs x).

(** [range(a, b)]. *)
Definition py_range (a b : Z) : list Z :=
  map (fun k => a + Z.of_nat k) (seq 0 (Z.to_nat (b - a))).

(** ** The process state and its monad *)

(** Why a write to the zone file failed. *)
Inductive io_error : Type :=
  | PermissionDenied
  | NoSuchDevice
  | OtherIoError.

(** Lines printed to stderr. *)
Inductive log_line : Type :=
  | ErrPermission
  | ErrWriting (e : io_error)
  | ErrInThread (e : exn)
  | DebugThreadStarted
  | DebugStopping.

(** What the process does to the outside: one [open]/[write]/close of
    [ZONE_PATH] with its payload and outcome, a stderr line, a
    [time.sleep], an interruptible [stop_event.wait]. *)
Inductive event : Type :=
  | EvWrite (col : string) (res : option io_error)
  | EvLog (l : log_line)
  | EvSleep (secs : float)
  | EvWait (secs : float).

Record world : Type := mkWorld {
  current_hardware_color : option string;
  zone_io : nat -> option io_error;
  io_count : nat;
  trace : list event
}.

(** Computations over a state [S] that return or raise. *)
Definition St (S A : Type) : Type := S -> result A * S.

Definition ret {S A} (a : A) : St S A := fun w => (Ok a, w).
Definition raise {S A} (e : exn) : St S A := fun w => (Raise e, w).
Definition bind {S A B} (c : St S A) (k : A -> St S B) : St S B :=
  fun w => match c w with
           | (Ok a, w') => k a w'
           | (Raise e, w') => (Raise e, w')
           end.

(** Computations of the module-level functions, over the [world]. *)
Definition M (A : Type) : Type := St world A.
Definition lift {A} (r : result A) : M A := fun w => (r, w).
Definition lift_opt {A} (e : exn) (o : option A) : M A :=
  fun w => (match o with Some a => Ok a | None => Raise e end, w).
Definition emit (ev : event) : M unit :=
  fun w => (Ok tt, mkWorld (current_hardware_color w) (zone_io w)
                           (io_count w) (trace w ++ [ev])).

Notation "'do' x <- c ; k" := (bind c (fun x => k))
  (at level 10, x pattern, c at level 100, k at level 200).
Notation "'do_' c ; k" := (bind c (fun _ => k))
  (at level 10, c at level 100, k at level 200).

(** [for x in l: body(x)]. *)
Fixpoint for_each {A} (l : list A) (body : A -> M unit) : M unit :=
  match l with
  | [] => ret tt
  | x :: l' => do_ body x; for_each l' body
  end.

(** [time.sleep(secs)]: a negative length is a [ValueError].  This is
    [time.sleep] on the lengths the C clock can hold, below about
    [9.2e9] seconds, which covers every duration below [2^32] ms; a
    longer one is an [OverflowError] in CPython and is outside this
    definition. *)
Definition sleep (secs : float) : M unit :=
  if PrimFloat.ltb secs 0 then raise ValueError else emit (EvSleep secs).

(** ** The hardware sink *)

(** The line of the handler that catches the failure: [except
    PermissionError], or [except Exception] for everything else. *)
Definition write_error_line (e : io_error) : log_line :=
  match e with
  | PermissionDenied => ErrPermission
  | NoSuchDevice | OtherIoError => ErrWriting e
  end.

(** [write_color]: open the zone file, write [col_hex], close it; on
    success record [col_hex] as the last hardware colour, on any
    exception print a line to stderr and return. *)
Definition write_color (col_hex : string) : M unit := fun w =>
  match zone_io w (io_count w) with
  | None =>
      (Ok tt, mkWorld (Some col_hex) (zone_io w) (S (io_count w))
                      (trace w ++ [EvWrite col_hex None]))
  | Some e =>
      (Ok tt, mkWorld (current_hardware_color w) (zone_io w) (S (io_count w))
                      (trace w ++ [EvWrite col_hex (Some e);
                                   EvLog (write_error_line e)]))
  end.

(** ** The transition engine *)

Definition truthy_int (d : option Z) : bool :=
  match d with Some d => negb (d =? 0)%Z | None => false end.

Definition truthy_str (s : option string) : bool :=
  match s with Some (String _ _) => true | _ => false end.

(** The arithmetic of one channel of one step:
    [int(c0 + (c1 - c0) * t)] in binary64. *)
Definition lerp (f0 fd t : float) : float :=
  PrimFloat.add f0 (PrimFloat.mul fd t).
Definition channel (c0 c1 : Z) (t : float) : result Z :=
  py_int (lerp (Z2F c0) (Z2F (c1 - c0)) t).

Definition steps : Z := 20.

(** [t = i / steps]. *)
Definition step_t (i : Z) : float := PrimFloat.div (Z2F i) (Z2F steps).

(** [delay = duration_ms / steps / 1000.0], in seconds, for a duration
    below [2^53] in magnitude (see [Z2F]). *)
Definition step_delay (duration_ms : Z) : float :=
  PrimFloat.div (PrimFloat.div (Z2F duration_ms) (Z2F steps)) 1000%float.

(** The body of the interpolation loop, one step. *)
Definition set_color_step (c0 c1 : rgb) (delay : float) (i : Z) : M unit :=
  let '(r0, g0, b0) := c0 in
  let '(r1, g1, b1) := c1 in
  let t := step_t i in
  do ir <- lift (channel r0 r1 t);
  do ig <- lift (channel g0 g1 t);
  do ib <- lift (channel b0 b1 t);
  do_ write_color (rgb_to_hex (ir, ig, ib));
  sleep delay.

(** [set_color(col_hex, duration_ms=None)]. *)
Definition set_color (col_hex : string) (duration_ms : option Z) : M unit :=
  fun w =>
  let cur := default "" (current_hardware_color w) in
  if truthy_int duration_ms
     && truthy_str (current_hardware_color w)
     && negb (String.eqb (lower cur) (lower col_hex))
  then
    (do c0 <- lift_opt ValueError (hex_to_rgb cur);
     do c1 <- lift_opt ValueError (hex_to_rgb col_hex);
     let delay := step_delay (default 0 duration_ms) in
     for_each (py_range 1 (steps + 1)) (set_color_step c0 c1 delay)) w
  else write_color col_hex w.

(** ** Qt's HSV colours *)

(** Modelled from the spec: [QColor.fromHsv(h, s, v).name()[1:]] is Qt
    library code that the repository calls but does not contain; the spec
    describes it as the standard HSV to RGB conversion.  The definitions
    of this section are that conversion as Qt carries it out: 16-bit
    components, six sectors of 60 degrees, rounding with [qRound], each
    component brought to eight bits by Qt's rounding division by 257 and
    printed as two lower-case hex digits.  Arguments out of range give
    the invalid colour, whose name is black. *)

(** Modelled from the spec: the C cast of a finite double to [int]. *)
Definition c_int (x : float) : Z :=
  match py_int x with Ok z => z | Raise _ => 0%Z end.

(** Modelled from the spec: Qt's [qRound] on a non-negative double. *)
Definition qRound (x : float) : Z := c_int (PrimFloat.add x 0.5).

Definition USHRT_MAX : Z := 65535.

(** Modelled from the spec: the chromatic and achromatic cases of
    [QColor::toRgb] on an HSV colour, all components 16 bits wide. *)
Definition hsv_to_rgb16 (hue sat val : Z) : rgb :=
  if (sat =? 0)%Z || (hue =? USHRT_MAX)%Z then (val, val, val)
  else
    let h := if (hue =? 36000)%Z then 0%float
             else PrimFloat.div (Z2F hue) 6000 in
    let s := PrimFloat.div (Z2F sat) (Z2F USHRT_MAX) in
    let v := PrimFloat.div (Z2F val) (Z2F USHRT_MAX) in
    let i := c_int h in
    let f := PrimFloat.sub h (Z2F i) in
    let p := PrimFloat.mul v (PrimFloat.sub 1 s) in
    let out (x : float) := qRound (PrimFloat.mul x (Z2F USHRT_MAX)) in
    if Z.odd i then
      let q := PrimFloat.mul v (PrimFloat.sub 1 (PrimFloat.mul s f)) in
      match i with
      | 1 => (out q, out v, out p)
      | 3 => (out p, out q, out v)
      | 5 => (out v, out p, out q)
      | _ => (0, 0, 0)
      end%Z
    else
      let t := PrimFloat.mul v
                 (PrimFloat.sub 1 (PrimFloat.mul s (PrimFloat.sub 1 f))) in
      match i with
      | 0 => (out v, out t, out p)
      | 2 => (out p, out v, out t)
      | 4 => (out t, out p, out v)
      | _ => (0, 0, 0)
      end%Z.

(** Modelled from the spec: Qt's [qt_div_257], the rounding division
    by 257 that brings a 16-bit component to eight bits:
    [qt_div_257_floor(x + 128)] with
    [qt_div_257_floor(x) = (x - (x >> 8)) >> 8]. *)
Definition qt_div_257 (x : Z) : Z :=
  let y := (x + 128)%Z in Z.shiftr (y - Z.shiftr y 8) 8.

(** Modelled from the spec: [QColor.fromHsv(h, s, v).name()[1:]], the
    six hex digits of the colour. *)
Definition QColor_fromHsv_name (h s v : Z) : string :=
  if (((h <? 0) || (360 <=? h)) && negb (h =? -1)
      || (s <? 0) || (255 <? s) || (v <? 0) || (255 <? v))%Z
  then "000000"
  else
    let hue := if (h =? -1)%Z then USHRT_MAX else ((h mod 360) * 100)%Z in
    let '(r, g, b) := hsv_to_rgb16 hue (s * 257) (v * 257) in
    rgb_to_hex (qt_div_257 r, qt_div_257 g, qt_div_257 b).

(** Following the spec's words, to be compared with what the thread
    writes: the standard conversion from HSV to RGB, in exact
    arithmetic.  The hue is in degrees, saturation and value are in
    255ths; with [i] the sector of 60 degrees and [f] the position in
    it, the channels are picked from [v], [p = v (1 - s)],
    [q = v (1 - s f)] and [t = v (1 - s (1 - f))].  Each channel is
    returned as the numerator of a fraction of [hsv_den]. *)
Definition hsv_den : Z := 255 * 255 * 60.

Definition hsv_standard (h s v : Z) : rgb :=
  let i := (h / 60)%Z in
  let k := (h mod 60)%Z in
  let vv := (v * 255 * 60)%Z in
  let p := (v * (255 - s) * 60)%Z in
  let q := (v * (255 * 60 - s * k))%Z in
  let t := (v * (255 * 60 - s * (60 - k)))%Z in
  match i with
  | 0 => (vv, t, p)
  | 1 => (q, vv, p)
  | 2 => (p, vv, t)
  | 3 => (p, q, vv)
  | 4 => (t, p, vv)
  | _ => (vv, p, q)
  end%Z.

(** The 8-bit value [c] is a nearest one to the fraction [num / hsv_den]
    of 255: its distance to [255 * num / hsv_den] is at most one half. *)
Definition nearest_byte (num c : Z) : bool :=
  ((0 <=? c) && (c <=? 255)
   && (Z.abs (2 * (255 * num - c * hsv_den)) <=? hsv_den))%Z.

Definition nearest_rgb (x c : rgb) : bool :=
  let '(xr, xg, xb) := x in
  let '(r, g, b) := c in
  nearest_byte xr r && nearest_byte xg g && nearest_byte xb b.

(** The colour written for the hue [h] decodes to a nearest 8-bit colour
    of the standard conversion at full saturation and value. *)
Definition rainbow_standard_ok (h : Z) : bool :=
  match hex_to_rgb (QColor_fromHsv_name h 255 255) with
  | Some c =>
      String.eqb (rgb_to_hex c) (QColor_fromHsv_name h 255 255)
      && nearest_rgb (hsv_standard h 255 255) c
  | None => false
  end.

(** ** The animation threads *)

Definition STATIC_DURATION_MS : Z := 100.
Definition RAIN_DELAY_MS : Z := 10.

Inductive thread_class : Type :=
  | RainbowThread
  | NewYearsThread
  | PoliceThread.

(** The attributes of a thread object.  [hue] is used by [RainbowThread]
    only, [colors] and [color_index] by the two [ModeThread] subclasses
    only; [running] is [QThread.isRunning()]: started, and [run] has not
    returned. *)
Record thread : Type := mkThread {
  cls : thread_class;
  delay_s : float;
  stop_event : bool;
  running : bool;
  hue : Z;
  colors : list string;
  color_index : Z
}.

(** [delay_ms / 1000.0], for a delay below [2^53] in magnitude (see
    [Z2F]). *)
Definition ms_to_s (delay_ms : Z) : float :=
  PrimFloat.div (Z2F delay_ms) 1000.

(** [RainbowThread(delay_ms)]. *)
Definition new_RainbowThread (delay_ms : Z) : thread :=
  mkThread RainbowThread (ms_to_s delay_ms) false false 0 [] 0.

(** [NewYearsThread(delay_ms=500)]. *)
Definition new_NewYearsThread (delay_ms : option Z) : thread :=
  mkThread NewYearsThread (ms_to_s (default 500%Z delay_ms)) false false 0
           ["ff0000"; "00ff00"] 0.

(** [PoliceThread(delay_ms=100)]. *)
Definition new_PoliceThread (delay_ms : option Z) : thread :=
  mkThread PoliceThread (ms_to_s (default 100%Z delay_ms)) false false 0
           ["ff0000"; "0000ff"] 0.

(** [l[i]] on a list: negative indices count from the end, an index out
    of range is an [IndexError]. *)
Definition py_index {A} (l : list A) (i : Z) : option A :=
  let n := Z.of_nat (List.length l) in
  if ((0 <=? i) && (i <? n))%Z then nth_error l (Z.to_nat i)
  else if ((- n <=? i) && (i <? 0))%Z then nth_error l (Z.to_nat (n + i))
  else None.

(** [update_color] of [NewYearsThread] and [PoliceThread]. *)
Definition update_color (t : thread) : M thread :=
  do col <- lift_opt IndexError (py_index (colors t) (color_index t));
  do_ write_color col;
  ret (mkThread (cls t) (delay_s t) (stop_event t) (running t) (hue t)
         (colors t)
         ((color_index t + 1) mod Z.of_nat (List.length (colors t)))).

(** One iteration of the thread's [run] loop, past the test of
    [stop_event]: the colour update and the interruptible wait. *)
Definition tick (t : thread) : M thread :=
  match cls t with
  | RainbowThread =>
      let col := QColor_fromHsv_name (hue t mod 360) 255 255 in
      do_ write_color col;
      let t' := mkThread (cls t) (delay_s t) (stop_event t) (running t)
                  (hue t + 1) (colors t) (color_index t) in
      do_ emit (EvWait (delay_s t));
      ret t'
  | NewYearsThread | PoliceThread =>
      do t' <- update_color t;
      do_ emit (EvWait (delay_s t));
      ret t'
  end.

(** [n] iterations of the loop with [stop_event] clear throughout. *)
Fixpoint ticks (n : nat) (t : thread) : M thread :=
  match n with
  | O => ret t
  | S n' => do t' <- tick t; ticks n' t'
  end.

(** ** The controller *)

(** The part of [RGBController] and of the process around it that the
    mode operations touch: the thread objects by identity, the single
    slot [active_thread], the [QSettings] store, whether
    [QApplication.quit] was called, and the [world]. *)
Record system : Type := mkSystem {
  threads : gmap nat thread;
  next_thread : nat;
  active_thread : option nat;
  settings : gmap string string;
  quit_requested : bool;
  wld : world
}.

Definition C (A : Type) : Type := St system A.

(** Run a module-level function from a method of the controller. *)
Definition in_world {A} (c : M A) : C A := fun s =>
  let '(r, w') := c (wld s) in
  (r, mkSystem (threads s) (next_thread s) (active_thread s) (settings s)
               (quit_requested s) w').

Definition set_thread (h : nat) (t : thread) : C unit := fun s =>
  (Ok tt, mkSystem (<[h := t]> (threads s)) (next_thread s) (active_thread s)
                   (settings s) (quit_requested s) (wld s)).

Definition set_active_thread (a : option nat) : C unit := fun s =>
  (Ok tt, mkSystem (threads s) (next_thread s) a (settings s)
                   (quit_requested s) (wld s)).

Definition set_value (key value : string) : C unit := fun s =>
  (Ok tt, mkSystem (threads s) (next_thread s) (active_thread s)
                   (<[key := value]> (settings s)) (quit_requested s) (wld s)).

(** [thread.stop()]: set the stop event, then [wait()] until [run] has
    returned.  The thread is parked in [stop_event.wait] between two
    iterations, notices the event and leaves its loop. [RainbowThread]
    prints a line first.  [stopped t] is the thread object afterwards. *)
Definition stopped (t : thread) : thread :=
  mkThread (cls t) (delay_s t) true false (hue t) (colors t) (color_index t).

Definition stop (h : nat) : C unit := fun s =>
  match threads s !! h with
  | Some t =>
      (do_ in_world (match cls t with
                     | RainbowThread => emit (EvLog DebugStopping)
                     | NewYearsThread | PoliceThread => ret tt
                     end);
       set_thread h (stopped t)) s
  | None => (Ok tt, s)
  end.

(** [RGBController.stop_active_thread]. *)
Definition stop_active_thread : C unit := fun s =>
  match active_thread s with
  | Some h => (do_ stop h; set_active_thread None) s
  | None => (Ok tt, s)
  end.

(** The last two lines of [start_thread]: the thread object [t] becomes
    the active thread and is started; its [run] prints a line. *)
Definition launch (t : thread) : C unit := fun s =>
  let h := next_thread s in
  (do_ set_active_thread (Some h);
   do_ set_thread h (mkThread (cls t) (delay_s t) (stop_event t) true (hue t)
                       (colors t) (color_index t));
   in_world (emit (EvLog DebugThreadStarted)))
    (mkSystem (threads s) (S h) (active_thread s) (settings s)
              (quit_requested s) (wld s)).

(** [RGBController.start_thread]. *)
Definition start_thread (t : thread) : C unit :=
  do_ stop_active_thread; launch t.

(** [settings.value(key, default)]. *)
Definition value (key dflt : string) (s : system) : string :=
  default dflt (settings s !! key).

(** [RGBController.activate_mode]. *)
Definition activate_mode (mode : string) (is_startup : bool) : C unit :=
  do_ stop_active_thread;
  if String.eqb mode "Static Color" then
    fun s =>
      let last_color := value "lastStaticColor" "ffffff" s in
      let duration := if is_startup then None else Some STATIC_DURATION_MS in
      in_world (set_color last_color duration) s
  else if String.eqb mode "Rainbow" then
    start_thread (new_RainbowThread RAIN_DELAY_MS)
  else if String.eqb mode "New Year's" then
    start_thread (new_NewYearsThread (Some 500%Z))
  else if String.eqb mode "Police" then
    start_thread (new_PoliceThread (Some 100%Z))
  else ret tt.

(** [RGBController.apply_static_color]; the tree widget is not modelled. *)
Definition apply_static_color (color_hex : string) : C unit :=
  do_ stop_active_thread;
  do_ in_world (set_color color_hex (Some STATIC_DURATION_MS));
  do_ set_value "lastStaticColor" color_hex;
  fun s =>
    match settings s !! "lastMode" with
    | Some m =>
        if String.eqb m "Static Color" then (Ok tt, s)
        else set_value "lastMode" "Static Color" s
    | None => set_value "lastMode" "Static Color" s
    end.

(** [RGBController.on_mode] for a mode item of the tree. *)
Definition on_mode (mode : string) : C unit :=
  if String.eqb mode "" then ret tt
  else do_ set_value "lastMode" mode; activate_mode mode false.

(** [RGBController.load_settings]. *)
Definition load_settings : C unit := fun s =>
  activate_mode (value "lastMode" "Static Color" s) true s.

(** [RGBController.exit_app]. *)
Definition exit_app : C unit :=
  do_ stop_active_thread;
  fun s => (Ok tt, mkSystem (threads s) (next_thread s) (active_thread s)
                            (settings s) true (wld s)).

(** One loop iteration of the thread [h], on its own schedule.  An
    exception that escapes the iteration is caught by [run], which
    prints it and returns: the thread is no longer running. *)
Definition thread_iteration (h : nat) (s : system) : system :=
  match threads s !! h with
  | Some t =>
      if running t && negb (stop_event t) then
        match tick t (wld s) with
        | (Ok t', w') =>
            mkSystem (<[h := t']> (threads s)) (next_thread s)
                     (active_thread s) (settings s) (quit_requested s) w'
        | (Raise e, w') =>
            mkSystem (<[h := mkThread (cls t) (delay_s t) (stop_event t)
                               false (hue t) (colors t) (color_index t)]>
                        (threads s))
                     (next_thread s) (active_thread s) (settings s)
                     (quit_requested s)
                     (snd (emit (EvLog (ErrInThread e)) w'))
        end
      else s
  | None => s
  end.

(** Everything that can happen to the system: a call of a controller
    method from the event loop, or an iteration of some thread. *)
Inductive op : Type :=
  | OpStartThread (t : thread)
  | OpStopActiveThread
  | OpActivateMode (mode : string) (is_startup : bool)
  | OpApplyStaticColor (color_hex : string)
  | OpOnMode (mode : string)
  | OpLoadSettings
  | OpExitApp
  | OpThreadIteration (h : nat).

Definition exec (o : op) (s : system) : system :=
  match o with
  | OpStartThread t => snd (start_thread t s)
  | OpStopActiveThread => snd (stop_active_thread s)
  | OpActivateMode mode is_startup => snd (activate_mode mode is_startup s)
  | OpApplyStaticColor color_hex => snd (apply_static_color color_hex s)
  | OpOnMode mode => snd (on_mode mode s)
  | OpLoadSettings => snd (load_settings s)
  | OpExitApp => snd (exit_app s)
  | OpThreadIteration h => thread_iteration h s
  end.

Definition run_ops (ops : list op) (s : system) : system :=
  fold_left (fun s o => exec o s) ops s.

(** The controller as [__init__] leaves it: no thread, empty slot. *)
Definition init_system (stored : gmap string string) (w : world) : system :=
  mkSystem ∅ 0 None stored false w.

(** The handles of the threads that are running. *)
Definition live (s : system) : list nat :=
  map fst (List.filter (fun ht => running (snd ht))
                       (map_to_list (threads s))).

(** ** Reading a trace *)

(** The hardware-visible part of an event: the payload of a write
    (whatever its outcome) or the length of a sleep. *)
Inductive action : Type :=
  | AWrite (col : string)
  | ASleep (secs : float).

Definition action_of (e : event) : list action :=
  match e with
  | EvWrite col _ => [AWrite col]
  | EvSleep secs => [ASleep secs]
  | EvLog _ | EvWait _ => []
  end.

Definition actions (tr : list event) : list action := flat_map action_of tr.

(** The colours handed to the zone file, in order. *)
Definition written (a : action) : list string :=
  match a with AWrite col => [col] | ASleep _ => [] end.
Definition writes (tr : list event) : list string :=
  flat_map written (actions tr).

(** The events a computation appends to the trace. *)
Definition emitted {A} (c : M A) (w : world) : list event :=
  skipn (List.length (trace w)) (trace (snd (c w))).

Definition red (c : rgb) : Z := fst (fst c).
Definition green (c : rgb) : Z := snd (fst c).
Definition blue (c : rgb) : Z := snd c.

Fixpoint zip3 (rs gs bs : list Z) : list rgb :=
  match rs, gs, bs with
  | r :: rs', g :: gs', b :: bs' => (r, g, b) :: zip3 rs' gs' bs'
  | _, _, _ => []
  end.

(** [v] lies between [a] and [b], ends included. *)
Definition between (a b v : Z) : Prop := (Z.min a b <= v <= Z.max a b)%Z.

Definition rgb_between (a b c : rgb) : Prop :=
  between (red a) (red b) (red c)
  /\ between (green a) (green b) (green c)
  /\ between (blue a) (blue b) (blue c).

(** Between the two colours and different from both. *)
Definition rgb_strictly_between (a b c : rgb) : Prop :=
  rgb_between a b c /\ c <> a /\ c <> b.

(** ** An executable check of one channel over all its steps

    [channel_walk] follows the values of one channel through the steps
    [ts], on machine integers: every value is the integer part of the
    binary64 sum, stays within [lo, hi], and does not move against the
    direction [up] from the value before it.  It returns the last value. *)

Definition step_ts : list float := map step_t (py_range 1 (steps + 1)).

Definition channel_step_ok (f0 fd : float) (lo hi : int) (up : bool)
    (prev : int) (t : float) : option int :=
  let x := lerp f0 fd t in
  let '(m, e) := PrimFloat.frshiftexp (PrimFloat.abs x) in
  let v := (PrimFloat.normfr_mantissa m >> (2154 - e))%uint63 in
  if negb (PrimFloat.is_nan x) && negb (PrimFloat.is_infinity x)
     && negb (PrimFloat.ltb x 0) && negb (2154 <=? e)%uint63
     && (lo <=? v)%uint63 && (v <=? hi)%uint63
     && (if up then (prev <=? v)%uint63 else (v <=? prev)%uint63)
     && PrimFloat.leb (PrimFloat.of_uint63 v) x
     && PrimFloat.ltb x (PrimFloat.of_uint63 (v + 1)%uint63)
  then Some v else None.

Fixpoint channel_walk (f0 fd : float) (lo hi : int) (up : bool)
    (prev : int) (l : list float) : option int :=
  match l with
  | [] => Some prev
  | t :: l' =>
      match channel_step_ok f0 fd lo hi up prev t with
      | Some v => channel_walk f0 fd lo hi up v l'
      | None => None
      end
  end.

Definition channel_check (a b : Z) : bool :=
  match channel_walk (Z2F a) (Z2F (b - a))
          (Uint63.of_Z (Z.min a b)) (Uint63.of_Z (Z.max a b))
          (a <=? b)%Z (Uint63.of_Z a) step_ts with
  | Some v => (v =? Uint63.of_Z b)%uint63
  | None => false
  end.

Definition byte_range : list Z := map Z.of_nat (seq 0 256).

Definition channel_check_all : bool :=
  forallb (fun a => forallb (channel_check a) byte_range) byte_range.

(** A run of channel values that never moves against [up], from [prev]. *)
Fixpoint chain (up : bool) (prev : Z) (vs : list Z) : Prop :=
  match vs with
  | [] => True
  | v :: vs' => (if up then prev <= v else v <= prev)%Z /\ chain up v vs'
  end.

(** [v] is the integer part of the non-negative float [x]. *)
Definition is_trunc_of (x : float) (v : Z) : Prop :=
  PrimFloat.leb (Z2F v) x = true /\ PrimFloat.ltb x (Z2F (v + 1)) = true.

(** ** An executable check of the steps against exact arithmetic

    [exact_step_ok] takes the value [v] of one channel at step [i] as
    binary64 gives it and compares it, on machine integers, with the
    rational [a + (b - a) * i / 20]: [20 v + a i <= b i + 20 a
    <= 20 v + a i + 20].  At the first step it also compares [v] with
    the two ends. *)

Definition step_its : list (int * float) :=
  map (fun i => (Uint63.of_Z i, step_t i)) (py_range 1 (steps + 1)).

Definition first_step_ok (a b v : int) : bool :=
  (if (a + 20 <=? b) then (a <? v) && (v <? b)
   else if (a <=? b) then (v =? a)
   else if (b + 1 =? a) then (v =? b)
   else (b <? v) && (v <? a))%uint63.

Definition exact_step_ok (a b : int) (f0 fd : float) (it : int * float)
    : bool :=
  let '(i, t) := it in
  match channel_step_ok f0 fd 0 255 true 0 t with
  | Some v =>
      ((20 * v + a * i <=? b * i + 20 * a)
       && (b * i + 20 * a <=? 20 * v + a * i + 20)
       && (negb (i =? 1) || first_step_ok a b v))%uint63
  | None => false
  end.

Definition exact_check (a b : Z) : bool :=
  forallb (exact_step_ok (Uint63.of_Z a) (Uint63.of_Z b) (Z2F a) (Z2F (b - a)))
          step_its.

(** ** Executable checks of the two-digit conversions *)

Definition hex_chars : list ascii :=
  list_ascii_of_string "0123456789abcdefABCDEF".

Definition all_ascii : list ascii := map ascii_of_nat (seq 0 256).

Definition opt_Z_eqb (a b : option Z) : bool :=
  match a, b with
  | Some x, Some y => (x =? y)%Z
  | None, None => true
  | _, _ => false
  end.

(** Every base-16 digit is one of the 22 listed. *)
Definition hex_chars_check : bool :=
  forallb (fun c => implb (is_hex_char c)
                          (existsb (Ascii.eqb c) hex_chars)) all_ascii.

(** Two digits parse to a byte that prints as the same two digits in
    lower case. *)
Definition hex_pair_ok (c1 c2 : ascii) : bool :=
  match py_int16 (String c1 (String c2 "")) with
  | Some v =>
      (0 <=? v)%Z && (v <=? 255)%Z
      && String.eqb (fmt02x v)
           (String (lower_char c1) (String (lower_char c2) ""))
  | None => false
  end.

Definition hex_pair_check : bool :=
  forallb (fun c1 => forallb (hex_pair_ok c1) hex_chars) hex_chars.

(** A byte prints as two characters that parse back to it. *)
Definition byte_ok (v : Z) : bool :=
  match fmt02x v with
  | String c1 (String c2 EmptyString) =>
      opt_Z_eqb (py_int16 (String c1 (String c2 ""))) (Some v)
      && is_lower_hex_char c1 && is_lower_hex_char c2
  | _ => false
  end.

Definition byte_check : bool := forallb byte_ok byte_range.

(** ** Sample worlds *)

(** A zone file that accepts every write, and one that refuses every
    write with the given error. *)
Definition io_ok : nat -> option io_error := fun _ => None.

(** A process that has written [cur] last (or nothing yet) and whose
    trace is still empty. *)
Definition fresh_world (cur : option string)
    (io : nat -> option io_error) : world :=
  mkWorld cur io 0 [].

(** ** What a loop iteration does *)

(** The colour an iteration hands to [write_color], if it gets that far. *)
Definition tick_colour (t : thread) : option string :=
  match cls t with
  | RainbowThread => Some (QColor_fromHsv_name (hue t mod 360) 255 255)
  | NewYearsThread | PoliceThread => py_index (colors t) (color_index t)
  end.

(** The thread object after an iteration. *)
Definition advance (t : thread) : thread :=
  match cls t with
  | RainbowThread =>
      mkThread (cls t) (delay_s t) (stop_event t) (running t) (hue t + 1)
               (colors t) (color_index t)
  | NewYearsThread | PoliceThread =>
      mkThread (cls t) (delay_s t) (stop_event t) (running t) (hue t)
               (colors t)
               ((color_index t + 1) mod Z.of_nat (List.length (colors t)))
  end.


(** The lengths of the interruptible waits of a trace. *)
Definition waits (tr : list event) : list float :=
  flat_map (fun e => match e with EvWait secs => [secs] | _ => [] end) tr.

(** ** The animation slot *)

(** Every running thread is the one in the slot. *)
Definition slot_invariant (s : system) : Prop :=
  forall (h : nat) (t : thread),
    threads s !! h = Some t -> running t = true -> active_thread s = Some h.

(** No thread is running. *)
Definition idle (s : system) : Prop :=
  forall (h : nat) (t : thread), threads s !! h = Some t -> running t = false.

(** A controller computation that keeps the slot invariant. *)
Definition keeps_slot {A} (c : C A) : Prop :=
  forall s : system, slot_invariant s -> slot_invariant (snd (c s)).

(** A controller computation that touches neither the thread objects nor
    the slot. *)
Definition leaves_threads {A} (c : C A) : Prop :=
  forall s : system,
    threads (snd (c s)) = threads s
    /\ active_thread (snd (c s)) = active_thread s.

(** A controller computation that may run once every thread has been
    stopped. *)
Definition safe_when_idle {A} (c : C A) : Prop :=
  forall s : system, idle s -> slot_invariant (snd (c s)).

(** A controller whose rainbow thread has run two iterations. *)
Definition rainbow_running : system :=
  run_ops [OpActivateMode "Rainbow" false; OpThreadIteration 0;
           OpThreadIteration 0]
          (init_system ∅ (fresh_world None io_ok)).

(** ** Predicates of the statements *)

(** A colour channel: an 8-bit value. *)
Definition is_byte (v : Z) : Prop := (0 <= v <= 255)%Z.

Definition rgb_bytes (c : rgb) : Prop :=
  is_byte (red c) /\ is_byte (green c) /\ is_byte (blue c).

(** What one step computes: its colour, channel by channel. *)
Definition step_colour (c0 c1 : rgb) (i : Z) (c : rgb) : Prop :=
  channel (red c0) (red c1) (step_t i) = Ok (red c)
  /\ channel (green c0) (green c1) (step_t i) = Ok (green c)
  /\ channel (blue c0) (blue c1) (step_t i) = Ok (blue c).

(** Each channel of the step's colour is the integer part of the
    binary64 value of [c0 + (c1 - c0) * t], [t = i / steps]. *)
Definition step_truncates (c0 c1 : rgb) (i : Z) (c : rgb) : Prop :=
  is_trunc_of (lerp (Z2F (red c0)) (Z2F (red c1 - red c0)) (step_t i)) (red c)
  /\ is_trunc_of (lerp (Z2F (green c0)) (Z2F (green c1 - green c0)) (step_t i))
                 (green c)
  /\ is_trunc_of (lerp (Z2F (blue c0)) (Z2F (blue c1 - blue c0)) (step_t i))
                 (blue c).

(** The value [v] of a channel at step [i] of 20 from [a] to [b], in
    exact arithmetic: [v] is the integer part of [a + (b - a) * i / 20],
    or one below it, which can only be when that number is an integer
    (the difference is then exactly 20). *)
Definition step_exact (a b i v : Z) : Prop :=
  (0 <= (b - a) * i - 20 * (v - a) <= 20)%Z.

Definition step_exact_rgb (c0 c1 : rgb) (i : Z) (c : rgb) : Prop :=
  step_exact (red c0) (red c1) i (red c)
  /\ step_exact (green c0) (green c1) i (green c)
  /\ step_exact (blue c0) (blue c1) i (blue c).

(** The value [v] of a channel at the first step from [a] to [b]:
    strictly between the two when [b] is at least 20 above or at least
    2 below [a], still [a] when [b] is less than 20 above, already [b]
    when [b] is 1 below. *)
Definition first_step (a b v : Z) : Prop :=
  ((a + 20 <= b -> a < v < b)
   /\ (a <= b < a + 20 -> v = a)
   /\ (b = a - 1 -> v = b)
   /\ (b <= a - 2 -> b < v < a))%Z.

Definition first_step_rgb (c0 c1 c : rgb) : Prop :=
  first_step (red c0) (red c1) (red c)
  /\ first_step (green c0) (green c1) (green c)
  /\ first_step (blue c0) (blue c1) (blue c).

(** Every channel of [c1] is 0 to 19 above that of [c0]. *)
Definition small_rise (c0 c1 : rgb) : Prop :=
  (0 <= red c1 - red c0 < 20 /\ 0 <= green c1 - green c0 < 20
   /\ 0 <= blue c1 - blue c0 < 20)%Z.

(** Every channel of [c1] is that of [c0] or 1 below it. *)
Definition small_fall (c0 c1 : rgb) : Prop :=
  (-1 <= red c1 - red c0 <= 0 /\ -1 <= green c1 - green c0 <= 0
   /\ -1 <= blue c1 - blue c0 <= 0)%Z.

(** Starting from [c0], no channel of [cs] ever moves away from [c1]:
    a channel that [c1] does not lower never decreases, one that it does
    lower never increases. *)
Definition monotone_from (c0 c1 : rgb) (cs : list rgb) : Prop :=
  chain (red c0 <=? red c1)%Z (red c0) (map red cs)
  /\ chain (green c0 <=? green c1)%Z (green c0) (map green cs)
  /\ chain (blue c0 <=? blue c1)%Z (blue c0) (map blue cs).

(** A float that is not below zero, as a specification float: a NaN, or
    a zero, finite number or infinity with the sign bit clear. *)
Definition sf_nonneg (x : spec_float) : Prop :=
  match x with
  | S754_nan => True
  | S754_zero s | S754_infinity s | S754_finite s _ _ => s = false
  end.

(** * The rest of the program

    The theme-file scraper, the start-up sequence and the wallpaper
    button, with the predicates of the properties proved about them and
    about the functions above. *)

(** ** The theme file *)

(** What [open(THEME_COLOR_PATH, "r")] and [f.read()] give: the text of
    the file, a [FileNotFoundError], or another exception. *)
Inductive read_result : Type :=
  | FileNotFound
  | ReadError
  | FileText (content : string).

(** Lines printed by the scraper and by the two functions that call it. *)
Inductive theme_line : Type :=
  | DebugColorFound (color : string)
  | DebugColorNotFound
  | ErrThemeNotFound
  | ErrThemeRead
  | ErrApplyFailed (color : string) (e : exn)
  | WarnNoWallpaperColor.

(** The class [\s] of [re] on ASCII text: tab to carriage return, the
    four separators 28 to 31, and the space. *)
Definition is_re_space (c : ascii) : bool :=
  let n := nat_of_ascii c in
  (((9 <=? n) && (n <=? 13)) || ((28 <=? n) && (n <=? 32)))%nat.

(** [\s*]: greedy, and what follows it in the pattern is never a space. *)
Fixpoint skip_re_space (s : string) : string :=
  match s with
  | String c s' => if is_re_space c then skip_re_space s' else s
  | EmptyString => EmptyString
  end.

(** The rest of [s] after the literal [p], if [s] starts with it. *)
Fixpoint strip_prefix (p s : string) : option string :=
  match p, s with
  | EmptyString, _ => Some s
  | String a p', String b s' =>
      if Ascii.eqb a b then strip_prefix p' s' else None
  | String _ _, EmptyString => None
  end.

(** [([0-9a-fA-F]{6})] at the head of [s]. *)
Definition take_hex6 (s : string) : option string :=
  let g := substring 0 6 s in
  if is_hex6 g then Some g else None.

(** The pattern [\$wallbash_pry1\s*=\s*([0-9a-fA-F]{6})] matched at the
    head of [s]: its group 1. *)
Definition match_wallbash (s : string) : option string :=
  match strip_prefix "$wallbash_pry1" s with
  | Some r =>
      match skip_re_space r with
      | String "=" r' => take_hex6 (skip_re_space r')
      | _ => None
      end
  | None => None
  end.

(** [re.search] with [re.MULTILINE]: the first position, at the start of
    the text or just after a newline, where the pattern matches. *)
Fixpoint search_wallbash (line_start : bool) (s : string) : option string :=
  match (if line_start then match_wallbash s else None) with
  | Some color => Some color
  | None =>
      match s with
      | EmptyString => None
      | String c s' => search_wallbash (Ascii.eqb c "010") s'
      end
  end.

(** A text made of complete lines: empty, or ending in a newline. *)
Fixpoint complete_lines (s : string) : bool :=
  match s with
  | EmptyString => true
  | String c EmptyString => Ascii.eqb c "010"
  | String _ s' => complete_lines s'
  end.

Definition not_dollar (c : ascii) : bool := negb (Ascii.eqb c "$").

(** ** The application around the controller *)

(** The controller with the console that the scraper, the start-up code
    and the wallpaper button print to. *)
Record gui : Type := mkGui {
  ctl : system;
  console : list theme_line
}.

Definition App (X : Type) : Type := St gui X.

Definition in_ctl {X} (c : C X) : App X := fun a =>
  let '(r, s') := c (ctl a) in (r, mkGui s' (console a)).

Definition print_line (l : theme_line) : App unit := fun a =>
  (Ok tt, mkGui (ctl a) (console a ++ [l])).

(** [get_wallpaper_primary_color], given what reading the theme file
    gives. *)
Definition get_wallpaper_primary_color (theme : read_result)
    : App (option string) :=
  match theme with
  | FileText content =>
      match search_wallbash true content with
      | Some color => do_ print_line (DebugColorFound color); ret (Some color)
      | None => do_ print_line DebugColorNotFound; ret None
      end
  | FileNotFound => do_ print_line ErrThemeNotFound; ret None
  | ReadError => do_ print_line ErrThemeRead; ret None
  end.

(** Truth value of an optional string: [None] and [""] are false. *)
Definition truthy_opt (o : option string) : bool :=
  match o with Some (String _ _) => true | _ => false end.

(** [RGBController.initial_color_setup]. *)
Definition initial_color_setup (theme : read_result) : App bool :=
  do wallpaper_color_hex <- get_wallpaper_primary_color theme;
  if truthy_opt wallpaper_color_hex then
    let c := default "" wallpaper_color_hex in
    fun a =>
      match (do_ in_ctl (in_world (set_color c None));
             do_ in_ctl (set_value "lastMode" "Static Color");
             do_ in_ctl (set_value "lastStaticColor" c);
             ret true) a with
      | (Ok r, a') => (Ok r, a')
      | (Raise e, a') => (do_ print_line (ErrApplyFailed c e); ret false) a'
      end
  else ret false.

(** [RGBController.initialize_state]; the tree widget is not modelled. *)
Definition initialize_state (theme : read_result) : App unit :=
  do theme_applied <- initial_color_setup theme;
  if theme_applied then ret tt else in_ctl load_settings.

(** [RGBController.apply_wallpaper_color]. *)
Definition apply_wallpaper_color (theme : read_result) : App unit :=
  do color_hex <- get_wallpaper_primary_color theme;
  if truthy_opt color_hex then
    in_ctl (apply_static_color (default "" color_hex))
  else
    do_ print_line WarnNoWallpaperColor;
    in_ctl (apply_static_color "ffffff").

(** The application as [RGBController()] leaves it, in a process that
    has written nothing yet. *)
Definition init_gui (stored : gmap string string)
    (io : nat -> option io_error) : gui :=
  mkGui (init_system stored (fresh_world None io)) [].

(** What the scraper finds in the theme file. *)
Definition scraped (theme : read_result) : option string :=
  match theme with
  | FileText content => search_wallbash true content
  | FileNotFound | ReadError => None
  end.

(** The line the scraper prints when it returns nothing. *)
Definition miss_line (theme : read_result) : theme_line :=
  match theme with
  | FileText _ => DebugColorNotFound
  | FileNotFound => ErrThemeNotFound
  | ReadError => ErrThemeRead
  end.

(** The three animated modes and the thread object each creates. *)
Definition animated_modes : list (string * thread) :=
  [("Rainbow", new_RainbowThread RAIN_DELAY_MS);
   ("New Year's", new_NewYearsThread (Some 500%Z));
   ("Police", new_PoliceThread (Some 100%Z))].

(** The thread object once [start()] has been called on it. *)
Definition started (t : thread) : thread :=
  mkThread (cls t) (delay_s t) (stop_event t) true (hue t) (colors t)
           (color_index t).

(** ** Predicates of the further properties *)

(** The payload of the latest successful write of a trace, or [c] if it
    has none. *)
Fixpoint last_ok (tr : list event) (c : option string) : option string :=
  match tr with
  | [] => c
  | EvWrite col None :: tr' => last_ok tr' (Some col)
  | _ :: tr' => last_ok tr' c
  end.

(** The last hardware colour, if any, is six hex digits. *)
Definition colour_ok (o : option string) : Prop :=
  match o with
  | Some c => is_hex6 c = true
  | None => True
  end.

(** A zone file that accepts every write. *)
Definition always_writable (w : world) : Prop :=
  forall n : nat, zone_io w n = None.

(** A thread object whose every iteration to come has a six-digit colour
    to write. *)
Definition thread_ok (t : thread) : Prop :=
  forall k : nat,
    exists col : string,
      tick_colour (Nat.iter k advance t) = Some col /\ is_hex6 col = true.



(** The state in which nothing can raise: the last hardware colour and
    the stored static colour are six hex digits where present, and every
    running thread always has a colour to write. *)
Definition sound (s : system) : Prop :=
  colour_ok (current_hardware_color (wld s))
  /\ colour_ok (settings s !! "lastStaticColor")
  /\ forall (h : nat) (t : thread),
       threads s !! h = Some t -> running t = true -> thread_ok t.

(** A computation over the world whose effect on the last hardware
    colour is that of its successful writes. *)
Definition tracks {X} (c : M X) : Prop :=
  forall w : world,
    exists evs : list event,
      trace (snd (c w)) = trace w ++ evs
      /\ current_hardware_color (snd (c w))
         = last_ok evs (current_hardware_color w).

(** The same for a method of the controller. *)
Definition tracks_ctl {X} (c : C X) : Prop :=
  forall s : system,
    exists evs : list event,
      trace (wld (snd (c s))) = trace (wld s) ++ evs
      /\ current_hardware_color (wld (snd (c s)))
         = last_ok evs (current_hardware_color (wld s)).

(** A method that, from a sound state, returns normally to a sound
    state. *)
Definition returns_sound {X} (c : C X) : Prop :=
  forall s : system,
    sound s -> exists (x : X) (s' : system), c s = (Ok x, s') /\ sound s'.

(** * Verification *)

Lemma channel_check_all_true :
  forallb (fun a => forallb (channel_check a) byte_range) byte_range = true.
Proof. vm_compute. reflexivity. Qed.

(** ** Machine integers and floats *)

Lemma to_Z_of_Z_small (z : Z) :
  (0 <= z < 2 ^ 63)%Z -> Uint63.to_Z (Uint63.of_Z z) = z.
Proof.
  intros H. rewrite Uint63.of_Z_spec. apply Z.mod_small.
  change wB with (2 ^ 63)%Z. lia.
Qed.

Lemma Z2F_to_Z (v : int) : Z2F (Uint63.to_Z v) = PrimFloat.of_uint63 v.
Proof.
  unfold Z2F. pose proof (Uint63.to_Z_bounded v) as Hb.
  destruct (Z.ltb_spec (Uint63.to_Z v) 0) as [Hn|_]; [lia|].
  now rewrite Uint63.of_to_Z.
Qed.

Lemma Z2F_to_Z_succ (v : int) :
  (Uint63.to_Z v < 2 ^ 62)%Z ->
  Z2F (Uint63.to_Z v + 1) = PrimFloat.of_uint63 (v + 1)%uint63.
Proof.
  intros Hv. pose proof (Uint63.to_Z_bounded v) as Hb.
  assert (Hs : Uint63.to_Z (v + 1)%uint63 = (Uint63.to_Z v + 1)%Z).
  { rewrite Uint63.add_spec, Uint63.to_Z_1. apply Z.mod_small.
    change wB with (2 ^ 63)%Z. lia. }
  rewrite <- Hs. apply Z2F_to_Z.
Qed.

Lemma channel_step_ok_sound f0 fd lo hi up prev t v :
  (Uint63.to_Z hi < 2 ^ 62)%Z ->
  channel_step_ok f0 fd lo hi up prev t = Some v ->
  py_int (lerp f0 fd t) = Ok (Uint63.to_Z v)
  /\ (Uint63.to_Z lo <= Uint63.to_Z v <= Uint63.to_Z hi)%Z
  /\ (if up then Uint63.to_Z prev <= Uint63.to_Z v
      else Uint63.to_Z v <= Uint63.to_Z prev)%Z
  /\ is_trunc_of (lerp f0 fd t) (Uint63.to_Z v).
Proof.
  intros Hbound.
  unfold channel_step_ok, py_int, trunc_abs, is_trunc_of.
  destruct (PrimFloat.frshiftexp (PrimFloat.abs (lerp f0 fd t))) as [m e].
  match goal with |- (if ?c then _ else _) = _ -> _ => destruct c eqn:Hc end;
    [|discriminate].
  intros [= <-].
  repeat (apply andb_prop in Hc; destruct Hc as [Hc ?]).
  repeat match goal with
         | H : negb _ = true |- _ => apply negb_true_iff in H
         end.
  repeat match goal with
         | H : ?b = false |- context [if ?b then _ else _] => rewrite H
         end.
  assert (Hhi : (Uint63.to_Z
                   (PrimFloat.normfr_mantissa m >> (2154 - e))%uint63
                 <= Uint63.to_Z hi)%Z) by now apply Uint63.leb_spec.
  assert (Hlo : (Uint63.to_Z lo <= Uint63.to_Z
                   (PrimFloat.normfr_mantissa m >> (2154 - e))%uint63)%Z)
    by now apply Uint63.leb_spec.
  split; [reflexivity|]. split; [lia|]. split.
  - destruct up; now apply Uint63.leb_spec.
  - rewrite Z2F_to_Z. split; [assumption|].
    rewrite Z2F_to_Z_succ; [assumption|lia].
Qed.

Lemma last_cons_default {A} (x : A) (l : list A) (d d' : A) :
  List.last (x :: l) d = List.last (x :: l) d'.
Proof.
  revert x. induction l as [|y l IH]; intros x; [reflexivity|].
  change (List.last (y :: l) d = List.last (y :: l) d'). apply IH.
Qed.

Lemma last_map_cons {A B} (f : A -> B) (x : A) (l : list A) (d : A) (d' : B) :
  List.last (map f (x :: l)) d' = f (List.last (x :: l) d).
Proof.
  revert x. induction l as [|y l IH]; intros x; [reflexivity|].
  change (List.last (map f (y :: l)) d' = f (List.last (y :: l) d)). apply IH.
Qed.

(** What a successful walk establishes, on [Z]. *)
Lemma channel_walk_sound f0 fd lo hi up :
  (Uint63.to_Z hi < 2 ^ 62)%Z ->
  forall l prev last,
  channel_walk f0 fd lo hi up prev l = Some last ->
  exists vs : list Z,
    Forall2 (fun t v => py_int (lerp f0 fd t) = Ok v
                        /\ is_trunc_of (lerp f0 fd t) v) l vs
    /\ Forall (fun v => Uint63.to_Z lo <= v <= Uint63.to_Z hi)%Z vs
    /\ chain up (Uint63.to_Z prev) vs
    /\ List.last vs (Uint63.to_Z prev) = Uint63.to_Z last.
Proof.
  intros Hbound. induction l as [|t l IH]; intros prev last Hw; simpl in Hw.
  - injection Hw as <-. exists []. repeat split; constructor.
  - destruct (channel_step_ok f0 fd lo hi up prev t) as [v|] eqn:Hs;
      [|discriminate].
    apply channel_step_ok_sound in Hs as (Hv & Hr & Hm & Ht); [|assumption].
    destruct (IH _ _ Hw) as (vs & Hf & Hin & Hc & Hl).
    exists (Uint63.to_Z v :: vs). repeat split.
    + constructor; [split; assumption|assumption].
    + constructor; assumption.
    + assumption.
    + assumption.
    + destruct vs as [|z vs]; [exact Hl|].
      change (List.last (z :: vs) (Uint63.to_Z prev) = Uint63.to_Z last).
      rewrite <- Hl. apply last_cons_default.
Qed.

(** ** Hex strings *)

Lemma hex_chars_check_true : hex_chars_check = true.
Proof. vm_compute. reflexivity. Qed.

Lemma hex_pair_check_true : hex_pair_check = true.
Proof. vm_compute. reflexivity. Qed.

Lemma byte_check_true : byte_check = true.
Proof. vm_compute. reflexivity. Qed.

Lemma in_all_ascii (c : ascii) : In c all_ascii.
Proof.
  unfold all_ascii. rewrite <- (ascii_nat_embedding c).
  apply in_map, in_seq. pose proof (nat_ascii_bounded c). lia.
Qed.

Lemma in_byte_range (v : Z) : (0 <= v <= 255)%Z -> In v byte_range.
Proof.
  intros H. unfold byte_range. rewrite <- (Z2Nat.id v) by lia.
  apply in_map, in_seq. lia.
Qed.

Lemma is_hex_char_in (c : ascii) : is_hex_char c = true -> In c hex_chars.
Proof.
  intros H. pose proof hex_chars_check_true as Hc.
  unfold hex_chars_check in Hc. rewrite forallb_forall in Hc.
  specialize (Hc c (in_all_ascii c)). rewrite H in Hc.
  change (existsb (Ascii.eqb c) hex_chars = true) in Hc.
  apply existsb_exists in Hc as (x & Hx & He).
  apply Ascii.eqb_eq in He. now subst.
Qed.

(** Two base-16 digits denote a byte, and the byte prints as the two
    digits in lower case. *)
Lemma hex_pair (c1 c2 : ascii) :
  is_hex_char c1 = true -> is_hex_char c2 = true ->
  exists v : Z,
    py_int16 (String c1 (String c2 "")) = Some v
    /\ (0 <= v <= 255)%Z
    /\ fmt02x v = String (lower_char c1) (String (lower_char c2) "").
Proof.
  intros H1 H2. apply is_hex_char_in in H1, H2.
  pose proof hex_pair_check_true as Hc. unfold hex_pair_check in Hc.
  rewrite forallb_forall in Hc. specialize (Hc c1 H1).
  rewrite forallb_forall in Hc. specialize (Hc c2 H2).
  unfold hex_pair_ok in Hc.
  destruct (py_int16 (String c1 (String c2 ""))) as [v|]; [|discriminate].
  apply andb_prop in Hc as [Hc Hs]. apply andb_prop in Hc as [Hlo Hhi].
  exists v. split; [reflexivity|]. split; [lia|].
  now apply String.eqb_eq.
Qed.

(** A byte prints as two lower-case digits that parse back to it. *)
Lemma byte_fmt (v : Z) :
  (0 <= v <= 255)%Z ->
  exists c1 c2 : ascii,
    fmt02x v = String c1 (String c2 "")
    /\ py_int16 (String c1 (String c2 "")) = Some v
    /\ is_lower_hex_char c1 = true /\ is_lower_hex_char c2 = true.
Proof.
  intros H. pose proof byte_check_true as Hc. unfold byte_check in Hc.
  rewrite forallb_forall in Hc. specialize (Hc v (in_byte_range v H)).
  unfold byte_ok in Hc.
  destruct (fmt02x v) as [|c1 [|c2 [|? ?]]]; try discriminate.
  apply andb_prop in Hc as [Hc H2]. apply andb_prop in Hc as [Hp H1].
  exists c1, c2. repeat split; try assumption.
  destruct (py_int16 (String c1 (String c2 ""))) as [x|]; [|discriminate].
  simpl in Hp. apply Z.eqb_eq in Hp. now subst.
Qed.

Lemma is_hex6_inv (s : string) :
  is_hex6 s = true ->
  exists c1 c2 c3 c4 c5 c6 : ascii,
    s = String c1 (String c2 (String c3 (String c4 (String c5
          (String c6 "")))))
    /\ Forall (fun c => is_hex_char c = true) [c1; c2; c3; c4; c5; c6].
Proof.
  unfold is_hex6. intros H. apply andb_prop in H as [Hl Hf].
  destruct s as [|c1 [|c2 [|c3 [|c4 [|c5 [|c6 [|c7 s]]]]]]]; try discriminate.
  exists c1, c2, c3, c4, c5, c6. split; [reflexivity|].
  simpl in Hf.
  repeat (apply andb_prop in Hf as [? Hf]).
  repeat constructor; assumption.
Qed.

(** A six-digit string decodes to three bytes, which print as the string
    in lower case. *)
Lemma hex_to_rgb_hex6 (s : string) :
  is_hex6 s = true ->
  exists r g b : Z,
    hex_to_rgb s = Some (r, g, b)
    /\ is_byte r /\ is_byte g /\ is_byte b
    /\ rgb_to_hex (r, g, b) = lower s.
Proof.
  intros H. apply is_hex6_inv in H as (c1 & c2 & c3 & c4 & c5 & c6 & -> & Hf).
  repeat match goal with
         | H : Forall _ (_ :: _) |- _ => inversion H; clear H; subst
         end.
  destruct (hex_pair c1 c2) as (r & Hr & Br & Fr); try assumption.
  destruct (hex_pair c3 c4) as (g & Hg & Bg & Fg); try assumption.
  destruct (hex_pair c5 c6) as (b & Hb & Bb & Fb); try assumption.
  exists r, g, b. unfold hex_to_rgb, rgb_to_hex.
  cbn [substring]. rewrite Hr, Hg, Hb, Fr, Fg, Fb.
  repeat split; try (apply Br || apply Bg || apply Bb).
Qed.

(** Three bytes print as a six-digit lower-case string that decodes to
    them. *)
Lemma hex_to_rgb_of_bytes (r g b : Z) :
  is_byte r -> is_byte g -> is_byte b ->
  hex_to_rgb (rgb_to_hex (r, g, b)) = Some (r, g, b)
  /\ is_lower_hex6 (rgb_to_hex (r, g, b)) = true.
Proof.
  intros Hr Hg Hb.
  destruct (byte_fmt r Hr) as (a1 & a2 & Fr & Pr & L1 & L2).
  destruct (byte_fmt g Hg) as (a3 & a4 & Fg & Pg & L3 & L4).
  destruct (byte_fmt b Hb) as (a5 & a6 & Fb & Pb & L5 & L6).
  unfold hex_to_rgb, rgb_to_hex, is_lower_hex6. rewrite Fr, Fg, Fb.
  change (String a1 (String a2 "") +:+ String a3 (String a4 "")
          +:+ String a5 (String a6 ""))
    with (String a1 (String a2 (String a3 (String a4 (String a5
            (String a6 "")))))).
  cbn [substring String.length string_forall Nat.eqb].
  rewrite Pr, Pg, Pb, L1, L2, L3, L4, L5, L6. split; reflexivity.
Qed.

Lemma lower_char_fixed (c : ascii) :
  is_lower_hex_char c = true -> lower_char c = c.
Proof.
  unfold is_lower_hex_char. intros H. apply andb_prop in H as [_ H].
  now apply Ascii.eqb_eq.
Qed.

Lemma lower_fixed (s : string) :
  string_forall is_lower_hex_char s = true -> lower s = s.
Proof.
  induction s as [|c s IH]; [reflexivity|]. simpl. intros H.
  apply andb_prop in H as [Hc Hs].
  now rewrite (lower_char_fixed c Hc), IH.
Qed.

Lemma lower_hex6_is_hex6 (s : string) :
  is_lower_hex6 s = true -> is_hex6 s = true.
Proof.
  unfold is_lower_hex6, is_hex6. intros H. apply andb_prop in H as [Hl Hf].
  rewrite Hl. simpl. clear Hl. induction s as [|c s IH]; [reflexivity|].
  simpl in *. apply andb_prop in Hf as [Hc Hs]. rewrite (IH Hs).
  unfold is_lower_hex_char in Hc. apply andb_prop in Hc as [-> _].
  reflexivity.
Qed.

(** C9: on a lower-case six-digit string, [hex_to_rgb] succeeds and
    [rgb_to_hex] of its result is the string again. *)
Theorem rgb_to_hex_hex_to_rgb (s : string) :
  is_lower_hex6 s = true ->
  exists c : rgb, hex_to_rgb s = Some c /\ rgb_to_hex c = s.
Proof.
  intros H.
  destruct (hex_to_rgb_hex6 s (lower_hex6_is_hex6 s H))
    as (r & g & b & Hd & _ & _ & _ & He).
  exists (r, g, b). split; [assumption|].
  rewrite He. apply lower_fixed.
  unfold is_lower_hex6 in H. now apply andb_prop in H as [_ H].
Qed.

Lemma rgb_to_hex_hex_to_rgb_witness :
  is_lower_hex6 "ff7f00" = true
  /\ exists c : rgb, hex_to_rgb "ff7f00" = Some c /\ rgb_to_hex c = "ff7f00".
Proof.
  split; [reflexivity|]. apply (rgb_to_hex_hex_to_rgb "ff7f00"). reflexivity.
Defined.

(** ** One channel of a transition *)

(** A check over all pairs of bytes holds at every pair. *)
Lemma forallb_bytes2 (f : Z -> Z -> bool) :
  forallb (fun a => forallb (f a) byte_range) byte_range = true ->
  forall a b : Z, (0 <= a <= 255)%Z -> (0 <= b <= 255)%Z -> f a b = true.
Proof.
  intros H a b Ha Hb.
  rewrite forallb_forall in H. specialize (H a (in_byte_range a Ha)).
  rewrite forallb_forall in H. exact (H b (in_byte_range b Hb)).
Qed.

Lemma channel_table (a b : Z) :
  is_byte a -> is_byte b ->
  exists vs : list Z,
    Forall2 (fun t v => channel a b t = Ok v
                        /\ is_trunc_of (lerp (Z2F a) (Z2F (b - a)) t) v)
            step_ts vs
    /\ Forall (fun v => Z.min a b <= v <= Z.max a b)%Z vs
    /\ chain (a <=? b)%Z a vs
    /\ List.last vs a = b.
Proof.
  intros Ha Hb. unfold is_byte in *.
  pose proof (forallb_bytes2 channel_check channel_check_all_true a b Ha Hb)
    as Hc.
  unfold channel_check in Hc.
  destruct (channel_walk _ _ _ _ _ _ _) as [v|] eqn:Hw; [|discriminate].
  apply Uint63.eqb_spec in Hc. subst v.
  apply channel_walk_sound in Hw.
  - destruct Hw as (vs & Hf & Hin & Hch & Hl). exists vs.
    rewrite !to_Z_of_Z_small in * by lia.
    repeat split; assumption.
  - rewrite to_Z_of_Z_small; lia.
Qed.

(** ** The steps against exact arithmetic *)

Lemma exact_check_all_true :
  forallb (fun a => forallb (exact_check a) byte_range) byte_range = true.
Proof. vm_compute. reflexivity. Qed.

Lemma to_Z_add_small (x y : int) :
  (Uint63.to_Z x + Uint63.to_Z y < 2 ^ 63)%Z ->
  Uint63.to_Z (x + y)%uint63 = (Uint63.to_Z x + Uint63.to_Z y)%Z.
Proof.
  intros H. pose proof (Uint63.to_Z_bounded x). pose proof (Uint63.to_Z_bounded y).
  rewrite Uint63.add_spec. apply Z.mod_small. change wB with (2 ^ 63)%Z. lia.
Qed.

Lemma to_Z_mul_small (x y : int) :
  (Uint63.to_Z x * Uint63.to_Z y < 2 ^ 63)%Z ->
  Uint63.to_Z (x * y)%uint63 = (Uint63.to_Z x * Uint63.to_Z y)%Z.
Proof.
  intros H. pose proof (Uint63.to_Z_bounded x). pose proof (Uint63.to_Z_bounded y).
  rewrite Uint63.mul_spec. apply Z.mod_small. change wB with (2 ^ 63)%Z. nia.
Qed.

Lemma first_step_ok_sound (a b v : int) :
  (Uint63.to_Z a <= 255)%Z -> (Uint63.to_Z b <= 255)%Z ->
  first_step_ok a b v = true ->
  first_step (Uint63.to_Z a) (Uint63.to_Z b) (Uint63.to_Z v).
Proof.
  intros Ha Hb. unfold first_step_ok, first_step.
  pose proof (Uint63.to_Z_bounded a). pose proof (Uint63.to_Z_bounded b).
  assert (A20 : Uint63.to_Z (a + 20)%uint63 = (Uint63.to_Z a + 20)%Z).
  { rewrite to_Z_add_small; change (Uint63.to_Z 20) with 20%Z; lia. }
  assert (B1 : Uint63.to_Z (b + 1)%uint63 = (Uint63.to_Z b + 1)%Z).
  { rewrite to_Z_add_small; change (Uint63.to_Z 1) with 1%Z; lia. }
  destruct (a + 20 <=? b)%uint63 eqn:E1.
  { apply Uint63.leb_spec in E1. rewrite A20 in E1. intros H1.
    apply andb_prop in H1 as [H1 H2].
    apply Uint63.ltb_spec in H1, H2. lia. }
  assert (N1 : ~ (Uint63.to_Z a + 20 <= Uint63.to_Z b)%Z).
  { intros H1. rewrite <- A20 in H1. apply Uint63.leb_spec in H1. congruence. }
  destruct (a <=? b)%uint63 eqn:E2.
  { apply Uint63.leb_spec in E2. intros H1. apply Uint63.eqb_spec in H1.
    subst v. lia. }
  assert (N2 : ~ (Uint63.to_Z a <= Uint63.to_Z b)%Z).
  { intros H1. apply Uint63.leb_spec in H1. congruence. }
  destruct (b + 1 =? a)%uint63 eqn:E3.
  { apply Uint63.eqb_spec in E3. intros H1. apply Uint63.eqb_spec in H1.
    subst v. rewrite <- E3, B1. lia. }
  assert (N3 : (Uint63.to_Z b + 1)%Z <> Uint63.to_Z a).
  { intros H1. rewrite <- B1 in H1. apply Uint63.to_Z_inj in H1.
    rewrite H1, Uint63.eqb_refl in E3. discriminate. }
  intros H1. apply andb_prop in H1 as [H1 H2].
  apply Uint63.ltb_spec in H1, H2. lia.
Qed.

Lemma exact_step_ok_sound (a b i : Z) (t : float) :
  (0 <= a <= 255)%Z -> (0 <= b <= 255)%Z -> (1 <= i <= 20)%Z ->
  exact_step_ok (Uint63.of_Z a) (Uint63.of_Z b) (Z2F a) (Z2F (b - a))
                (Uint63.of_Z i, t) = true ->
  exists v : Z,
    py_int (lerp (Z2F a) (Z2F (b - a)) t) = Ok v
    /\ step_exact a b i v
    /\ (i = 1%Z -> first_step a b v).
Proof.
  intros Ha Hb Hi. unfold exact_step_ok.
  destruct (channel_step_ok (Z2F a) (Z2F (b - a)) 0 255 true 0 t) as [v|] eqn:Hs;
    [|discriminate].
  apply channel_step_ok_sound in Hs as (Hv & Hr & _ & _);
    [|change (Uint63.to_Z 255) with 255%Z; lia].
  change (Uint63.to_Z 0) with 0%Z in Hr. change (Uint63.to_Z 255) with 255%Z in Hr.
  intros Hc. apply andb_prop in Hc as [Hc H3]. apply andb_prop in Hc as [H1 H2].
  pose proof (to_Z_of_Z_small a ltac:(lia)) as Ea.
  pose proof (to_Z_of_Z_small b ltac:(lia)) as Eb.
  pose proof (to_Z_of_Z_small i ltac:(lia)) as Ei.
  assert (T20 : Uint63.to_Z 20 = 20%Z) by reflexivity.
  assert (Bai : (0 <= a * i <= 5100)%Z) by nia.
  assert (Bbi : (0 <= b * i <= 5100)%Z) by nia.
  assert (M1 : Uint63.to_Z (20 * v)%uint63 = (20 * Uint63.to_Z v)%Z)
    by (rewrite to_Z_mul_small; rewrite T20; lia).
  assert (M2 : Uint63.to_Z (Uint63.of_Z a * Uint63.of_Z i)%uint63 = (a * i)%Z)
    by (rewrite to_Z_mul_small; rewrite Ea, Ei; lia).
  assert (M3 : Uint63.to_Z (Uint63.of_Z b * Uint63.of_Z i)%uint63 = (b * i)%Z)
    by (rewrite to_Z_mul_small; rewrite Eb, Ei; lia).
  assert (M4 : Uint63.to_Z (20 * Uint63.of_Z a)%uint63 = (20 * a)%Z)
    by (rewrite to_Z_mul_small; rewrite T20, Ea; lia).
  assert (L : Uint63.to_Z (20 * v + Uint63.of_Z a * Uint63.of_Z i)%uint63
              = (20 * Uint63.to_Z v + a * i)%Z)
    by (rewrite to_Z_add_small; rewrite M1, M2; lia).
  assert (R : Uint63.to_Z (Uint63.of_Z b * Uint63.of_Z i + 20 * Uint63.of_Z a)%uint63
              = (b * i + 20 * a)%Z)
    by (rewrite to_Z_add_small; rewrite M3, M4; lia).
  assert (L20 : Uint63.to_Z (20 * v + Uint63.of_Z a * Uint63.of_Z i + 20)%uint63
                = (20 * Uint63.to_Z v + a * i + 20)%Z)
    by (rewrite to_Z_add_small; rewrite L, ?T20; lia).
  apply Uint63.leb_spec in H1, H2. rewrite L, R in H1. rewrite R, L20 in H2.
  exists (Uint63.to_Z v). split; [exact Hv|]. split; [unfold step_exact; lia|].
  intros ->. change (Uint63.of_Z 1 =? 1)%uint63 with true in H3.
  cbn [negb orb] in H3.
  assert (HA : (Uint63.to_Z (Uint63.of_Z a) <= 255)%Z) by (rewrite Ea; lia).
  assert (HB : (Uint63.to_Z (Uint63.of_Z b) <= 255)%Z) by (rewrite Eb; lia).
  pose proof (first_step_ok_sound _ _ v HA HB H3) as F.
  now rewrite Ea, Eb in F.
Qed.

Lemma in_step_its (i : Z) :
  (1 <= i <= 20)%Z -> In (Uint63.of_Z i, step_t i) step_its.
Proof.
  intros Hi. unfold step_its.
  apply (in_map (fun i => (Uint63.of_Z i, step_t i))).
  unfold py_range.
  assert (E : i = (fun k => (1 + Z.of_nat k)%Z) (Z.to_nat (i - 1)))
    by (cbv beta; lia).
  rewrite E. apply (in_map (fun k => (1 + Z.of_nat k)%Z)), in_seq.
  change (Z.to_nat (steps + 1 - 1)) with 20%nat. lia.
Qed.

(** The value of a channel at a step, against exact arithmetic. *)
Lemma channel_exact (a b i v : Z) :
  is_byte a -> is_byte b -> (1 <= i <= 20)%Z ->
  channel a b (step_t i) = Ok v ->
  step_exact a b i v /\ (i = 1%Z -> first_step a b v).
Proof.
  intros Ha Hb Hi Hv. unfold is_byte in *.
  pose proof (forallb_bytes2 exact_check exact_check_all_true a b Ha Hb) as Hc.
  unfold exact_check in Hc. rewrite forallb_forall in Hc.
  specialize (Hc _ (in_step_its i Hi)).
  destruct (exact_step_ok_sound a b i (step_t i) Ha Hb Hi Hc)
    as (v' & Hv' & He & Hf).
  unfold channel in Hv. rewrite Hv' in Hv. injection Hv as <-. auto.
Qed.

(** ** The interpolation loop *)

Lemma actions_app (t1 t2 : list event) :
  actions (t1 ++ t2) = actions t1 ++ actions t2.
Proof. apply flat_map_app. Qed.

Lemma writes_app (t1 t2 : list event) :
  writes (t1 ++ t2) = writes t1 ++ writes t2.
Proof. unfold writes. rewrite actions_app. apply flat_map_app. Qed.

(** [write_color] always returns; it appends one write, and a stderr
    line when the write failed. *)
Lemma write_color_run (col : string) (w : world) :
  exists evs : list event,
    write_color col w
    = (Ok tt, mkWorld (match zone_io w (io_count w) with
                       | None => Some col
                       | Some _ => current_hardware_color w
                       end)
                      (zone_io w) (S (io_count w)) (trace w ++ evs))
    /\ actions evs = [AWrite col] /\ writes evs = [col].
Proof.
  unfold write_color. destruct (zone_io w (io_count w)) as [e|].
  - eexists. split; [reflexivity|]. split; reflexivity.
  - eexists. split; [reflexivity|]. split; reflexivity.
Qed.

Lemma set_color_step_run (c0 c1 : rgb) (delay : float) (i : Z) (c : rgb)
    (w : world) :
  PrimFloat.ltb delay 0 = false ->
  step_colour c0 c1 i c ->
  exists (w' : world) (evs : list event),
    set_color_step c0 c1 delay i w = (Ok tt, w')
    /\ trace w' = trace w ++ evs
    /\ actions evs = [AWrite (rgb_to_hex c); ASleep delay]
    /\ zone_io w' = zone_io w
    /\ io_count w' = S (io_count w).
Proof.
  intros Hd (Hr & Hg & Hb).
  destruct c0 as [[r0 g0] b0], c1 as [[r1 g1] b1], c as [[r g] b].
  unfold red, green, blue in *. simpl in Hr, Hg, Hb.
  destruct (write_color_run (rgb_to_hex (r, g, b)) w) as (evs & Hw & Ha & _).
  unfold set_color_step, bind, lift. rewrite Hr, Hg, Hb, Hw.
  unfold sleep. rewrite Hd. unfold emit. cbn [trace current_hardware_color
    zone_io io_count].
  eexists. exists (evs ++ [EvSleep delay]).
  split; [reflexivity|]. cbn [trace zone_io io_count].
  split; [now rewrite app_assoc|].
  split; [|split; reflexivity].
  rewrite actions_app, Ha. reflexivity.
Qed.

Lemma for_each_steps (c0 c1 : rgb) (delay : float) :
  PrimFloat.ltb delay 0 = false ->
  forall (l : list Z) (cs : list rgb),
  Forall2 (step_colour c0 c1) l cs ->
  forall w : world,
  exists (w' : world) (evs : list event),
    for_each l (set_color_step c0 c1 delay) w = (Ok tt, w')
    /\ trace w' = trace w ++ evs
    /\ actions evs
       = flat_map (fun c => [AWrite (rgb_to_hex c); ASleep delay]) cs
    /\ zone_io w' = zone_io w
    /\ io_count w' = (io_count w + List.length cs)%nat.
Proof.
  intros Hd l cs HF. induction HF as [|i c l cs Hc HF IH]; intros w.
  - exists w, []. simpl. unfold ret. rewrite app_nil_r.
    repeat split; try reflexivity. lia.
  - destruct (set_color_step_run c0 c1 delay i c w Hd Hc)
      as (w1 & e1 & H1 & T1 & A1 & Z1 & N1).
    destruct (IH w1) as (w2 & e2 & H2 & T2 & A2 & Z2 & N2).
    exists w2, (e1 ++ e2). cbn [for_each]. unfold bind at 1. rewrite H1.
    split; [exact H2|]. split; [now rewrite T2, T1, app_assoc|].
    split; [rewrite actions_app, A1, A2; reflexivity|].
    split; [congruence|]. rewrite N2, N1. simpl. lia.
Qed.

(** ** The step delay is never negative *)

Lemma binary_round_aux_nonneg (mx ex : Z) (lx : location) :
  sf_nonneg (binary_round_aux prec emax false mx ex lx).
Proof.
  unfold binary_round_aux.
  destruct (shr_fexp prec emax mx ex lx) as [mrs' e'].
  destruct (shr_fexp prec emax _ e' loc_Exact) as [mrs'' e''].
  destruct (shr_m mrs''); simpl; try reflexivity.
  destruct (e'' <=? emax - prec)%Z; reflexivity.
Qed.

Lemma SFdiv_nonneg (x y : spec_float) :
  sf_nonneg x -> sf_nonneg y -> sf_nonneg (SFdiv prec emax x y).
Proof.
  destruct x as [sx|sx| |sx mx ex], y as [sy|sy| |sy my ey]; simpl;
    intros Hx Hy; subst; try reflexivity.
  destruct (SFdiv_core_binary prec emax (Z.pos mx) ex (Z.pos my) ey)
    as [[mz ez] lz].
  apply binary_round_aux_nonneg.
Qed.

Lemma of_uint63_nonneg (n : int) : sf_nonneg (Prim2SF (PrimFloat.of_uint63 n)).
Proof.
  rewrite FloatAxioms.of_uint63_spec. pose proof (Uint63.to_Z_bounded n) as Hb.
  unfold binary_normalize. destruct (Uint63.to_Z n) as [|p|p]; [reflexivity| |lia].
  unfold binary_round.
  destruct (shl_align _ _ _) as [mz ez]. apply binary_round_aux_nonneg.
Qed.

Lemma Z2F_nonneg (z : Z) : (0 <= z)%Z -> sf_nonneg (Prim2SF (Z2F z)).
Proof.
  intros H. unfold Z2F. destruct (Z.ltb_spec z 0); [lia|].
  apply of_uint63_nonneg.
Qed.

Lemma sf_nonneg_not_lt_0 (x : float) :
  sf_nonneg (Prim2SF x) -> PrimFloat.ltb x 0 = false.
Proof.
  rewrite FloatAxioms.ltb_spec. change (Prim2SF 0) with (S754_zero false).
  destruct (Prim2SF x) as [s|s| |s m e]; simpl; intros H; subst; reflexivity.
Qed.

Lemma step_delay_nonneg (d : Z) :
  (0 <= d)%Z -> PrimFloat.ltb (step_delay d) 0 = false.
Proof.
  intros H. apply sf_nonneg_not_lt_0. unfold step_delay.
  rewrite !FloatAxioms.div_spec. apply SFdiv_nonneg; [apply SFdiv_nonneg|].
  - now apply Z2F_nonneg.
  - apply Z2F_nonneg. unfold steps. lia.
  - vm_compute. reflexivity.
Qed.

(** ** The colours of a transition *)

Lemma Forall2_map_l {A B C} (f : A -> B) (P : B -> C -> Prop)
    (l : list A) (k : list C) :
  Forall2 P (map f l) k -> Forall2 (fun x y => P (f x) y) l k.
Proof.
  revert k. induction l as [|x l IH]; intros k H; inversion H; subst;
    constructor; auto.
Qed.

Lemma zip3_Forall2 {A} (P Q R : A -> Z -> Prop) (l : list A) :
  forall rs gs bs : list Z,
  Forall2 P l rs -> Forall2 Q l gs -> Forall2 R l bs ->
  Forall2 (fun x c => P x (red c) /\ Q x (green c) /\ R x (blue c))
          l (zip3 rs gs bs)
  /\ map red (zip3 rs gs bs) = rs
  /\ map green (zip3 rs gs bs) = gs
  /\ map blue (zip3 rs gs bs) = bs.
Proof.
  induction l as [|x l IH]; intros rs gs bs Hr Hg Hb;
    inversion Hr; inversion Hg; inversion Hb; subst.
  - simpl. repeat split; constructor.
  - match goal with
    | H1 : Forall2 P l ?r, H2 : Forall2 Q l ?g, H3 : Forall2 R l ?b |- _ =>
        destruct (IH r g b H1 H2 H3) as (HF & Mr & Mg & Mb)
    end.
    cbn [zip3 map]. rewrite Mr, Mg, Mb.
    repeat split; try reflexivity.
    constructor; [repeat split; assumption | exact HF].
Qed.

Lemma zip3_last (rs gs bs : list Z) (c0 : rgb) :
  List.length rs = List.length gs -> List.length gs = List.length bs ->
  List.last (zip3 rs gs bs) c0
  = (List.last rs (red c0), List.last gs (green c0),
     List.last bs (blue c0)).
Proof.
  revert gs bs. induction rs as [|r rs IH]; intros [|g gs] [|b bs] H1 H2;
    try discriminate.
  - now destruct c0 as [[? ?] ?].
  - injection H1 as H1. injection H2 as H2. specialize (IH gs bs H1 H2).
    destruct rs as [|r' rs], gs as [|g' gs], bs as [|b' bs];
      try discriminate; [reflexivity|].
    exact IH.
Qed.

Lemma transition_colours (c0 c1 : rgb) :
  rgb_bytes c0 -> rgb_bytes c1 ->
  exists cs : list rgb,
    List.length cs = 20%nat
    /\ Forall2 (step_colour c0 c1) (py_range 1 (steps + 1)) cs
    /\ Forall2 (step_truncates c0 c1) (py_range 1 (steps + 1)) cs
    /\ Forall (rgb_between c0 c1) cs
    /\ monotone_from c0 c1 cs
    /\ List.last cs c0 = c1.
Proof.
  destruct c0 as [[r0 g0] b0], c1 as [[r1 g1] b1].
  unfold rgb_bytes, red, green, blue. cbn [fst snd].
  intros (Hr0 & Hg0 & Hb0) (Hr1 & Hg1 & Hb1).
  destruct (channel_table r0 r1 Hr0 Hr1) as (rs & Fr & Br & Cr & Lr).
  destruct (channel_table g0 g1 Hg0 Hg1) as (gs & Fg & Bg & Cg & Lg).
  destruct (channel_table b0 b1 Hb0 Hb1) as (bs & Fb & Bb & Cb & Lb).
  pose proof (Forall2_length _ _ _ Fr) as Nr.
  pose proof (Forall2_length _ _ _ Fg) as Ng.
  pose proof (Forall2_length _ _ _ Fb) as Nb.
  apply Forall2_map_l in Fr, Fg, Fb.
  destruct (zip3_Forall2 _ _ _ _ rs gs bs Fr Fg Fb) as (HF & Mr & Mg & Mb).
  exists (zip3 rs gs bs).
  assert (Hlen : List.length (zip3 rs gs bs) = 20%nat).
  { rewrite <- (length_map red), Mr, <- Nr. reflexivity. }
  split; [exact Hlen|]. split; [|split; [|split; [|split]]].
  - eapply Forall2_impl; [exact HF|]. cbv beta.
    intros i c ((H1 & _) & (H2 & _) & (H3 & _)).
    unfold step_colour, red, green, blue in *. cbn [fst snd]. auto.
  - eapply Forall2_impl; [exact HF|]. cbv beta.
    intros i c ((_ & H1) & (_ & H2) & (_ & H3)).
    unfold step_truncates, red, green, blue in *. cbn [fst snd]. auto.
  - apply List.Forall_forall. intros c Hin. unfold rgb_between, between.
    cbn [fst snd]. rewrite List.Forall_forall in Br, Bg, Bb.
    repeat split.
    1,2: apply Br; rewrite <- Mr; now apply in_map.
    1,2: apply Bg; rewrite <- Mg; now apply in_map.
    1,2: apply Bb; rewrite <- Mb; now apply in_map.
  - unfold monotone_from. rewrite Mr, Mg, Mb. auto.
  - rewrite zip3_last by congruence.
    unfold red, green, blue. cbn [fst snd]. now rewrite Lr, Lg, Lb.
Qed.

(** ** The first step and the exact values *)

Lemma py_range_steps : py_range 1 (steps + 1) = map Z.of_nat (seq 1 20).
Proof. reflexivity. Qed.

Lemma step_colour_exact (c0 c1 : rgb) (i : Z) (c : rgb) :
  rgb_bytes c0 -> rgb_bytes c1 -> (1 <= i <= 20)%Z ->
  step_colour c0 c1 i c ->
  step_exact_rgb c0 c1 i c /\ (i = 1%Z -> first_step_rgb c0 c1 c).
Proof.
  intros (A1 & A2 & A3) (B1 & B2 & B3) Hi (Hr & Hg & Hb).
  destruct (channel_exact _ _ i _ A1 B1 Hi Hr) as [Er Fr].
  destruct (channel_exact _ _ i _ A2 B2 Hi Hg) as [Eg Fg].
  destruct (channel_exact _ _ i _ A3 B3 Hi Hb) as [Eb Fb].
  split; [exact (conj Er (conj Eg Eb))|].
  intros E. exact (conj (Fr E) (conj (Fg E) (Fb E))).
Qed.

(** The first colour of a transition. *)
Lemma transition_first (c0 c1 : rgb) (cs : list rgb) :
  rgb_bytes c0 -> rgb_bytes c1 ->
  Forall2 (step_colour c0 c1) (py_range 1 (steps + 1)) cs ->
  exists c : rgb, List.hd_error cs = Some c /\ first_step_rgb c0 c1 c.
Proof.
  intros B0 B1 Hs. rewrite py_range_steps in Hs. cbn [seq map] in Hs.
  inversion Hs as [|i c l cs' Hc _]; subst.
  exists c. split; [reflexivity|].
  apply (step_colour_exact c0 c1 1 c B0 B1); [lia|exact Hc|reflexivity].
Qed.

(** The first colour is the start colour exactly on a small rise, the
    target exactly on a small fall, and strictly between the two
    otherwise. *)
Lemma first_step_ends (c0 c1 c : rgb) :
  first_step_rgb c0 c1 c ->
  (c = c0 <-> small_rise c0 c1) /\ (c = c1 <-> small_fall c0 c1).
Proof.
  destruct c0 as [[r0 g0] b0], c1 as [[r1 g1] b1], c as [[r g] b].
  unfold first_step_rgb, first_step, small_rise, small_fall, red, green, blue.
  cbn [fst snd]. intros (Hr & Hg & Hb). split; split.
  - intros [= -> -> ->]. lia.
  - intros H. f_equal; [f_equal|]; lia.
  - intros [= -> -> ->]. lia.
  - intros H. f_equal; [f_equal|]; lia.
Qed.

Lemma first_step_strictly_between (c0 c1 c : rgb) :
  rgb_between c0 c1 c -> first_step_rgb c0 c1 c ->
  (rgb_strictly_between c0 c1 c
   <-> ~ small_rise c0 c1 /\ ~ small_fall c0 c1).
Proof.
  intros Hb Hf. destruct (first_step_ends c0 c1 c Hf) as [E0 E1].
  unfold rgb_strictly_between. tauto.
Qed.

Lemma Forall2_impl_in {A B} (P Q : A -> B -> Prop) (l : list A) (k : list B) :
  (forall x y, In x l -> P x y -> Q x y) -> Forall2 P l k -> Forall2 Q l k.
Proof.
  intros H HF. induction HF as [|x y l k HP HF IH]; constructor.
  - apply H; [now left|exact HP].
  - apply IH. intros x' y' Hin. apply H. now right.
Qed.

(** Every colour of a transition against exact arithmetic. *)
Lemma transition_exact (c0 c1 : rgb) (cs : list rgb) :
  rgb_bytes c0 -> rgb_bytes c1 ->
  Forall2 (step_colour c0 c1) (py_range 1 (steps + 1)) cs ->
  Forall2 (step_exact_rgb c0 c1) (map Z.of_nat (seq 1 20)) cs.
Proof.
  intros B0 B1 Hs. rewrite py_range_steps in Hs.
  eapply Forall2_impl_in; [|exact Hs]. cbv beta.
  intros i c Hin Hc. apply in_map_iff in Hin as (k & <- & Hk).
  apply in_seq in Hk.
  apply (step_colour_exact c0 c1 (Z.of_nat k) c B0 B1); [lia|exact Hc].
Qed.

(** ** [set_color] *)

Lemma emitted_of_trace {A} (c : M A) (w : world) (evs : list event) :
  trace (snd (c w)) = trace w ++ evs -> emitted c w = evs.
Proof.
  unfold emitted. intros ->. generalize (trace w) as tr.
  induction tr as [|e tr IH]; [reflexivity|exact IH].
Qed.

Lemma writes_of_steps (delay : float) (cs : list rgb) :
  flat_map written
    (flat_map (fun c => [AWrite (rgb_to_hex c); ASleep delay]) cs)
  = map rgb_to_hex cs.
Proof. induction cs as [|c cs IH]; [reflexivity|]. simpl. now rewrite IH. Qed.

Lemma is_hex6_nonempty (s : string) :
  is_hex6 s = true -> truthy_str (Some s) = true.
Proof. destruct s; [discriminate|reflexivity]. Qed.

(** The interpolating branch: from a decoded start colour to a decoded
    target, [set_color] returns normally after playing the transition's
    colours, each followed by one sleep of the step delay. *)
Lemma set_color_interpolates (a b : string) (d : Z) (w : world) :
  current_hardware_color w = Some a ->
  is_hex6 a = true -> is_hex6 b = true ->
  lower a <> lower b ->
  (0 < d)%Z ->
  exists (c0 c1 : rgb) (cs : list rgb),
    hex_to_rgb a = Some c0 /\ hex_to_rgb b = Some c1
    /\ rgb_bytes c0 /\ rgb_bytes c1
    /\ rgb_to_hex c1 = lower b
    /\ fst (set_color b (Some d) w) = Ok tt
    /\ actions (emitted (set_color b (Some d)) w)
       = flat_map (fun c => [AWrite (rgb_to_hex c); ASleep (step_delay d)]) cs
    /\ List.length cs = 20%nat
    /\ Forall2 (step_colour c0 c1) (py_range 1 (steps + 1)) cs
    /\ Forall2 (step_truncates c0 c1) (py_range 1 (steps + 1)) cs
    /\ Forall (rgb_between c0 c1) cs
    /\ monotone_from c0 c1 cs
    /\ List.last cs c0 = c1.
Proof.
  intros Hcur Ha Hb Hne Hd.
  destruct (hex_to_rgb_hex6 a Ha) as (r0 & g0 & b0 & Da & Br0 & Bg0 & Bb0 & _).
  destruct (hex_to_rgb_hex6 b Hb) as (r1 & g1 & b1 & Db & Br1 & Bg1 & Bb1 & Eb).
  assert (B0 : rgb_bytes (r0, g0, b0)) by exact (conj Br0 (conj Bg0 Bb0)).
  assert (B1 : rgb_bytes (r1, g1, b1)) by exact (conj Br1 (conj Bg1 Bb1)).
  destruct (transition_colours _ _ B0 B1) as (cs & Hlen & Hs & Ht & Hbt & Hm & Hl).
  assert (Hdelay : PrimFloat.ltb (step_delay d) 0 = false)
    by (apply step_delay_nonneg; lia).
  destruct (for_each_steps _ _ _ Hdelay _ _ Hs w)
    as (w' & evs & Hrun & Htr & Hact & _ & _).
  assert (Hset : set_color b (Some d) w = (Ok tt, w')).
  { unfold set_color. rewrite Hcur. cbv [default from_option id truthy_int].
    rewrite (is_hex6_nonempty a Ha).
    destruct (Z.eqb_spec d 0) as [->|_]; [lia|].
    destruct (String.eqb_spec (lower a) (lower b)) as [E|_]; [contradiction|].
    cbn [negb andb]. unfold bind, lift_opt. rewrite Da, Db. exact Hrun. }
  exists (r0, g0, b0), (r1, g1, b1), cs.
  repeat (split; [assumption|]).
  split; [now rewrite Hset|].
  split; [|repeat (split; [assumption|]); assumption].
  rewrite (emitted_of_trace _ w evs); [exact Hact|].
  now rewrite Hset.
Qed.

Lemma write_color_emits (col : string) (w : world) :
  fst (write_color col w) = Ok tt
  /\ actions (emitted (write_color col) w) = [AWrite col]
  /\ writes (emitted (write_color col) w) = [col].
Proof.
  destruct (write_color_run col w) as (evs & Hw & Ha & Hwr).
  rewrite (emitted_of_trace _ w evs) by now rewrite Hw.
  rewrite Hw. auto.
Qed.

Lemma Forall2_Forall_r {A B} (P : A -> B -> Prop) (Q : B -> Prop)
    (l : list A) (k : list B) :
  Forall2 P l k -> Forall Q k -> Forall2 (fun x y => P x y /\ Q y) l k.
Proof.
  induction 1 as [|x y l k HP HF IH]; intros HQ; [constructor|].
  inversion HQ; subst. constructor; auto.
Qed.

Lemma between_bytes (a b v : Z) :
  is_byte a -> is_byte b -> between a b v -> is_byte v.
Proof. unfold is_byte, between. lia. Qed.

Lemma rgb_between_bytes (c0 c1 c : rgb) :
  rgb_bytes c0 -> rgb_bytes c1 -> rgb_between c0 c1 c -> rgb_bytes c.
Proof.
  intros (A1 & A2 & A3) (B1 & B2 & B3) (C1 & C2 & C3).
  split; [|split].
  - exact (between_bytes _ _ _ A1 B1 C1).
  - exact (between_bytes _ _ _ A2 B2 C2).
  - exact (between_bytes _ _ _ A3 B3 C3).
Qed.

(** C6: [write_color] returns normally; the last hardware colour becomes
    the written colour exactly when the write to the zone file succeeds,
    and is left as it was on a permission error, a missing device node or
    any other I/O error. *)
Theorem write_color_last_colour (col : string) (w : world) :
  fst (write_color col w) = Ok tt
  /\ current_hardware_color (snd (write_color col w))
     = match zone_io w (io_count w) with
       | None => Some col
       | Some PermissionDenied
       | Some NoSuchDevice
       | Some OtherIoError => current_hardware_color w
       end.
Proof.
  unfold write_color.
  destruct (zone_io w (io_count w)) as [[| |]|]; split; reflexivity.
Qed.

(** The guard of [set_color] fails, and the [else] branch runs, in each
    of these cases. *)
Lemma set_color_else_branch (col : string) (duration_ms : option Z)
    (w : world) :
  duration_ms = None \/ duration_ms = Some 0%Z
  \/ current_hardware_color w = None
  \/ (exists cur, current_hardware_color w = Some cur
                  /\ lower cur = lower col) ->
  set_color col duration_ms w = write_color col w.
Proof.
  intros H. unfold set_color.
  destruct H as [-> | [-> | [-> | (cur & -> & Hl)]]]; try reflexivity.
  - cbn [truthy_str]. now rewrite andb_false_r.
  - cbv [default from_option id]. rewrite Hl, String.eqb_refl.
    now rewrite !andb_false_r.
Qed.

(** C2: [set_color] is a single direct [write_color] of the target, with
    no interpolation, whenever the duration is unset or zero, or no
    colour has been written yet, or the last hardware colour equals the
    target up to letter case; exactly one colour, the target as given,
    reaches the zone file. *)
Theorem set_color_direct (col : string) (duration_ms : option Z) (w : world) :
  duration_ms = None \/ duration_ms = Some 0%Z
  \/ current_hardware_color w = None
  \/ (exists cur, current_hardware_color w = Some cur
                  /\ lower cur = lower col) ->
  set_color col duration_ms w = write_color col w
  /\ fst (set_color col duration_ms w) = Ok tt
  /\ actions (emitted (set_color col duration_ms) w) = [AWrite col]
  /\ writes (emitted (set_color col duration_ms) w) = [col].
Proof.
  intros H. pose proof (set_color_else_branch col duration_ms w H) as E.
  destruct (write_color_emits col w) as (H1 & H2 & H3).
  unfold emitted in *. rewrite E. auto.
Qed.

Lemma set_color_direct_witness :
  set_color "ff7f00" (Some 100%Z) (fresh_world (Some "FF7F00") io_ok)
  = write_color "ff7f00" (fresh_world (Some "FF7F00") io_ok)
  /\ fst (set_color "ff7f00" (Some 100%Z) (fresh_world (Some "FF7F00") io_ok))
     = Ok tt
  /\ actions (emitted (set_color "ff7f00" (Some 100%Z))
                      (fresh_world (Some "FF7F00") io_ok))
     = [AWrite "ff7f00"]
  /\ writes (emitted (set_color "ff7f00" (Some 100%Z))
                     (fresh_world (Some "FF7F00") io_ok))
     = ["ff7f00"].
Proof.
  apply (set_color_direct "ff7f00" (Some 100%Z)
           (fresh_world (Some "FF7F00") io_ok)).
  right. right. right. exists "FF7F00". split; reflexivity.
Defined.

(** C1 (amended): from a last hardware colour [a] to a different target
    [b] (six hex digits each, compared without letter case) and with a
    duration [0 < d < 2^32] milliseconds, [set_color] returns normally
    after exactly 20 writes.  Every written colour is a valid colour
    lying between [a] and [b] channel by channel, ends included.  In the
    first one a channel lies strictly between its two ends when [b] is
    at least 20 above or at least 2 below [a] there; it is still [a]'s
    when [b] is less than 20 above, and already [b]'s when [b] is 1
    below.  So the first colour is strictly between [a] and [b], except
    that it is [a] when every channel rises by less than 20 and [b] when
    every channel falls by at most 1.  The last one is [b] in lower
    case; and along the writes no
    channel moves away from its target: it never decreases if [b]'s
    channel is at least [a]'s, and never increases otherwise. *)
Theorem set_color_transition (a b : string) (d : Z) (w : world) :
  current_hardware_color w = Some a ->
  is_hex6 a = true -> is_hex6 b = true ->
  lower a <> lower b ->
  (0 < d < 2 ^ 32)%Z ->
  exists (c0 c1 : rgb) (cs : list rgb),
    hex_to_rgb a = Some c0 /\ hex_to_rgb b = Some c1
    /\ fst (set_color b (Some d) w) = Ok tt
    /\ writes (emitted (set_color b (Some d)) w) = map rgb_to_hex cs
    /\ List.length (writes (emitted (set_color b (Some d)) w)) = 20%nat
    /\ Forall (fun c => hex_to_rgb (rgb_to_hex c) = Some c
                        /\ rgb_between c0 c1 c) cs
    /\ (exists c : rgb,
          List.hd_error cs = Some c
          /\ first_step_rgb c0 c1 c
          /\ (c = c0 <-> small_rise c0 c1)
          /\ (c = c1 <-> small_fall c0 c1)
          /\ (rgb_strictly_between c0 c1 c
              <-> ~ small_rise c0 c1 /\ ~ small_fall c0 c1))
    /\ List.last cs c0 = c1
    /\ List.last (writes (emitted (set_color b (Some d)) w)) "" = lower b
    /\ monotone_from c0 c1 cs.
Proof.
  intros Hcur Ha Hb Hne [Hd _].
  destruct (set_color_interpolates a b d w Hcur Ha Hb Hne Hd)
    as (c0 & c1 & cs & Da & Db & B0 & B1 & Eb & Hok & Hact & Hlen & Hs & _
        & Hbt & Hm & Hl).
  assert (Hw : writes (emitted (set_color b (Some d)) w) = map rgb_to_hex cs).
  { unfold writes. rewrite Hact. apply writes_of_steps. }
  exists c0, c1, cs. rewrite Hw, length_map.
  split; [exact Da|]. split; [exact Db|]. split; [exact Hok|].
  split; [reflexivity|]. split; [exact Hlen|].
  split; [|split; [|split; [exact Hl|split; [|exact Hm]]]].
  - apply List.Forall_forall. intros c Hin.
    rewrite List.Forall_forall in Hbt. specialize (Hbt c Hin).
    split; [|assumption].
    destruct (rgb_between_bytes _ _ _ B0 B1 Hbt) as (R & G & B).
    destruct c as [[r g] bl]. now apply hex_to_rgb_of_bytes.
  - destruct (transition_first c0 c1 cs B0 B1 Hs) as (c & Hhd & Hf).
    exists c. split; [exact Hhd|]. split; [exact Hf|].
    destruct (first_step_ends c0 c1 c Hf) as [E0 E1].
    split; [exact E0|]. split; [exact E1|].
    apply first_step_strictly_between; [|exact Hf].
    rewrite List.Forall_forall in Hbt. apply Hbt.
    destruct cs as [|c' cs]; [discriminate|].
    injection Hhd as ->. now left.
  - destruct cs as [|c cs]; [discriminate|].
    rewrite <- Eb, <- Hl.
    apply last_map_cons.
Qed.

Lemma set_color_transition_witness :
  current_hardware_color (fresh_world (Some "000000") io_ok) = Some "000000"
  /\ is_hex6 "000000" = true /\ is_hex6 "5A0001" = true
  /\ lower "000000" <> lower "5A0001"
  /\ (0 < 100 < 2 ^ 32)%Z
  /\ exists (c0 c1 : rgb) (cs : list rgb),
       hex_to_rgb "000000" = Some c0 /\ hex_to_rgb "5A0001" = Some c1
       /\ fst (set_color "5A0001" (Some 100%Z)
                 (fresh_world (Some "000000") io_ok)) = Ok tt
       /\ writes (emitted (set_color "5A0001" (Some 100%Z))
                    (fresh_world (Some "000000") io_ok))
          = map rgb_to_hex cs
       /\ List.length (writes (emitted (set_color "5A0001" (Some 100%Z))
                                 (fresh_world (Some "000000") io_ok)))
          = 20%nat
       /\ Forall (fun c => hex_to_rgb (rgb_to_hex c) = Some c
                           /\ rgb_between c0 c1 c) cs
       /\ (exists c : rgb,
             List.hd_error cs = Some c
             /\ first_step_rgb c0 c1 c
             /\ (c = c0 <-> small_rise c0 c1)
             /\ (c = c1 <-> small_fall c0 c1)
             /\ (rgb_strictly_between c0 c1 c
                 <-> ~ small_rise c0 c1 /\ ~ small_fall c0 c1))
       /\ List.last cs c0 = c1
       /\ List.last (writes (emitted (set_color "5A0001" (Some 100%Z))
                               (fresh_world (Some "000000") io_ok))) ""
          = lower "5A0001"
       /\ monotone_from c0 c1 cs.
Proof.
  assert (H1 : current_hardware_color (fresh_world (Some "000000") io_ok)
               = Some "000000") by reflexivity.
  assert (H2 : is_hex6 "000000" = true) by reflexivity.
  assert (H3 : is_hex6 "5A0001" = true) by reflexivity.
  assert (H4 : lower "000000" <> lower "5A0001") by discriminate.
  assert (H5 : (0 < 100 < 2 ^ 32)%Z) by (split; reflexivity).
  repeat (split; [assumption|]).
  exact (set_color_transition "000000" "5A0001" 100
           (fresh_world (Some "000000") io_ok) H1 H2 H3 H4 H5).
Defined.

(** C1 as stated fails: from [000000] to [000001] the first of the 20
    writes is [000000], the start colour itself, which is not strictly
    between the two colours. *)
Lemma set_color_first_write_counterexample :
  current_hardware_color (fresh_world (Some "000000") io_ok) = Some "000000"
  /\ is_hex6 "000000" = true /\ is_hex6 "000001" = true
  /\ lower "000000" <> lower "000001"
  /\ (0 < 100)%Z
  /\ hex_to_rgb "000000" = Some (0, 0, 0)%Z
  /\ hex_to_rgb "000001" = Some (0, 0, 1)%Z
  /\ List.length (writes (emitted (set_color "000001" (Some 100%Z))
                            (fresh_world (Some "000000") io_ok))) = 20%nat
  /\ List.hd_error (writes (emitted (set_color "000001" (Some 100%Z))
                              (fresh_world (Some "000000") io_ok)))
     = Some "000000"
  /\ ~ rgb_strictly_between (0, 0, 0)%Z (0, 0, 1)%Z (0, 0, 0)%Z.
Proof.
  split; [reflexivity|]. split; [reflexivity|]. split; [reflexivity|].
  split; [discriminate|]. split; [reflexivity|].
  split; [reflexivity|]. split; [reflexivity|].
  split; [vm_compute; reflexivity|]. split; [vm_compute; reflexivity|].
  intros (_ & H & _). now apply H.
Qed.

(** C7 (amended): in a transition of duration [0 < d < 2^32] ms between
    two different six-digit colours, [set_color] returns after 20 times
    a write followed by a sleep of [d / 20 / 1000.0] seconds ([d / 20]
    milliseconds).  The colour of step [i] (1 to 20) has, channel by
    channel and independently, the value [int(c0 + (c1 - c0) * t)] with
    [t = i / 20] evaluated in binary64: the integer part of that float,
    not its rounding, within [0, 255].  Against exact arithmetic it is
    the integer part of [c0 + (c1 - c0) * i / 20], or one below it where
    that number is an integer the float falls short of. *)
Theorem set_color_step_channels (a b : string) (d : Z) (w : world) :
  current_hardware_color w = Some a ->
  is_hex6 a = true -> is_hex6 b = true ->
  lower a <> lower b ->
  (0 < d < 2 ^ 32)%Z ->
  exists (c0 c1 : rgb) (cs : list rgb),
    hex_to_rgb a = Some c0 /\ hex_to_rgb b = Some c1
    /\ fst (set_color b (Some d) w) = Ok tt
    /\ actions (emitted (set_color b (Some d)) w)
       = flat_map
           (fun c => [AWrite (rgb_to_hex c);
                      ASleep (PrimFloat.div
                                (PrimFloat.div
                                   (PrimFloat.of_uint63 (Uint63.of_Z d)) 20)
                                1000)])
           cs
    /\ List.length cs = 20%nat
    /\ Forall2 (fun i c => step_colour c0 c1 i c
                           /\ step_truncates c0 c1 i c
                           /\ step_exact_rgb c0 c1 i c
                           /\ rgb_bytes c)
               (map Z.of_nat (seq 1 20)) cs.
Proof.
  intros Hcur Ha Hb Hne [Hd _].
  destruct (set_color_interpolates a b d w Hcur Ha Hb Hne Hd)
    as (c0 & c1 & cs & Da & Db & B0 & B1 & _ & Hok & Hact & Hlen & Hs & Ht
        & Hbt & _ & _).
  exists c0, c1, cs.
  split; [exact Da|]. split; [exact Db|]. split; [exact Hok|]. split.
  { rewrite Hact. unfold step_delay, Z2F.
    destruct (Z.ltb_spec d 0) as [Hn|_]; [lia|]. reflexivity. }
  split; [exact Hlen|].
  pose proof (transition_exact c0 c1 cs B0 B1 Hs) as He.
  rewrite py_range_steps in Hs, Ht.
  assert (Hby : Forall rgb_bytes cs).
  { eapply List.Forall_impl; [|exact Hbt].
    intros c. apply rgb_between_bytes; assumption. }
  clear Hact Hbt Hlen. revert Ht He Hby.
  induction Hs as [|i c l cs Hc Hs IH]; intros Ht He Hby; [constructor|].
  inversion Ht; subst. inversion He; subst. inversion Hby; subst.
  constructor; [split; [|split; [|split]]; assumption|]. now apply IH.
Qed.

(** C7 as stated fails when its arithmetic is read exactly: from
    [000000] to [5a0000] the red channel of step 14 is
    [0 + (90 - 0) * 14 / 20 = 63] exactly, an integer, and the program
    writes [3e0000], red 62: in binary64 [14 / 20] is just below [0.7]
    and the product just below 63. *)
Lemma set_color_exact_value_counterexample :
  hex_to_rgb "000000" = Some (0, 0, 0)%Z
  /\ hex_to_rgb "5a0000" = Some (90, 0, 0)%Z
  /\ (20 * 63 = 20 * 0 + (90 - 0) * 14)%Z
  /\ fst (set_color "5a0000" (Some 100%Z) (fresh_world (Some "000000") io_ok))
     = Ok tt
  /\ nth_error (writes (emitted (set_color "5a0000" (Some 100%Z))
                           (fresh_world (Some "000000") io_ok))) 13
     = Some "3e0000"
  /\ hex_to_rgb "3e0000" = Some (62, 0, 0)%Z
  /\ channel 0 90 (step_t 14) = Ok 62%Z.
Proof. repeat split; vm_compute; reflexivity. Qed.


(** ** Loop iterations of the animation threads *)

Lemma waits_app (t1 t2 : list event) : waits (t1 ++ t2) = waits t1 ++ waits t2.
Proof. apply flat_map_app. Qed.

(** The events of one [write_color] at world [w]. *)
Lemma write_color_trace (col : string) (w : world) :
  write_color col w
  = (Ok tt,
     mkWorld (match zone_io w (io_count w) with
              | None => Some col
              | Some _ => current_hardware_color w
              end)
             (zone_io w) (S (io_count w))
             (trace w ++ match zone_io w (io_count w) with
                         | None => [EvWrite col None]
                         | Some e => [EvWrite col (Some e);
                                      EvLog (write_error_line e)]
                         end)).
Proof. unfold write_color. destruct (zone_io w (io_count w)); reflexivity. Qed.

(** An iteration that has a colour to write returns normally, whatever
    the outcome of the write: the thread object advances, and the trace
    gains the write, the stderr line of a failed write, and the wait. *)
Lemma tick_run (t : thread) (col : string) (w : world) :
  tick_colour t = Some col ->
  tick t w
  = (Ok (advance t),
     mkWorld (match zone_io w (io_count w) with
              | None => Some col
              | Some _ => current_hardware_color w
              end)
             (zone_io w) (S (io_count w))
             (trace w ++ match zone_io w (io_count w) with
                         | None => [EvWrite col None; EvWait (delay_s t)]
                         | Some e => [EvWrite col (Some e);
                                      EvLog (write_error_line e);
                                      EvWait (delay_s t)]
                         end)).
Proof.
  unfold tick_colour, tick, advance, update_color.
  destruct (cls t); intros Hc.
  - injection Hc as <-. unfold bind. rewrite write_color_trace.
    unfold emit, ret. cbn [trace current_hardware_color zone_io io_count].
    rewrite <- app_assoc. destruct (zone_io w (io_count w)); reflexivity.
  - unfold bind, lift_opt. rewrite Hc, write_color_trace.
    unfold emit, ret. cbn [trace current_hardware_color zone_io io_count].
    rewrite <- app_assoc. destruct (zone_io w (io_count w)); reflexivity.
  - unfold bind, lift_opt. rewrite Hc, write_color_trace.
    unfold emit, ret. cbn [trace current_hardware_color zone_io io_count].
    rewrite <- app_assoc. destruct (zone_io w (io_count w)); reflexivity.
Qed.

Lemma tick_run_events (t : thread) (col : string) (w : world) :
  tick_colour t = Some col ->
  exists (w' : world) (evs : list event),
    tick t w = (Ok (advance t), w')
    /\ trace w' = trace w ++ evs
    /\ actions evs = [AWrite col]
    /\ waits evs = [delay_s t].
Proof.
  intros H. rewrite (tick_run t col w H).
  eexists. eexists. split; [reflexivity|]. split; [reflexivity|].
  destruct (zone_io w (io_count w)); split; reflexivity.
Qed.

(** [n] iterations of a thread that always has a colour to write. *)
Lemma ticks_run (colour_at : nat -> string) (n : nat) :
  forall (t : thread) (w : world),
  (forall k, (k < n)%nat ->
             tick_colour (Nat.iter k advance t) = Some (colour_at k)) ->
  exists (w' : world) (evs : list event),
    ticks n t w = (Ok (Nat.iter n advance t), w')
    /\ trace w' = trace w ++ evs
    /\ writes evs = map colour_at (seq 0 n)
    /\ waits evs = repeat (delay_s t) n.
Proof.
  revert colour_at. induction n as [|n IH]; intros colour_at t w Hc.
  - exists w, []. cbn [ticks Nat.iter seq map repeat]. unfold ret.
    rewrite app_nil_r. repeat split; reflexivity.
  - destruct (tick_run_events t (colour_at 0%nat) w) as (w1 & e1 & H1 & T1 & A1 & W1).
    { apply (Hc 0%nat). lia. }
    destruct (IH (fun k => colour_at (S k)) (advance t) w1)
      as (w2 & e2 & H2 & T2 & A2 & W2).
    { intros k Hk. rewrite <- Nat.iter_succ_r. apply Hc. lia. }
    exists w2, (e1 ++ e2). cbn [ticks]. unfold bind at 1. rewrite H1.
    rewrite Nat.iter_succ_r. split; [exact H2|].
    split; [now rewrite T2, T1, app_assoc|]. split.
    + rewrite writes_app, A2. unfold writes at 1. rewrite A1.
      cbn [flat_map written app seq map]. f_equal.
      rewrite <- seq_shift, map_map. reflexivity.
    + rewrite waits_app, W1, W2. cbn [repeat app].
      f_equal. f_equal. unfold advance. destruct (cls t); reflexivity.
Qed.

Lemma iter_advance_rainbow (t : thread) (k : nat) :
  cls t = RainbowThread ->
  cls (Nat.iter k advance t) = RainbowThread
  /\ hue (Nat.iter k advance t) = (hue t + Z.of_nat k)%Z.
Proof.
  intros Hc. induction k as [|k [IH1 IH2]].
  - split; [exact Hc|]. change (hue t = (hue t + 0)%Z). lia.
  - change (Nat.iter (S k) advance t) with (advance (Nat.iter k advance t)).
    generalize dependent (Nat.iter k advance t). intros x IH1 IH2.
    unfold advance. rewrite IH1. cbn [cls hue]. split; [reflexivity|]. lia.
Qed.

Lemma rainbow_standard_check :
  forallb rainbow_standard_ok (map Z.of_nat (seq 0 360)) = true.
Proof. vm_compute. reflexivity. Qed.

(** What the rainbow thread writes for a hue is a nearest 8-bit colour
    of the standard conversion. *)
Lemma rainbow_standard (h : Z) :
  (0 <= h < 360)%Z ->
  exists c : rgb,
    hex_to_rgb (QColor_fromHsv_name h 255 255) = Some c
    /\ rgb_to_hex c = QColor_fromHsv_name h 255 255
    /\ nearest_rgb (hsv_standard h 255 255) c = true.
Proof.
  intros Hh. pose proof rainbow_standard_check as Hc.
  rewrite forallb_forall in Hc. specialize (Hc h).
  unfold rainbow_standard_ok in Hc.
  destruct (hex_to_rgb (QColor_fromHsv_name h 255 255)) as [c|].
  - exists c. split; [reflexivity|].
    assert (Hin : In h (map Z.of_nat (seq 0 360))).
    { rewrite <- (Z2Nat.id h) by lia. apply in_map, in_seq. lia. }
    apply Hc in Hin. apply andb_prop in Hin as [E N].
    split; [now apply String.eqb_eq|exact N].
  - assert (Hin : In h (map Z.of_nat (seq 0 360))).
    { rewrite <- (Z2Nat.id h) by lia. apply in_map, in_seq. lia. }
    apply Hc in Hin. discriminate.
Qed.

(** C4 (amended): the rainbow thread, created with a delay
    [0 <= delay_ms < 2^32], keeps a hue counter that starts at 0 and
    grows by 1 on every tick, without wrapping: after [n] ticks it is
    [n].  What wraps is the hue each tick converts, [hue mod 360], which
    stays in [0, 360) and after 360 ticks is back where it was.  Tick
    [k] (from 0) writes the colour Qt gives for HSV [(k mod 360, 255,
    255)], full saturation and value; for every hue that colour is the
    standard conversion from HSV to RGB with each channel brought to a
    nearest 8-bit value, and hue 0 gives [ff0000]. *)
Theorem rainbow_ticks (delay_ms : Z) (n : nat) (w : world) :
  (0 <= delay_ms < 2 ^ 32)%Z ->
  (exists t' : thread,
      fst (ticks n (new_RainbowThread delay_ms) w) = Ok t'
      /\ hue t' = Z.of_nat n)
  /\ writes (emitted (ticks n (new_RainbowThread delay_ms)) w)
     = map (fun k => QColor_fromHsv_name (Z.of_nat k mod 360) 255 255)
           (seq 0 n)
  /\ (forall k : nat,
        (0 <= Z.of_nat k mod 360 < 360)%Z
        /\ (Z.of_nat (k + 360) mod 360 = Z.of_nat k mod 360)%Z)
  /\ (forall h : Z,
        (0 <= h < 360)%Z ->
        exists c : rgb,
          hex_to_rgb (QColor_fromHsv_name h 255 255) = Some c
          /\ rgb_to_hex c = QColor_fromHsv_name h 255 255
          /\ nearest_rgb (hsv_standard h 255 255) c = true)
  /\ QColor_fromHsv_name 0 255 255 = "ff0000".
Proof.
  intros _.
  destruct (ticks_run
              (fun k => QColor_fromHsv_name (Z.of_nat k mod 360) 255 255)
              n (new_RainbowThread delay_ms) w)
    as (w' & evs & Hrun & Htr & Hwr & _).
  { intros k _.
    destruct (iter_advance_rainbow (new_RainbowThread delay_ms) k eq_refl)
      as [Hc Hh].
    unfold tick_colour. rewrite Hc, Hh. reflexivity. }
  split; [|split; [|split; [|split]]].
  - exists (Nat.iter n advance (new_RainbowThread delay_ms)).
    rewrite Hrun. split; [reflexivity|].
    now destruct (iter_advance_rainbow (new_RainbowThread delay_ms) n eq_refl).
  - rewrite (emitted_of_trace _ w evs); [exact Hwr|]. now rewrite Hrun.
  - intros k. split; [apply Z.mod_pos_bound; lia|].
    rewrite Nat2Z.inj_add. change (Z.of_nat 360) with (1 * 360)%Z.
    apply Z.mod_add. lia.
  - exact rainbow_standard.
  - vm_compute. reflexivity.
Qed.

Lemma rainbow_ticks_witness :
  (exists t' : thread,
      fst (ticks 3 (new_RainbowThread RAIN_DELAY_MS) (fresh_world None io_ok))
      = Ok t'
      /\ hue t' = Z.of_nat 3)
  /\ writes (emitted (ticks 3 (new_RainbowThread RAIN_DELAY_MS))
                     (fresh_world None io_ok))
     = map (fun k => QColor_fromHsv_name (Z.of_nat k mod 360) 255 255)
           (seq 0 3)
  /\ (forall k : nat,
        (0 <= Z.of_nat k mod 360 < 360)%Z
        /\ (Z.of_nat (k + 360) mod 360 = Z.of_nat k mod 360)%Z)
  /\ (forall h : Z,
        (0 <= h < 360)%Z ->
        exists c : rgb,
          hex_to_rgb (QColor_fromHsv_name h 255 255) = Some c
          /\ rgb_to_hex c = QColor_fromHsv_name h 255 255
          /\ nearest_rgb (hsv_standard h 255 255) c = true)
  /\ QColor_fromHsv_name 0 255 255 = "ff0000".
Proof.
  apply (rainbow_ticks RAIN_DELAY_MS 3 (fresh_world None io_ok)).
  split; [discriminate|reflexivity].
Defined.

(** C4 as stated fails: after 360 ticks the hue counter of the rainbow
    thread is 360, outside [0, 360) and different from its starting
    value 0. *)
Lemma rainbow_hue_counterexample :
  hue (new_RainbowThread RAIN_DELAY_MS) = 0%Z
  /\ exists t' : thread,
       fst (ticks 360 (new_RainbowThread RAIN_DELAY_MS)
              (fresh_world None io_ok)) = Ok t'
       /\ hue t' = 360%Z
       /\ ~ (0 <= hue t' < 360)%Z
       /\ hue t' <> hue (new_RainbowThread RAIN_DELAY_MS).
Proof.
  split; [reflexivity|].
  destruct (ticks_run
              (fun k => QColor_fromHsv_name (Z.of_nat k mod 360) 255 255)
              360 (new_RainbowThread RAIN_DELAY_MS) (fresh_world None io_ok))
    as (w' & evs & Hrun & _).
  { intros k _.
    destruct (iter_advance_rainbow (new_RainbowThread RAIN_DELAY_MS) k eq_refl)
      as [Hc Hh].
    unfold tick_colour. rewrite Hc, Hh. reflexivity. }
  exists (Nat.iter 360 advance (new_RainbowThread RAIN_DELAY_MS)).
  rewrite Hrun.
  destruct (iter_advance_rainbow (new_RainbowThread RAIN_DELAY_MS) 360 eq_refl)
    as [_ Hh].
  rewrite Hh. cbn [hue new_RainbowThread].
  split; [reflexivity|]. split; [reflexivity|]. split; [lia|discriminate].
Qed.





(** ** Write failures *)




(** ** The animation slot *)

(** [stop_active_thread] always returns.  It empties the slot, turns the
    thread that was in it into [stopped], and touches nothing else but
    the trace, to which it adds at most a stderr line. *)
Lemma stop_active_thread_run (s : system) :
  exists (s1 : system) (evs : list event),
    stop_active_thread s = (Ok tt, s1)
    /\ active_thread s1 = None
    /\ threads s1
       = match active_thread s with
         | Some h => match threads s !! h with
                     | Some t => <[h := stopped t]> (threads s)
                     | None => threads s
                     end
         | None => threads s
         end
    /\ next_thread s1 = next_thread s
    /\ settings s1 = settings s
    /\ quit_requested s1 = quit_requested s
    /\ trace (wld s1) = trace (wld s) ++ evs
    /\ actions evs = []
    /\ current_hardware_color (wld s1) = current_hardware_color (wld s)
    /\ zone_io (wld s1) = zone_io (wld s)
    /\ io_count (wld s1) = io_count (wld s).
Proof.
  unfold stop_active_thread. destruct s as [th nx [h|] st q w]; cbn [active_thread].
  - unfold bind, stop. cbn [threads]. destruct (th !! h) as [t|] eqn:Ht.
    + destruct (cls t) eqn:Ec; unfold in_world, set_thread, set_active_thread,
        emit, ret; cbn.
      * eexists. exists [EvLog DebugStopping].
        split; [reflexivity|]. cbn. repeat split; reflexivity.
      * eexists. exists []. split; [reflexivity|]. cbn.
        rewrite app_nil_r. repeat split; reflexivity.
      * eexists. exists []. split; [reflexivity|]. cbn.
        rewrite app_nil_r. repeat split; reflexivity.
    + unfold set_active_thread. cbn. eexists. exists [].
      split; [reflexivity|]. cbn. rewrite app_nil_r. repeat split; reflexivity.
  - eexists. exists []. split; [reflexivity|]. cbn.
    rewrite app_nil_r. repeat split; reflexivity.
Qed.

(** With the slot invariant, no thread is left running after
    [stop_active_thread]. *)
Lemma stop_active_thread_idle (s : system) :
  slot_invariant s -> idle (snd (stop_active_thread s)).
Proof.
  intros Hinv.
  destruct (stop_active_thread_run s) as (s1 & evs & -> & _ & Hth & _).
  cbn [snd]. intros h' t' Hl. rewrite Hth in Hl.
  destruct (running t') eqn:Hr; [|reflexivity]. exfalso.
  destruct (active_thread s) as [h|] eqn:Ha.
  - destruct (threads s !! h) as [t|] eqn:Ht.
    + destruct (decide (h = h')) as [<-|Hne].
      * rewrite lookup_insert_eq in Hl. injection Hl as <-. discriminate.
      * rewrite lookup_insert_ne in Hl by assumption.
        specialize (Hinv h' t' Hl Hr). congruence.
    + specialize (Hinv h' t' Hl Hr). congruence.
  - specialize (Hinv h' t' Hl Hr). congruence.
Qed.

Lemma idle_slot_invariant (s : system) : idle s -> slot_invariant s.
Proof. intros Hi h t Hl Hr. rewrite (Hi h t Hl) in Hr. discriminate. Qed.

Lemma leaves_threads_idle {A} (c : C A) (s : system) :
  leaves_threads c -> idle s -> idle (snd (c s)).
Proof. intros Hc Hi h t. destruct (Hc s) as [-> _]. apply Hi. Qed.

Lemma leaves_threads_keeps_slot {A} (c : C A) :
  leaves_threads c -> keeps_slot c.
Proof.
  intros Hc s Hinv h t. destruct (Hc s) as [-> ->]. apply Hinv.
Qed.

Lemma leaves_threads_bind {A B} (c : C A) (k : A -> C B) :
  leaves_threads c -> (forall a, leaves_threads (k a)) ->
  leaves_threads (bind c k).
Proof.
  intros Hc Hk s. unfold bind. specialize (Hc s).
  destruct (c s) as [[a|e] s1]; cbn [snd] in *.
  - destruct (Hk a s1) as [-> ->]. exact Hc.
  - exact Hc.
Qed.

Lemma leaves_threads_ret {A} (a : A) : leaves_threads (ret (S := system) a).
Proof. intros s. split; reflexivity. Qed.

Lemma leaves_threads_in_world {A} (c : M A) : leaves_threads (in_world c).
Proof. intros s. unfold in_world. destruct (c (wld s)). split; reflexivity. Qed.

Lemma leaves_threads_set_value (k v : string) : leaves_threads (set_value k v).
Proof. intros s. split; reflexivity. Qed.

Lemma keeps_slot_bind {A B} (c : C A) (k : A -> C B) :
  keeps_slot c -> (forall a, keeps_slot (k a)) -> keeps_slot (bind c k).
Proof.
  intros Hc Hk s Hinv. unfold bind. specialize (Hc s Hinv).
  destruct (c s) as [[a|e] s1]; cbn [snd] in *.
  - now apply Hk.
  - exact Hc.
Qed.

(** Whatever runs after [stop_active_thread] starts with no thread
    running. *)
Lemma keeps_slot_after_stop {A} (k : C A) :
  safe_when_idle k -> keeps_slot (do_ stop_active_thread; k).
Proof.
  intros Hk s Hinv. unfold bind.
  pose proof (stop_active_thread_idle s Hinv) as Hi.
  destruct (stop_active_thread_run s) as (s1 & evs & E & _).
  rewrite E in *. cbn [snd] in Hi. now apply Hk.
Qed.

Lemma safe_when_idle_launch (t : thread) : safe_when_idle (launch t).
Proof.
  intros s Hi h' t' Hl Hr.
  unfold launch, bind, set_active_thread, set_thread, in_world, emit in *.
  cbn in *.
  destruct (decide (next_thread s = h')) as [<-|Hne]; [reflexivity|].
  rewrite lookup_insert_ne in Hl by assumption.
  rewrite (Hi h' t' Hl) in Hr. discriminate.
Qed.

Lemma safe_when_idle_start_thread (t : thread) :
  safe_when_idle (start_thread t).
Proof.
  intros s Hi. unfold start_thread.
  apply keeps_slot_after_stop; [apply safe_when_idle_launch|].
  now apply idle_slot_invariant.
Qed.

Lemma safe_when_idle_leaves {A} (c : C A) :
  leaves_threads c -> safe_when_idle c.
Proof.
  intros Hc s Hi. apply idle_slot_invariant. now apply leaves_threads_idle.
Qed.

Lemma keeps_slot_activate_mode (mode : string) (is_startup : bool) :
  keeps_slot (activate_mode mode is_startup).
Proof.
  unfold activate_mode. apply keeps_slot_after_stop.
  repeat match goal with
         | |- safe_when_idle (if ?b then _ else _) => destruct b
         end.
  - apply safe_when_idle_leaves. intros s. apply leaves_threads_in_world.
  - apply safe_when_idle_start_thread.
  - apply safe_when_idle_start_thread.
  - apply safe_when_idle_start_thread.
  - apply safe_when_idle_leaves, leaves_threads_ret.
Qed.

Lemma keeps_slot_apply_static_color (color_hex : string) :
  keeps_slot (apply_static_color color_hex).
Proof.
  unfold apply_static_color. apply keeps_slot_after_stop.
  apply safe_when_idle_leaves.
  apply leaves_threads_bind; [apply leaves_threads_in_world|intros _].
  apply leaves_threads_bind; [apply leaves_threads_set_value|intros _].
  intros s. destruct (settings s !! "lastMode") as [m|].
  - destruct (String.eqb m "Static Color"); split; reflexivity.
  - split; reflexivity.
Qed.

Lemma keeps_slot_on_mode (mode : string) : keeps_slot (on_mode mode).
Proof.
  unfold on_mode. destruct (String.eqb mode "").
  - apply leaves_threads_keeps_slot, leaves_threads_ret.
  - apply keeps_slot_bind; [|intros _; apply keeps_slot_activate_mode].
    apply leaves_threads_keeps_slot, leaves_threads_set_value.
Qed.

Lemma keeps_slot_load_settings : keeps_slot load_settings.
Proof. intros s. unfold load_settings. apply keeps_slot_activate_mode. Qed.

Lemma keeps_slot_exit_app : keeps_slot exit_app.
Proof.
  unfold exit_app. apply keeps_slot_after_stop, safe_when_idle_leaves.
  intros s. split; reflexivity.
Qed.

Lemma keeps_slot_stop_active_thread : keeps_slot stop_active_thread.
Proof.
  intros s Hinv. apply idle_slot_invariant. now apply stop_active_thread_idle.
Qed.

Lemma keeps_slot_start_thread (t : thread) : keeps_slot (start_thread t).
Proof. apply keeps_slot_after_stop, safe_when_idle_launch. Qed.

(** An iteration leaves the [running] flag of its thread alone. *)
Lemma tick_running (t t' : thread) (w w' : world) :
  tick t w = (Ok t', w') -> running t' = running t.
Proof.
  unfold tick, update_color, bind, lift_opt, emit, ret.
  destruct (cls t).
  - rewrite write_color_trace. intros [= <- _]. reflexivity.
  - destruct (py_index (colors t) (color_index t)); [|discriminate].
    rewrite write_color_trace. intros [= <- _]. reflexivity.
  - destruct (py_index (colors t) (color_index t)); [|discriminate].
    rewrite write_color_trace. intros [= <- _]. reflexivity.
Qed.

Lemma thread_iteration_slot (h : nat) (s : system) :
  slot_invariant s -> slot_invariant (thread_iteration h s).
Proof.
  intros Hinv. unfold thread_iteration.
  destruct (threads s !! h) as [t|] eqn:Ht; [|exact Hinv].
  destruct (running t && negb (stop_event t)) eqn:Hgo; [|exact Hinv].
  apply andb_prop in Hgo as [Hr _].
  destruct (tick t (wld s)) as [[t'|e] w'] eqn:Htick;
    intros h' x Hl Hx; cbn [threads active_thread] in *.
  - destruct (decide (h = h')) as [<-|Hne].
    + now apply (Hinv h t).
    + rewrite lookup_insert_ne in Hl by assumption. now apply (Hinv h' x).
  - destruct (decide (h = h')) as [<-|Hne].
    + rewrite lookup_insert_eq in Hl. injection Hl as <-. discriminate.
    + rewrite lookup_insert_ne in Hl by assumption. now apply (Hinv h' x).
Qed.

Lemma exec_slot (o : op) (s : system) :
  slot_invariant s -> slot_invariant (exec o s).
Proof.
  destruct o; cbn [exec].
  - apply keeps_slot_start_thread.
  - apply keeps_slot_stop_active_thread.
  - apply keeps_slot_activate_mode.
  - apply keeps_slot_apply_static_color.
  - apply keeps_slot_on_mode.
  - apply keeps_slot_load_settings.
  - apply keeps_slot_exit_app.
  - apply thread_iteration_slot.
Qed.

Lemma run_ops_slot (ops : list op) :
  forall s : system, slot_invariant s -> slot_invariant (run_ops ops s).
Proof.
  induction ops as [|o ops IH]; intros s Hinv; [exact Hinv|].
  cbn [run_ops fold_left]. apply IH, exec_slot, Hinv.
Qed.

Lemma init_system_slot (stored : gmap string string) (w : world) :
  slot_invariant (init_system stored w).
Proof. intros h t Hl. cbn in Hl. rewrite lookup_empty in Hl. discriminate. Qed.

(** The running threads, as a list of handles. *)
Lemma in_live (s : system) (h : nat) :
  In h (live s) <->
  exists t : thread, threads s !! h = Some t /\ running t = true.
Proof.
  unfold live. rewrite in_map_iff. split.
  - intros ([h' t] & <- & Hin). apply filter_In in Hin as [Hin Hr].
    exists t. split; [|exact Hr].
    apply list_elem_of_In in Hin. now apply elem_of_map_to_list in Hin.
  - intros (t & Hl & Hr). exists (h, t). split; [reflexivity|].
    apply filter_In. split; [|exact Hr].
    apply list_elem_of_In. now apply elem_of_map_to_list.
Qed.

Lemma NoDup_map_fst_filter {A B} (p : A * B -> bool) (l : list (A * B)) :
  List.NoDup (map fst l) -> List.NoDup (map fst (List.filter p l)).
Proof.
  induction l as [|x l IH]; intros Hnd; [constructor|].
  cbn [map] in Hnd. apply List.NoDup_cons_iff in Hnd as [Hx Hnd].
  cbn [List.filter]. destruct (p x); [|now apply IH].
  cbn [map]. apply List.NoDup_cons_iff. split; [|now apply IH].
  intros Hin. apply Hx. apply in_map_iff in Hin as (y & Hy & Hin).
  apply filter_In in Hin as [Hin _]. apply in_map_iff. now exists y.
Qed.

Lemma live_NoDup (s : system) : List.NoDup (live s).
Proof.
  unfold live. apply NoDup_map_fst_filter.
  apply NoDup_ListNoDup, NoDup_fst_map_to_list.
Qed.

Lemma slot_invariant_live (s : system) :
  slot_invariant s ->
  (List.length (live s) <= 1)%nat
  /\ forall h, In h (live s) -> active_thread s = Some h.
Proof.
  intros Hinv.
  assert (Hall : forall h, In h (live s) -> active_thread s = Some h).
  { intros h Hin. apply in_live in Hin as (t & Hl & Hr). now apply (Hinv h t). }
  split; [|exact Hall].
  pose proof (live_NoDup s) as Hnd.
  destruct (live s) as [|x [|y l]]; cbn [List.length]; try lia.
  exfalso.
  assert (Hx := Hall x (or_introl eq_refl)).
  assert (Hy := Hall y (or_intror (or_introl eq_refl))).
  apply List.NoDup_cons_iff in Hnd as [Hnin _]. apply Hnin.
  left. congruence.
Qed.

Lemma idle_live (s : system) : idle s -> live s = [].
Proof.
  intros Hi. destruct (live s) as [|h l] eqn:E; [reflexivity|]. exfalso.
  assert (Hin : In h (live s)) by (rewrite E; now left).
  apply in_live in Hin as (t & Hl & Hr). rewrite (Hi h t Hl) in Hr.
  discriminate.
Qed.

Lemma launch_live (t : thread) (s : system) :
  idle s -> live (snd (launch t s)) = [next_thread s].
Proof.
  intros Hi.
  assert (Hin : forall h, In h (live (snd (launch t s))) <-> h = next_thread s).
  { intros h. rewrite in_live.
    unfold launch, bind, set_active_thread, set_thread, in_world, emit.
    cbn. split.
    - intros (x & Hl & Hr).
      destruct (decide (next_thread s = h)) as [<-|Hne]; [reflexivity|].
      rewrite lookup_insert_ne in Hl by assumption.
      rewrite (Hi h x Hl) in Hr. discriminate.
    - intros ->. eexists. rewrite lookup_insert_eq. split; reflexivity. }
  pose proof (live_NoDup (snd (launch t s))) as Hnd.
  destruct (live (snd (launch t s))) as [|x [|y l]].
  - exfalso. now apply (Hin (next_thread s)).
  - f_equal. apply Hin. now left.
  - exfalso. apply List.NoDup_cons_iff in Hnd as [Hnin _]. apply Hnin.
    left. transitivity (next_thread s).
    + apply Hin. right. now left.
    + symmetry. apply Hin. now left.
Qed.

(** C3: in every state the controller can reach from its initial state
    by calls of its methods (start, stop, mode activation, static colour,
    mode click, settings load, exit) interleaved with iterations of its
    threads, at most one animation thread is running, and it is the one
    in the slot [active_thread].  Starting a thread first stops and
    joins the running one: [start_thread] is [launch] from the state
    [stop_active_thread] returns, in which no thread is running, and
    afterwards the new thread alone is running. *)
Theorem at_most_one_live_animation (stored : gmap string string) (w : world)
    (ops : list op) :
  (List.length (live (run_ops ops (init_system stored w))) <= 1)%nat
  /\ (forall h : nat,
         In h (live (run_ops ops (init_system stored w))) ->
         active_thread (run_ops ops (init_system stored w)) = Some h)
  /\ (forall t : thread,
         exists s1 : system,
           stop_active_thread (run_ops ops (init_system stored w))
           = (Ok tt, s1)
           /\ live s1 = []
           /\ start_thread t (run_ops ops (init_system stored w))
              = launch t s1
           /\ live (snd (start_thread t (run_ops ops (init_system stored w))))
              = [next_thread s1]).
Proof.
  pose proof (run_ops_slot ops _ (init_system_slot stored w)) as Hinv.
  destruct (slot_invariant_live _ Hinv) as [Hlen Hact].
  split; [exact Hlen|]. split; [exact Hact|].
  intros t. pose proof (stop_active_thread_idle _ Hinv) as Hi.
  destruct (stop_active_thread_run (run_ops ops (init_system stored w)))
    as (s1 & evs & E & _).
  rewrite E in Hi. cbn [snd] in Hi.
  assert (Es : start_thread t (run_ops ops (init_system stored w))
               = launch t s1).
  { unfold start_thread, bind. now rewrite E. }
  exists s1. split; [exact E|]. split; [now apply idle_live|].
  split; [exact Es|]. rewrite Es. now apply launch_live.
Qed.

(** C10: for a mode string that is none of the four known ones,
    [activate_mode] is [stop_active_thread] and nothing more: it returns
    normally, the slot is empty, the thread that was active has its stop
    event set and is no longer running, nothing is written to the zone
    file, and the last hardware colour is unchanged. *)
Theorem activate_mode_unknown_mode (mode : string) (is_startup : bool)
    (s : system) :
  mode <> "Static Color" -> mode <> "Rainbow" ->
  mode <> "New Year's" -> mode <> "Police" ->
  activate_mode mode is_startup s = stop_active_thread s
  /\ exists (s' : system) (evs : list event),
       activate_mode mode is_startup s = (Ok tt, s')
       /\ active_thread s' = None
       /\ (forall (h : nat) (t : thread),
              active_thread s = Some h -> threads s !! h = Some t ->
              threads s' !! h = Some (stopped t)
              /\ stop_event (stopped t) = true
              /\ running (stopped t) = false)
       /\ (slot_invariant s -> live s' = [])
       /\ trace (wld s') = trace (wld s) ++ evs
       /\ actions evs = [] /\ writes evs = []
       /\ current_hardware_color (wld s')
          = current_hardware_color (wld s).
Proof.
  intros H1 H2 H3 H4.
  destruct (stop_active_thread_run s)
    as (s1 & evs & E & Ha & Hth & _ & _ & _ & Htr & Hact & Hcol & _).
  assert (Em : activate_mode mode is_startup s = stop_active_thread s).
  { unfold activate_mode, bind. rewrite E.
    apply String.eqb_neq in H1, H2, H3, H4. rewrite H1, H2, H3, H4.
    reflexivity. }
  split; [exact Em|]. exists s1, evs. rewrite Em.
  split; [exact E|]. split; [exact Ha|]. split; [|split; [|split; [|split; [|split]]]].
  - intros h t Hs Ht. rewrite Hth, Hs, Ht, lookup_insert_eq.
    repeat split; reflexivity.
  - intros Hinv. apply idle_live.
    pose proof (stop_active_thread_idle s Hinv) as Hi. now rewrite E in Hi.
  - exact Htr.
  - exact Hact.
  - unfold writes. now rewrite Hact.
  - exact Hcol.
Qed.

Lemma activate_mode_unknown_mode_witness :
  activate_mode "Breathing" false rainbow_running
  = stop_active_thread rainbow_running
  /\ exists (s' : system) (evs : list event),
       activate_mode "Breathing" false rainbow_running = (Ok tt, s')
       /\ active_thread s' = None
       /\ (forall (h : nat) (t : thread),
              active_thread rainbow_running = Some h ->
              threads rainbow_running !! h = Some t ->
              threads s' !! h = Some (stopped t)
              /\ stop_event (stopped t) = true
              /\ running (stopped t) = false)
       /\ (slot_invariant rainbow_running -> live s' = [])
       /\ trace (wld s') = trace (wld rainbow_running) ++ evs
       /\ actions evs = [] /\ writes evs = []
       /\ current_hardware_color (wld s')
          = current_hardware_color (wld rainbow_running).
Proof.
  apply (activate_mode_unknown_mode "Breathing" false rainbow_running);
    discriminate.
Defined.

Lemma set_color_step_channels_witness :
  current_hardware_color (fresh_world (Some "000000") io_ok) = Some "000000"
  /\ is_hex6 "000000" = true /\ is_hex6 "5A0001" = true
  /\ lower "000000" <> lower "5A0001"
  /\ (0 < 100 < 2 ^ 32)%Z
  /\ exists (c0 c1 : rgb) (cs : list rgb),
       hex_to_rgb "000000" = Some c0 /\ hex_to_rgb "5A0001" = Some c1
       /\ fst (set_color "5A0001" (Some 100%Z)
                 (fresh_world (Some "000000") io_ok)) = Ok tt
       /\ actions (emitted (set_color "5A0001" (Some 100%Z))
                     (fresh_world (Some "000000") io_ok))
          = flat_map
              (fun c => [AWrite (rgb_to_hex c);
                         ASleep (PrimFloat.div
                                   (PrimFloat.div
                                      (PrimFloat.of_uint63 (Uint63.of_Z 100))
                                      20)
                                   1000)])
              cs
       /\ List.length cs = 20%nat
       /\ Forall2 (fun i c => step_colour c0 c1 i c
                              /\ step_truncates c0 c1 i c
                              /\ step_exact_rgb c0 c1 i c
                              /\ rgb_bytes c)
                  (map Z.of_nat (seq 1 20)) cs.
Proof.
  assert (H1 : current_hardware_color (fresh_world (Some "000000") io_ok)
               = Some "000000") by reflexivity.
  assert (H2 : is_hex6 "000000" = true) by reflexivity.
  assert (H3 : is_hex6 "5A0001" = true) by reflexivity.
  assert (H4 : lower "000000" <> lower "5A0001") by discriminate.
  assert (H5 : (0 < 100 < 2 ^ 32)%Z) by (split; reflexivity).
  repeat (split; [assumption|]).
  exact (set_color_step_channels "000000" "5A0001" 100
           (fresh_world (Some "000000") io_ok) H1 H2 H3 H4 H5).
Defined.

(** ** Worked examples *)

(** The static transition of the application, 100 ms: 5 ms a step. *)
Example step_delay_static :
  step_delay STATIC_DURATION_MS = PrimFloat.div 5 1000.
Proof. vm_compute. reflexivity. Qed.

(** Binary64 at work: from channel 0 to channel 90, step 14 computes
    [90 * 0.7 = 62.99999999999999] and writes 62, one below the 63 that
    exact arithmetic gives for [90 * 14 / 20]. *)
Example channel_0_90_step_14 :
  channel 0 90 (step_t 14) = Ok 62%Z /\ (0 + (90 - 0) * 14 / 20 = 63)%Z.
Proof. split; vm_compute; reflexivity. Qed.

(** A falling channel leaves its start on the first step: from 255
    towards 0 the first write is 242. *)
Example channel_255_0_step_1 : channel 255 0 (step_t 1) = Ok 242%Z.
Proof. vm_compute. reflexivity. Qed.

(** After Rainbow has run and Police is activated, the police thread
    alone is running. *)
(** Hues 2 and 3 of the rainbow: [255 * 2 / 60 = 8.5] falls to 8 and
    [255 * 3 / 60 = 12.75] rounds to 13. *)
Example rainbow_hues_2_3 :
  QColor_fromHsv_name 2 255 255 = "ff0800"
  /\ QColor_fromHsv_name 3 255 255 = "ff0d00".
Proof. split; vm_compute; reflexivity. Qed.

Example police_after_rainbow :
  live (run_ops [OpActivateMode "Police" false; OpThreadIteration 1]
                rainbow_running) = [1%nat]
  /\ writes (trace (wld (run_ops [OpActivateMode "Police" false;
                                  OpThreadIteration 1;
                                  OpThreadIteration 0;
                                  OpThreadIteration 1]
                                 rainbow_running)))
     = ["ff0000"; "ff0400"; "ff0000"; "0000ff"].
Proof. split; vm_compute; reflexivity. Qed.

(** * Further properties *)

(** ** The two conversions *)

(** X1: three bytes printed by [rgb_to_hex] give six lower-case hex
    digits, and [hex_to_rgb] decodes them to the same three bytes. *)
Theorem hex_to_rgb_rgb_to_hex (c : rgb) :
  rgb_bytes c ->
  is_lower_hex6 (rgb_to_hex c) = true
  /\ hex_to_rgb (rgb_to_hex c) = Some c.
Proof.
  destruct c as [[r g] b]. intros (Hr & Hg & Hb).
  destruct (hex_to_rgb_of_bytes r g b Hr Hg Hb) as [H1 H2]. now split.
Qed.

Lemma hex_to_rgb_rgb_to_hex_witness :
  is_lower_hex6 (rgb_to_hex (128, 0, 255)%Z) = true
  /\ hex_to_rgb (rgb_to_hex (128, 0, 255)%Z) = Some (128, 0, 255)%Z.
Proof.
  apply (hex_to_rgb_rgb_to_hex (128, 0, 255)%Z).
  repeat split; discriminate.
Defined.

Lemma hex_to_rgb_lower (s : string) :
  is_hex6 s = true -> hex_to_rgb (lower s) = hex_to_rgb s.
Proof.
  intros H.
  destruct (hex_to_rgb_hex6 s H) as (r & g & b & Hd & Br & Bg & Bb & He).
  rewrite Hd, <- He. now apply hex_to_rgb_of_bytes.
Qed.

(** X2: two six-digit strings decode to the same colour exactly when
    they are equal up to letter case, which is the comparison the guard
    of [set_color] makes; and decoding then printing a six-digit string
    gives it back in lower case. *)
Theorem same_colour_iff_same_lower (a b : string) :
  is_hex6 a = true -> is_hex6 b = true ->
  (hex_to_rgb a = hex_to_rgb b <-> lower a = lower b)
  /\ exists c : rgb, hex_to_rgb a = Some c /\ rgb_to_hex c = lower a.
Proof.
  intros Ha Hb.
  destruct (hex_to_rgb_hex6 a Ha) as (r & g & bl & Da & _ & _ & _ & Ea).
  destruct (hex_to_rgb_hex6 b Hb) as (r' & g' & bl' & Db & _ & _ & _ & Eb).
  split; [|exists (r, g, bl); now split].
  split.
  - intros E. rewrite Da, Db in E. injection E as -> -> ->. congruence.
  - intros E. rewrite <- (hex_to_rgb_lower a Ha), <- (hex_to_rgb_lower b Hb).
    now rewrite E.
Qed.

Lemma same_colour_iff_same_lower_witness :
  (hex_to_rgb "FF7f00" = hex_to_rgb "ff7F00"
   <-> lower "FF7f00" = lower "ff7F00")
  /\ exists c : rgb,
       hex_to_rgb "FF7f00" = Some c /\ rgb_to_hex c = lower "FF7f00".
Proof.
  apply (same_colour_iff_same_lower "FF7f00" "ff7F00"); reflexivity.
Defined.

(** X3: [hex_to_rgb] reads the first six characters only, so anything
    after them is ignored; and a string of fewer than five characters is
    a [ValueError]. *)
Theorem hex_to_rgb_length_edges (s : string) :
  hex_to_rgb s = hex_to_rgb (substring 0 6 s)
  /\ ((String.length s < 5)%nat -> hex_to_rgb s = None).
Proof.
  split.
  - destruct s as [|c1 [|c2 [|c3 [|c4 [|c5 [|c6 s]]]]]]; try reflexivity.
    unfold hex_to_rgb. cbn [substring]. destruct s; reflexivity.
  - intros Hl. unfold hex_to_rgb.
    destruct s as [|c1 [|c2 [|c3 [|c4 [|c5 s]]]]];
      cbn [String.length] in Hl; try lia; cbn [substring];
      change (py_int16 "") with (@None Z);
      repeat match goal with
             | |- context [match py_int16 ?x with _ => _ end] =>
                 destruct (py_int16 x)
             end; reflexivity.
Qed.

Lemma hex_to_rgb_length_edges_witness :
  hex_to_rgb "ff7f00cc" = hex_to_rgb (substring 0 6 "ff7f00cc")
  /\ ((String.length "ff7f" < 5)%nat -> hex_to_rgb "ff7f" = None).
Proof.
  split.
  - exact (proj1 (hex_to_rgb_length_edges "ff7f00cc")).
  - exact (proj2 (hex_to_rgb_length_edges "ff7f")).
Defined.

(** ** The last hardware colour follows the successful writes *)

Lemma last_ok_app (t1 t2 : list event) (c : option string) :
  last_ok (t1 ++ t2) c = last_ok t2 (last_ok t1 c).
Proof.
  revert c. induction t1 as [|e t1 IH]; intros c; [reflexivity|].
  destruct e as [col [err|]| | |]; cbn [last_ok List.app]; apply IH.
Qed.

Lemma tracks_ret {X} (x : X) : tracks (ret x).
Proof. intros w. exists []. cbn. now rewrite app_nil_r. Qed.

Lemma tracks_raise {X} (e : exn) : tracks (raise (A := X) e).
Proof. intros w. exists []. cbn. now rewrite app_nil_r. Qed.

Lemma tracks_lift {X} (r : result X) : tracks (lift r).
Proof. intros w. exists []. cbn. now rewrite app_nil_r. Qed.

Lemma tracks_lift_opt {X} (e : exn) (o : option X) : tracks (lift_opt e o).
Proof. intros w. exists []. cbn. now rewrite app_nil_r. Qed.

Lemma tracks_bind {X Y} (c : M X) (k : X -> M Y) :
  tracks c -> (forall x, tracks (k x)) -> tracks (bind c k).
Proof.
  intros Hc Hk w. unfold bind. destruct (Hc w) as (e1 & T1 & C1).
  destruct (c w) as [[x|e] w1]; cbn [snd] in *.
  - destruct (Hk x w1) as (e2 & T2 & C2). exists (e1 ++ e2).
    rewrite T2, T1, C2, C1, last_ok_app, app_assoc. now split.
  - exists e1. now split.
Qed.

Lemma tracks_emit_log (l : log_line) : tracks (emit (EvLog l)).
Proof. intros w. exists [EvLog l]. now split. Qed.

Lemma tracks_emit_wait (secs : float) : tracks (emit (EvWait secs)).
Proof. intros w. exists [EvWait secs]. now split. Qed.

Lemma tracks_sleep (secs : float) : tracks (sleep secs).
Proof.
  unfold sleep. destruct (PrimFloat.ltb secs 0); [apply tracks_raise|].
  intros w. exists [EvSleep secs]. now split.
Qed.

Lemma tracks_write_color (col : string) : tracks (write_color col).
Proof.
  intros w. rewrite write_color_trace. cbn [snd trace current_hardware_color].
  eexists. split; [reflexivity|].
  destruct (zone_io w (io_count w)); reflexivity.
Qed.

Lemma tracks_for_each {X} (l : list X) (body : X -> M unit) :
  (forall x, tracks (body x)) -> tracks (for_each l body).
Proof.
  intros Hb. induction l as [|x l IH]; cbn [for_each]; [apply tracks_ret|].
  apply tracks_bind; [apply Hb|intros _; exact IH].
Qed.

Lemma tracks_set_color_step (c0 c1 : rgb) (delay : float) (i : Z) :
  tracks (set_color_step c0 c1 delay i).
Proof.
  destruct c0 as [[r0 g0] b0], c1 as [[r1 g1] b1]. unfold set_color_step.
  repeat (apply tracks_bind; [apply tracks_lift|intros ?]).
  apply tracks_bind; [apply tracks_write_color|intros _].
  apply tracks_sleep.
Qed.

Lemma tracks_interpolation (cur col : string) (delay : float) :
  tracks (do c0 <- lift_opt ValueError (hex_to_rgb cur);
          do c1 <- lift_opt ValueError (hex_to_rgb col);
          for_each (py_range 1 (steps + 1)) (set_color_step c0 c1 delay)).
Proof.
  apply tracks_bind; [apply tracks_lift_opt|intros c0].
  apply tracks_bind; [apply tracks_lift_opt|intros c1].
  apply tracks_for_each. intros i. apply tracks_set_color_step.
Qed.

Lemma tracks_set_color (col : string) (d : option Z) :
  tracks (set_color col d).
Proof.
  intros w. unfold set_color.
  destruct (truthy_int d && truthy_str (current_hardware_color w)
            && negb (lower (default "" (current_hardware_color w))
                     =? lower col)%string).
  - apply tracks_interpolation.
  - apply tracks_write_color.
Qed.

Lemma tracks_tick (t : thread) : tracks (tick t).
Proof.
  unfold tick, update_color. destruct (cls t).
  - apply tracks_bind; [apply tracks_write_color|intros _].
    apply tracks_bind; [apply tracks_emit_wait|intros _]. apply tracks_ret.
  - apply tracks_bind.
    + apply tracks_bind; [apply tracks_lift_opt|intros col].
      apply tracks_bind; [apply tracks_write_color|intros _]. apply tracks_ret.
    + intros t'. apply tracks_bind; [apply tracks_emit_wait|intros _].
      apply tracks_ret.
  - apply tracks_bind.
    + apply tracks_bind; [apply tracks_lift_opt|intros col].
      apply tracks_bind; [apply tracks_write_color|intros _]. apply tracks_ret.
    + intros t'. apply tracks_bind; [apply tracks_emit_wait|intros _].
      apply tracks_ret.
Qed.

Lemma tracks_ctl_bind {X Y} (c : C X) (k : X -> C Y) :
  tracks_ctl c -> (forall x, tracks_ctl (k x)) -> tracks_ctl (bind c k).
Proof.
  intros Hc Hk s. unfold bind. destruct (Hc s) as (e1 & T1 & C1).
  destruct (c s) as [[x|e] s1]; cbn [snd] in *.
  - destruct (Hk x s1) as (e2 & T2 & C2). exists (e1 ++ e2).
    rewrite T2, T1, C2, C1, last_ok_app, app_assoc. now split.
  - exists e1. now split.
Qed.

Lemma tracks_ctl_in_world {X} (c : M X) : tracks c -> tracks_ctl (in_world c).
Proof.
  intros Hc s. unfold in_world. destruct (Hc (wld s)) as (evs & T & Cc).
  destruct (c (wld s)) as [r w']. cbn [snd wld] in *. now exists evs.
Qed.

(** A method that leaves the world alone. *)
Lemma tracks_ctl_same_world {X} (c : C X) :
  (forall s, wld (snd (c s)) = wld s) -> tracks_ctl c.
Proof. intros H s. exists []. rewrite H, app_nil_r. now split. Qed.

Lemma tracks_ctl_ret {X} (x : X) : tracks_ctl (ret x).
Proof. now apply tracks_ctl_same_world. Qed.

Lemma tracks_ctl_set_value (k v : string) : tracks_ctl (set_value k v).
Proof. now apply tracks_ctl_same_world. Qed.

Lemma tracks_ctl_set_thread (h : nat) (t : thread) :
  tracks_ctl (set_thread h t).
Proof. now apply tracks_ctl_same_world. Qed.

Lemma tracks_ctl_set_active_thread (a : option nat) :
  tracks_ctl (set_active_thread a).
Proof. now apply tracks_ctl_same_world. Qed.

Lemma tracks_ctl_stop_active_thread : tracks_ctl stop_active_thread.
Proof.
  intros s. unfold stop_active_thread. destruct (active_thread s) as [h|].
  - revert s. apply tracks_ctl_bind; [|intros _; apply tracks_ctl_set_active_thread].
    intros s. unfold stop. destruct (threads s !! h) as [t|].
    + revert s. apply tracks_ctl_bind; [|intros _; apply tracks_ctl_set_thread].
      apply tracks_ctl_in_world.
      destruct (cls t); [apply tracks_emit_log|apply tracks_ret|apply tracks_ret].
    + exists []. cbn [snd]. rewrite app_nil_r. now split.
  - exists []. cbn [snd]. rewrite app_nil_r. now split.
Qed.

Lemma tracks_ctl_launch (t : thread) : tracks_ctl (launch t).
Proof.
  intros s. unfold launch.
  match goal with
  | |- context [bind ?c ?k (mkSystem ?a ?b ?c' ?d ?e ?w)] =>
      assert (H : tracks_ctl (bind c k))
  end.
  { apply tracks_ctl_bind; [apply tracks_ctl_set_active_thread|intros _].
    apply tracks_ctl_bind; [apply tracks_ctl_set_thread|intros _].
    apply tracks_ctl_in_world, tracks_emit_log. }
  destruct (H (mkSystem (threads s) (S (next_thread s)) (active_thread s)
                 (settings s) (quit_requested s) (wld s)))
    as (evs & T & Cc).
  exists evs. exact (conj T Cc).
Qed.

Lemma tracks_ctl_start_thread (t : thread) : tracks_ctl (start_thread t).
Proof.
  apply tracks_ctl_bind; [apply tracks_ctl_stop_active_thread|intros _].
  apply tracks_ctl_launch.
Qed.

Lemma tracks_ctl_activate_mode (mode : string) (is_startup : bool) :
  tracks_ctl (activate_mode mode is_startup).
Proof.
  unfold activate_mode.
  apply tracks_ctl_bind; [apply tracks_ctl_stop_active_thread|intros _].
  repeat match goal with
         | |- tracks_ctl (if ?b then _ else _) => destruct b
         end; try apply tracks_ctl_start_thread; [|apply tracks_ctl_ret].
  intros s. apply tracks_ctl_in_world, tracks_set_color.
Qed.

Lemma tracks_ctl_apply_static_color (color_hex : string) :
  tracks_ctl (apply_static_color color_hex).
Proof.
  unfold apply_static_color.
  apply tracks_ctl_bind; [apply tracks_ctl_stop_active_thread|intros _].
  apply tracks_ctl_bind;
    [apply tracks_ctl_in_world, tracks_set_color|intros _].
  apply tracks_ctl_bind; [apply tracks_ctl_set_value|intros _].
  apply tracks_ctl_same_world. intros s.
  destruct (settings s !! "lastMode") as [m|]; [|reflexivity].
  destruct (String.eqb m "Static Color"); reflexivity.
Qed.

Lemma tracks_ctl_on_mode (mode : string) : tracks_ctl (on_mode mode).
Proof.
  unfold on_mode. destruct (String.eqb mode ""); [apply tracks_ctl_ret|].
  apply tracks_ctl_bind; [apply tracks_ctl_set_value|intros _].
  apply tracks_ctl_activate_mode.
Qed.

Lemma tracks_ctl_load_settings : tracks_ctl load_settings.
Proof. intros s. unfold load_settings. apply tracks_ctl_activate_mode. Qed.

Lemma tracks_ctl_exit_app : tracks_ctl exit_app.
Proof.
  unfold exit_app.
  apply tracks_ctl_bind; [apply tracks_ctl_stop_active_thread|intros _].
  now apply tracks_ctl_same_world.
Qed.

Lemma thread_iteration_tracks (h : nat) (s : system) :
  exists evs : list event,
    trace (wld (thread_iteration h s)) = trace (wld s) ++ evs
    /\ current_hardware_color (wld (thread_iteration h s))
       = last_ok evs (current_hardware_color (wld s)).
Proof.
  unfold thread_iteration.
  destruct (threads s !! h) as [t|];
    [|exists []; rewrite app_nil_r; now split].
  destruct (running t && negb (stop_event t));
    [|exists []; rewrite app_nil_r; now split].
  destruct (tracks_tick t (wld s)) as (evs & T & Cc).
  destruct (tick t (wld s)) as [[t'|e] w']; cbn [snd wld] in *.
  - now exists evs.
  - exists (evs ++ [EvLog (ErrInThread e)]). cbn [emit snd trace
      current_hardware_color]. rewrite T, Cc, last_ok_app, app_assoc.
    now split.
Qed.

Lemma exec_tracks (o : op) (s : system) :
  exists evs : list event,
    trace (wld (exec o s)) = trace (wld s) ++ evs
    /\ current_hardware_color (wld (exec o s))
       = last_ok evs (current_hardware_color (wld s)).
Proof.
  destruct o; cbn [exec].
  - apply tracks_ctl_start_thread.
  - apply tracks_ctl_stop_active_thread.
  - apply tracks_ctl_activate_mode.
  - apply tracks_ctl_apply_static_color.
  - apply tracks_ctl_on_mode.
  - apply tracks_ctl_load_settings.
  - apply tracks_ctl_exit_app.
  - apply thread_iteration_tracks.
Qed.

Lemma run_ops_tracks (ops : list op) :
  forall s : system,
  exists evs : list event,
    trace (wld (run_ops ops s)) = trace (wld s) ++ evs
    /\ current_hardware_color (wld (run_ops ops s))
       = last_ok evs (current_hardware_color (wld s)).
Proof.
  induction ops as [|o ops IH]; intros s.
  - exists []. cbn. now rewrite app_nil_r.
  - cbn [run_ops fold_left]. destruct (exec_tracks o s) as (e1 & T1 & C1).
    destruct (IH (exec o s)) as (e2 & T2 & C2). exists (e1 ++ e2).
    unfold run_ops in *. rewrite T2, T1, C2, C1, last_ok_app, app_assoc.
    now split.
Qed.

(** X4: in a process that starts with no colour written, whatever the
    controller's methods and the threads' iterations do and whichever
    writes fail, the last hardware colour is always the payload of the
    latest successful write in the trace, and is unset as long as no
    write has succeeded. *)
Theorem last_colour_is_latest_successful_write
    (stored : gmap string string) (io : nat -> option io_error)
    (ops : list op) :
  current_hardware_color
    (wld (run_ops ops (init_system stored (fresh_world None io))))
  = last_ok
      (trace (wld (run_ops ops (init_system stored (fresh_world None io)))))
      None.
Proof.
  destruct (run_ops_tracks ops (init_system stored (fresh_world None io)))
    as (evs & T & Cc).
  rewrite T, Cc. reflexivity.
Qed.

(** ** Errors and repetitions of [set_color] *)

(** X5: when [set_color] takes its interpolating branch and the last
    hardware colour or the target does not decode, it raises
    [ValueError] before anything reaches the zone file: the world is
    exactly as it was. *)
Theorem set_color_undecodable (col cur : string) (d : Z) (w : world) :
  current_hardware_color w = Some cur ->
  cur <> "" -> d <> 0%Z -> lower cur <> lower col ->
  hex_to_rgb cur = None \/ hex_to_rgb col = None ->
  set_color col (Some d) w = (Raise ValueError, w).
Proof.
  intros Hcur Hne Hd Hl Hbad. unfold set_color. rewrite Hcur.
  cbv [default from_option id truthy_int truthy_str].
  destruct cur as [|ch cur]; [contradiction|].
  destruct (Z.eqb_spec d 0) as [->|_]; [contradiction|].
  destruct (String.eqb_spec (lower (String ch cur)) (lower col)) as [E|_];
    [contradiction|].
  cbn [negb andb]. unfold bind, lift_opt.
  destruct Hbad as [-> | Hc]; [reflexivity|].
  destruct (hex_to_rgb (String ch cur)); [|reflexivity].
  rewrite Hc. reflexivity.
Qed.

Lemma set_color_undecodable_witness :
  set_color "ff0000" (Some 100%Z) (fresh_world (Some "red") io_ok)
  = (Raise ValueError, fresh_world (Some "red") io_ok).
Proof.
  apply (set_color_undecodable "ff0000" "red" 100
           (fresh_world (Some "red") io_ok)).
  - reflexivity.
  - discriminate.
  - discriminate.
  - discriminate.
  - left. reflexivity.
Defined.

Lemma set_color_step_writable (c0 c1 : rgb) (delay : float) (i : Z) (c : rgb)
    (w : world) :
  PrimFloat.ltb delay 0 = false ->
  step_colour c0 c1 i c ->
  always_writable w ->
  exists w' : world,
    set_color_step c0 c1 delay i w = (Ok tt, w')
    /\ always_writable w'
    /\ current_hardware_color w' = Some (rgb_to_hex c).
Proof.
  intros Hd (Hr & Hg & Hb) Hio.
  destruct c0 as [[r0 g0] b0], c1 as [[r1 g1] b1], c as [[r g] b].
  unfold red, green, blue in *. simpl in Hr, Hg, Hb.
  unfold set_color_step, bind, lift. rewrite Hr, Hg, Hb, write_color_trace.
  unfold sleep. rewrite Hd. unfold emit. rewrite (Hio (io_count w)).
  cbn [trace current_hardware_color zone_io io_count].
  eexists. split; [reflexivity|]. split; [exact Hio|reflexivity].
Qed.

Lemma for_each_steps_writable (c0 c1 : rgb) (delay : float) :
  PrimFloat.ltb delay 0 = false ->
  forall (l : list Z) (cs : list rgb),
  Forall2 (step_colour c0 c1) l cs ->
  forall w : world,
  always_writable w ->
  exists w' : world,
    for_each l (set_color_step c0 c1 delay) w = (Ok tt, w')
    /\ always_writable w'
    /\ current_hardware_color w'
       = List.last (map (fun c => Some (rgb_to_hex c)) cs)
                   (current_hardware_color w).
Proof.
  intros Hd l cs HF. induction HF as [|i c l cs Hc HF IH]; intros w Hio.
  - exists w. repeat split; [exact Hio].
  - destruct (set_color_step_writable c0 c1 delay i c w Hd Hc Hio)
      as (w1 & H1 & Hio1 & C1).
    destruct (IH w1 Hio1) as (w2 & H2 & Hio2 & C2).
    exists w2. cbn [for_each]. unfold bind at 1. rewrite H1.
    split; [exact H2|]. split; [exact Hio2|]. rewrite C2, C1.
    destruct cs as [|c' cs]; [reflexivity|].
    cbn [map]. exact (last_cons_default _ _ _ _).
Qed.

(** What [set_color] leaves as last hardware colour when every write
    succeeds: the target, up to letter case. *)
Lemma set_color_writable (b : string) (d : option Z) (w : world) :
  always_writable w ->
  colour_ok (current_hardware_color w) ->
  is_hex6 b = true ->
  match d with Some z => (0 <= z)%Z | None => True end ->
  exists (w1 : world) (cur : string),
    set_color b d w = (Ok tt, w1)
    /\ always_writable w1
    /\ current_hardware_color w1 = Some cur
    /\ lower cur = lower b.
Proof.
  intros Hio Hcol Hb Hd.
  assert (Hdirect : set_color b d w = write_color b w ->
                    exists (w1 : world) (cur : string),
                      set_color b d w = (Ok tt, w1)
                      /\ always_writable w1
                      /\ current_hardware_color w1 = Some cur
                      /\ lower cur = lower b).
  { intros E. rewrite E, write_color_trace, (Hio (io_count w)).
    eexists. exists b. split; [reflexivity|]. split; [exact Hio|].
    split; reflexivity. }
  destruct d as [z|]; [|apply Hdirect, set_color_else_branch; auto].
  destruct (Z.eqb_spec z 0) as [->|Hz];
    [apply Hdirect, set_color_else_branch; auto|].
  destruct (current_hardware_color w) as [a|] eqn:Hcur;
    [|apply Hdirect, set_color_else_branch; auto].
  destruct (String.eqb_spec (lower a) (lower b)) as [E|Hne].
  { apply Hdirect, set_color_else_branch. right. right. right.
    exists a. auto. }
  cbn [colour_ok] in Hcol.
  destruct (hex_to_rgb_hex6 a Hcol) as (r0 & g0 & b0 & Da & Br0 & Bg0 & Bb0 & _).
  destruct (hex_to_rgb_hex6 b Hb) as (r1 & g1 & b1 & Db & Br1 & Bg1 & Bb1 & Eb).
  destruct (transition_colours (r0, g0, b0) (r1, g1, b1)
              (conj Br0 (conj Bg0 Bb0)) (conj Br1 (conj Bg1 Bb1)))
    as (cs & Hlen & Hs & _ & _ & _ & Hl).
  assert (Hdelay : PrimFloat.ltb (step_delay z) 0 = false)
    by (apply step_delay_nonneg; lia).
  destruct (for_each_steps_writable _ _ _ Hdelay _ _ Hs w Hio)
    as (w1 & Hrun & Hio1 & C1).
  exists w1, (rgb_to_hex (r1, g1, b1)).
  split; [|split; [exact Hio1|split]].
  - unfold set_color. rewrite Hcur.
    cbv [default from_option id truthy_int].
    rewrite (is_hex6_nonempty a Hcol).
    destruct (Z.eqb_spec z 0) as [->|_]; [contradiction|].
    destruct (String.eqb_spec (lower a) (lower b)) as [E|_]; [contradiction|].
    cbn [negb andb]. unfold bind, lift_opt. rewrite Da, Db. exact Hrun.
  - rewrite C1, Hcur. destruct cs as [|c cs]; [discriminate|].
    rewrite (last_map_cons (fun c => Some (rgb_to_hex c)) c cs
               (r0, g0, b0) (Some a)).
    now rewrite Hl.
  - rewrite Eb. apply lower_fixed.
    destruct (hex_to_rgb_of_bytes r1 g1 b1 Br1 Bg1 Bb1) as [_ Hlow].
    rewrite <- Eb. unfold is_lower_hex6 in Hlow.
    now apply andb_prop in Hlow as [_ Hlow].
Qed.

(** X6: from a last hardware colour that is unset or six hex digits,
    and with every write succeeding, [set_color] towards a six-digit
    target with a duration unset or [0 <= d < 2^32] ms leaves the last
    hardware colour on the target up to letter case, so asking for the
    same target again, with any duration, is a single direct write. *)
Theorem set_color_again_is_one_write (b : string) (d d' : option Z)
    (w : world) :
  always_writable w ->
  colour_ok (current_hardware_color w) ->
  is_hex6 b = true ->
  match d with Some z => (0 <= z < 2 ^ 32)%Z | None => True end ->
  exists (w1 : world) (cur : string),
    set_color b d w = (Ok tt, w1)
    /\ current_hardware_color w1 = Some cur
    /\ lower cur = lower b
    /\ set_color b d' w1 = write_color b w1
    /\ writes (emitted (set_color b d') w1) = [b].
Proof.
  intros Hio Hcol Hb Hd.
  assert (Hd' : match d with Some z => (0 <= z)%Z | None => True end)
    by (destruct d; [apply Hd|exact I]).
  destruct (set_color_writable b d w Hio Hcol Hb Hd')
    as (w1 & cur & Hrun & _ & Hcur & Hlow).
  exists w1, cur. repeat (split; [assumption|]).
  assert (E : set_color b d' w1 = write_color b w1).
  { apply set_color_else_branch. right. right. right. exists cur. auto. }
  split; [exact E|].
  destruct (write_color_emits b w1) as (_ & _ & H3).
  unfold emitted in *. now rewrite E.
Qed.

Lemma set_color_again_is_one_write_witness :
  exists (w1 : world) (cur : string),
    set_color "FF7F00" (Some 100%Z) (fresh_world (Some "0000ff") io_ok)
    = (Ok tt, w1)
    /\ current_hardware_color w1 = Some cur
    /\ lower cur = lower "FF7F00"
    /\ set_color "FF7F00" (Some 100%Z) w1 = write_color "FF7F00" w1
    /\ writes (emitted (set_color "FF7F00" (Some 100%Z)) w1) = ["FF7F00"].
Proof.
  apply (set_color_again_is_one_write "FF7F00" (Some 100%Z) (Some 100%Z)
           (fresh_world (Some "0000ff") io_ok)).
  - intros n. reflexivity.
  - reflexivity.
  - reflexivity.
  - split; [discriminate|reflexivity].
Defined.

(** ** The theme-file scraper *)

Lemma take_hex6_ok (s c : string) : take_hex6 s = Some c -> is_hex6 c = true.
Proof.
  unfold take_hex6. destruct (is_hex6 (substring 0 6 s)) eqn:E; [|discriminate].
  now intros [= <-].
Qed.

Lemma match_wallbash_ok (s c : string) :
  match_wallbash s = Some c -> is_hex6 c = true.
Proof.
  unfold match_wallbash.
  destruct (strip_prefix "$wallbash_pry1" s) as [r|]; [|discriminate].
  destruct (skip_re_space r) as [|ch r']; [discriminate|].
  destruct (Ascii.eqb_spec ch "=") as [->|Hne].
  - apply take_hex6_ok.
  - destruct ch as [[] [] [] [] [] [] [] []]; try discriminate.
    now contradiction Hne.
Qed.

Lemma search_wallbash_ok (s : string) :
  forall (line_start : bool) (c : string),
  search_wallbash line_start s = Some c -> is_hex6 c = true.
Proof.
  induction s as [|ch s IH]; intros line_start c; cbn [search_wallbash].
  - destruct line_start; [|discriminate].
    destruct (match_wallbash "") eqn:E; [|discriminate].
    intros [= <-]. now apply match_wallbash_ok in E.
  - destruct (if line_start then match_wallbash (String ch s) else None)
      as [c'|] eqn:E.
    + intros [= <-]. destruct line_start; [|discriminate].
      now apply match_wallbash_ok in E.
    + apply IH.
Qed.

Lemma match_wallbash_no_dollar (ch : ascii) (s : string) :
  not_dollar ch = true -> match_wallbash (String ch s) = None.
Proof.
  unfold not_dollar, match_wallbash. cbn [strip_prefix].
  rewrite Ascii.eqb_sym. intros H. apply negb_true_iff in H. now rewrite H.
Qed.

Lemma search_wallbash_no_dollar (s : string) :
  forall line_start : bool,
  string_forall not_dollar s = true -> search_wallbash line_start s = None.
Proof.
  induction s as [|ch s IH]; intros line_start H; cbn [search_wallbash].
  - destruct line_start; reflexivity.
  - cbn [string_forall] in H. apply andb_prop in H as [Hc Hs].
    rewrite (match_wallbash_no_dollar ch s Hc).
    destruct line_start; now apply IH.
Qed.

(** X7: the scraper never raises and never touches the controller; it
    returns nothing when the theme file is missing, unreadable or
    without a dollar sign, and otherwise nothing or a string of exactly
    six hex digits, which [hex_to_rgb] decodes to three bytes. *)
Theorem get_wallpaper_primary_color_result (theme : read_result) (a : gui) :
  exists (o : option string) (a' : gui),
    get_wallpaper_primary_color theme a = (Ok o, a')
    /\ ctl a' = ctl a
    /\ colour_ok o
    /\ (forall c, o = Some c ->
                  exists rgb_c : rgb,
                    hex_to_rgb c = Some rgb_c /\ rgb_bytes rgb_c)
    /\ (theme = FileNotFound \/ theme = ReadError
        \/ (exists content, theme = FileText content
                            /\ string_forall not_dollar content = true) ->
        o = None).
Proof.
  assert (Hdec : forall c, is_hex6 c = true ->
            exists rgb_c : rgb, hex_to_rgb c = Some rgb_c /\ rgb_bytes rgb_c).
  { intros c Hc.
    destruct (hex_to_rgb_hex6 c Hc) as (r & g & b & Hd & Hr & Hg & Hb & _).
    exists (r, g, b). split; [exact Hd|]. exact (conj Hr (conj Hg Hb)). }
  destruct theme as [| |content]; cbn [get_wallpaper_primary_color].
  - eexists. eexists. split; [reflexivity|]. cbn.
    repeat split; try discriminate; auto.
  - eexists. eexists. split; [reflexivity|]. cbn.
    repeat split; try discriminate; auto.
  - destruct (search_wallbash true content) as [c|] eqn:E.
    + pose proof (search_wallbash_ok content true c E) as Hc.
      eexists. eexists. split; [reflexivity|]. cbn.
      split; [reflexivity|]. split; [exact Hc|]. split.
      * intros c' [= <-]. now apply Hdec.
      * intros [H | [H | (ct & [= <-] & Hnd)]]; try discriminate.
        rewrite (search_wallbash_no_dollar content true Hnd) in E.
        discriminate.
    + eexists. eexists. split; [reflexivity|]. cbn.
      repeat split; try discriminate; auto.
Qed.

Lemma get_wallpaper_primary_color_result_witness :
  exists (o : option string) (a' : gui),
    get_wallpaper_primary_color (FileText "# no colours here") (init_gui ∅ io_ok)
    = (Ok o, a')
    /\ ctl a' = ctl (init_gui ∅ io_ok)
    /\ colour_ok o
    /\ (forall c, o = Some c ->
                  exists rgb_c : rgb,
                    hex_to_rgb c = Some rgb_c /\ rgb_bytes rgb_c)
    /\ (FileText "# no colours here" = FileNotFound
        \/ FileText "# no colours here" = ReadError
        \/ (exists content,
               FileText "# no colours here" = FileText content
               /\ string_forall not_dollar content = true) ->
        o = None).
Proof.
  exact (get_wallpaper_primary_color_result (FileText "# no colours here")
           (init_gui ∅ io_ok)).
Defined.

Lemma append_nil (r : string) : "" +:+ r = r.
Proof. reflexivity. Qed.

Lemma append_cons (ch : ascii) (p r : string) :
  String ch p +:+ r = String ch (p +:+ r).
Proof. reflexivity. Qed.

Lemma strip_prefix_append (p r : string) : strip_prefix p (p +:+ r) = Some r.
Proof.
  induction p as [|ch p IH].
  - rewrite append_nil. now destruct r.
  - rewrite append_cons. cbn [strip_prefix]. now rewrite Ascii.eqb_refl.
Qed.

Lemma skip_re_space_append (ws : string) (ch : ascii) (r : string) :
  string_forall is_re_space ws = true -> is_re_space ch = false ->
  skip_re_space (ws +:+ String ch r) = String ch r.
Proof.
  intros Hws Hch. induction ws as [|x ws IH].
  - rewrite append_nil. cbn [skip_re_space]. now rewrite Hch.
  - rewrite append_cons. cbn [skip_re_space string_forall] in *.
    apply andb_prop in Hws as [-> Hws]. now apply IH.
Qed.

Lemma hex_char_not_space (ch : ascii) :
  is_hex_char ch = true -> is_re_space ch = false.
Proof.
  intros H. apply is_hex_char_in in H. cbn in H.
  repeat (destruct H as [<-|H]; [reflexivity|]). contradiction.
Qed.

Lemma take_hex6_append (c rest : string) :
  is_hex6 c = true -> take_hex6 (c +:+ rest) = Some c.
Proof.
  intros H. pose proof H as H'.
  apply is_hex6_inv in H as (c1 & c2 & c3 & c4 & c5 & c6 & -> & _).
  unfold take_hex6. rewrite !append_cons, append_nil. cbn [substring].
  replace (substring 0 0 rest) with EmptyString by now destruct rest.
  now rewrite H'.
Qed.

Lemma search_wallbash_skips (header : string) :
  forall (line_start : bool) (line c : string),
  string_forall not_dollar header = true ->
  complete_lines header = true ->
  (header = "" -> line_start = true) ->
  match_wallbash line = Some c ->
  search_wallbash line_start (header +:+ line) = Some c.
Proof.
  induction header as [|ch header IH]; intros line_start line c Hnd Hcl Hst Hm.
  - rewrite (Hst eq_refl), append_nil.
    destruct line as [|x line]; cbn [search_wallbash]; now rewrite Hm.
  - cbn [string_forall] in Hnd. apply andb_prop in Hnd as [Hc Hnd].
    rewrite append_cons. cbn [search_wallbash].
    rewrite (match_wallbash_no_dollar ch _ Hc).
    assert (E : (if line_start then @None string else None) = None)
      by now destruct line_start.
    rewrite E. apply IH; try assumption.
    + destruct header; [reflexivity|exact Hcl].
    + intros ->. exact Hcl.
Qed.

(** X8: in a theme text whose lines before the key are complete and hold
    no dollar sign, a line [$wallbash_pry1], optional white space, [=],
    optional white space and six hex digits yields exactly those digits,
    whatever follows them. *)
Theorem search_wallbash_finds (header ws1 ws2 c rest : string) :
  string_forall not_dollar header = true ->
  complete_lines header = true ->
  string_forall is_re_space ws1 = true ->
  string_forall is_re_space ws2 = true ->
  is_hex6 c = true ->
  search_wallbash true
    (header +:+ "$wallbash_pry1" +:+ ws1 +:+ "=" +:+ ws2 +:+ c +:+ rest)
  = Some c.
Proof.
  intros Hnd Hcl H1 H2 Hc.
  apply search_wallbash_skips; try assumption; [reflexivity|].
  unfold match_wallbash. rewrite strip_prefix_append.
  change ("=" +:+ ws2 +:+ c +:+ rest) with (String "=" (ws2 +:+ c +:+ rest)).
  rewrite (skip_re_space_append ws1 "=" _ H1 eq_refl).
  pose proof Hc as Hc'.
  apply is_hex6_inv in Hc' as (c1 & c2 & c3 & c4 & c5 & c6 & -> & Hf).
  inversion Hf as [|? ? Hc1 _]; subst.
  change (String c1 (String c2 (String c3 (String c4 (String c5
            (String c6 ""))))) +:+ rest)
    with (String c1 (String c2 (String c3 (String c4 (String c5
            (String c6 "")))) +:+ rest)).
  rewrite (skip_re_space_append ws2 c1 _ H2 (hex_char_not_space c1 Hc1)).
  exact (take_hex6_append _ rest Hc).
Qed.

Lemma search_wallbash_finds_witness :
  search_wallbash true
    ("# theme" +:+ String "010" "" +:+ "$wallbash_pry1" +:+ " " +:+ "="
     +:+ "  " +:+ "12abEF" +:+ "ff")
  = Some "12abEF".
Proof.
  apply (search_wallbash_finds ("# theme" +:+ String "010" "")
           " " "  " "12abEF" "ff"); reflexivity.
Defined.

(** ** Who may write *)

Lemma exit_app_run (s : system) :
  exists s1 : system,
    stop_active_thread s = (Ok tt, s1)
    /\ exit_app s
       = (Ok tt, mkSystem (threads s1) (next_thread s1) (active_thread s1)
                          (settings s1) true (wld s1)).
Proof.
  destruct (stop_active_thread_run s) as (s1 & evs & E & _).
  exists s1. split; [exact E|]. unfold exit_app, bind. now rewrite E.
Qed.

Lemma thread_iteration_not_running (h : nat) (s : system) :
  (forall t, threads s !! h = Some t -> running t = false) ->
  thread_iteration h s = s.
Proof.
  intros H. unfold thread_iteration.
  destruct (threads s !! h) as [t|] eqn:Ht; [|reflexivity].
  now rewrite (H t eq_refl).
Qed.

(** X9: in every state the controller can reach, an iteration of a
    thread that is not the one in the slot does nothing at all, so a
    superseded animation never writes again; and after [exit_app] no
    thread iterates any more. *)
Theorem only_the_active_thread_iterates (stored : gmap string string)
    (w : world) (ops : list op) (h : nat) :
  (active_thread (run_ops ops (init_system stored w)) <> Some h ->
   thread_iteration h (run_ops ops (init_system stored w))
   = run_ops ops (init_system stored w))
  /\ thread_iteration h (exec OpExitApp (run_ops ops (init_system stored w)))
     = exec OpExitApp (run_ops ops (init_system stored w))
  /\ quit_requested (exec OpExitApp (run_ops ops (init_system stored w)))
     = true.
Proof.
  pose proof (run_ops_slot ops _ (init_system_slot stored w)) as Hinv.
  split; [|split].
  - intros Hne. apply thread_iteration_not_running. intros t Ht.
    destruct (running t) eqn:Hr; [|reflexivity].
    now specialize (Hinv h t Ht Hr).
  - apply thread_iteration_not_running. intros t Ht.
    pose proof (stop_active_thread_idle _ Hinv) as Hi.
    destruct (exit_app_run (run_ops ops (init_system stored w)))
      as (s1 & E & Ex).
    cbn [exec] in Ht. rewrite Ex in Ht. rewrite E in Hi. cbn in Ht, Hi.
    exact (Hi h t Ht).
  - destruct (exit_app_run (run_ops ops (init_system stored w)))
      as (s1 & E & Ex).
    cbn [exec]. now rewrite Ex.
Qed.

Lemma only_the_active_thread_iterates_witness :
  thread_iteration 0
    (run_ops [OpActivateMode "Rainbow" false; OpThreadIteration 0;
              OpActivateMode "Police" false]
             (init_system ∅ (fresh_world None io_ok)))
  = run_ops [OpActivateMode "Rainbow" false; OpThreadIteration 0;
             OpActivateMode "Police" false]
            (init_system ∅ (fresh_world None io_ok)).
Proof.
  apply (proj1 (only_the_active_thread_iterates ∅ (fresh_world None io_ok)
                  [OpActivateMode "Rainbow" false; OpThreadIteration 0;
                   OpActivateMode "Police" false]
                  0%nat)).
  vm_compute. discriminate.
Defined.

(** ** The animated modes *)

Lemma activate_mode_animated (mode : string) (t : thread) (is_startup : bool) :
  In (mode, t) animated_modes ->
  activate_mode mode is_startup = (do_ stop_active_thread; start_thread t).
Proof.
  intros [[= <- <-] | [[= <- <-] | [[= <- <-] | []]]]; reflexivity.
Qed.

Lemma launch_run (t : thread) (s : system) :
  launch t s
  = (Ok tt,
     mkSystem (<[next_thread s := started t]> (threads s))
              (S (next_thread s)) (Some (next_thread s)) (settings s)
              (quit_requested s)
              (mkWorld (current_hardware_color (wld s)) (zone_io (wld s))
                       (io_count (wld s))
                       (trace (wld s) ++ [EvLog DebugThreadStarted]))).
Proof. reflexivity. Qed.

(** X10: each animated mode, activated in any state the controller can
    reach, ends the running animation and starts a new thread object of
    its class as the only running thread and the active one, without
    writing to the zone file or touching the stored settings. *)
Theorem activate_animated_mode (stored : gmap string string) (w : world)
    (ops : list op) (mode : string) (t : thread) (is_startup : bool) :
  In (mode, t) animated_modes ->
  exists (s' : system) (evs : list event),
    activate_mode mode is_startup (run_ops ops (init_system stored w))
    = (Ok tt, s')
    /\ live s' = [next_thread (run_ops ops (init_system stored w))]
    /\ active_thread s'
       = Some (next_thread (run_ops ops (init_system stored w)))
    /\ threads s' !! next_thread (run_ops ops (init_system stored w))
       = Some (started t)
    /\ settings s' = settings (run_ops ops (init_system stored w))
    /\ trace (wld s')
       = trace (wld (run_ops ops (init_system stored w))) ++ evs
    /\ writes evs = []
    /\ current_hardware_color (wld s')
       = current_hardware_color (wld (run_ops ops (init_system stored w))).
Proof.
  intros Hin. rewrite (activate_mode_animated mode t is_startup Hin).
  pose proof (run_ops_slot ops _ (init_system_slot stored w)) as Hinv.
  set (s := run_ops ops (init_system stored w)) in *.
  pose proof (stop_active_thread_idle s Hinv) as Hi.
  destruct (stop_active_thread_run s)
    as (s1 & evs & E & Ha & _ & Hnx & Hst & _ & Htr & Hact & Hcol & _).
  rewrite E in Hi. cbn [snd] in Hi.
  assert (E1 : stop_active_thread s1 = (Ok tt, s1)).
  { unfold stop_active_thread. now rewrite Ha. }
  assert (Erun : (do_ stop_active_thread; start_thread t) s = launch t s1).
  { unfold start_thread, bind. now rewrite E, E1. }
  pose proof (launch_live t s1 Hi) as Hlive.
  rewrite Erun. rewrite launch_run in *. cbn [snd] in Hlive.
  eexists. exists (evs ++ [EvLog DebugThreadStarted]).
  split; [reflexivity|]. cbn [active_thread threads settings wld trace
                              current_hardware_color].
  rewrite <- Hnx. split; [exact Hlive|]. split; [reflexivity|].
  split; [apply lookup_insert_eq|]. split; [exact Hst|].
  split; [now rewrite Htr, app_assoc|]. split; [|exact Hcol].
  unfold writes. rewrite actions_app, Hact. reflexivity.
Qed.

Lemma activate_animated_mode_witness :
  exists (s' : system) (evs : list event),
    activate_mode "Police" false
      (run_ops [OpActivateMode "Rainbow" false]
               (init_system ∅ (fresh_world None io_ok)))
    = (Ok tt, s')
    /\ live s'
       = [next_thread (run_ops [OpActivateMode "Rainbow" false]
                         (init_system ∅ (fresh_world None io_ok)))]
    /\ active_thread s'
       = Some (next_thread (run_ops [OpActivateMode "Rainbow" false]
                              (init_system ∅ (fresh_world None io_ok))))
    /\ threads s' !! next_thread (run_ops [OpActivateMode "Rainbow" false]
                                    (init_system ∅ (fresh_world None io_ok)))
       = Some (started (new_PoliceThread (Some 100%Z)))
    /\ settings s'
       = settings (run_ops [OpActivateMode "Rainbow" false]
                     (init_system ∅ (fresh_world None io_ok)))
    /\ trace (wld s')
       = trace (wld (run_ops [OpActivateMode "Rainbow" false]
                       (init_system ∅ (fresh_world None io_ok)))) ++ evs
    /\ writes evs = []
    /\ current_hardware_color (wld s')
       = current_hardware_color
           (wld (run_ops [OpActivateMode "Rainbow" false]
                   (init_system ∅ (fresh_world None io_ok)))).
Proof.
  apply (activate_animated_mode ∅ (fresh_world None io_ok)
           [OpActivateMode "Rainbow" false] "Police"
           (new_PoliceThread (Some 100%Z)) false).
  right. right. left. reflexivity.
Defined.

(** ** What is stored, and what a restart does with it *)

Lemma start_thread_run (t : thread) (s : system) :
  fst (start_thread t s) = Ok tt
  /\ settings (snd (start_thread t s)) = settings s.
Proof.
  unfold start_thread, bind.
  destruct (stop_active_thread_run s) as (s1 & evs & E & _ & _ & _ & Hst & _).
  rewrite E, launch_run. cbn [fst snd settings]. auto.
Qed.

(** [activate_mode] never touches the stored settings. *)
Lemma activate_mode_settings (mode : string) (is_startup : bool) (s : system) :
  settings (snd (activate_mode mode is_startup s)) = settings s.
Proof.
  unfold activate_mode, bind.
  destruct (stop_active_thread_run s) as (s1 & evs & E & _ & _ & _ & Hst & _).
  rewrite E.
  destruct (String.eqb mode "Static Color").
  { unfold in_world. destruct (set_color _ _ (wld s1)) as [r w']. exact Hst. }
  destruct (String.eqb mode "Rainbow").
  { now rewrite (proj2 (start_thread_run _ s1)). }
  destruct (String.eqb mode "New Year's").
  { now rewrite (proj2 (start_thread_run _ s1)). }
  destruct (String.eqb mode "Police").
  { now rewrite (proj2 (start_thread_run _ s1)). }
  exact Hst.
Qed.

(** At start-up [activate_mode] has nothing to decode: it returns
    normally for every mode and every stored colour. *)
Lemma activate_mode_startup (mode : string) (s : system) :
  fst (activate_mode mode true s) = Ok tt.
Proof.
  unfold activate_mode, bind.
  destruct (stop_active_thread_run s) as (s1 & evs & E & _). rewrite E.
  destruct (String.eqb mode "Static Color").
  { unfold in_world.
    rewrite (set_color_else_branch _ None (wld s1)) by now left.
    now rewrite write_color_trace. }
  destruct (String.eqb mode "Rainbow"); [apply start_thread_run|].
  destruct (String.eqb mode "New Year's"); [apply start_thread_run|].
  destruct (String.eqb mode "Police"); [apply start_thread_run|].
  reflexivity.
Qed.

(** A fresh controller whose stored mode is the static one writes the
    stored colour once, directly. *)
Lemma load_settings_static (st : gmap string string) (c : string) (w : world) :
  st !! "lastMode" = Some "Static Color" ->
  st !! "lastStaticColor" = Some c ->
  load_settings (init_system st w) = in_world (write_color c) (init_system st w).
Proof.
  intros Hm Hc. unfold load_settings, value, init_system. cbn [settings].
  rewrite Hm. cbv [default from_option id]. unfold activate_mode, bind.
  cbn [stop_active_thread active_thread String.eqb Ascii.eqb Bool.eqb].
  unfold value. cbn [settings]. rewrite Hc. cbv [default from_option id].
  unfold in_world. cbn [wld].
  now rewrite (set_color_else_branch c None w) by now left.
Qed.

(** What [apply_static_color] leaves in the slot and in the settings. *)
Lemma apply_static_color_run (color_hex : string) (s : system) :
  match apply_static_color color_hex s with
  | (Ok _, s') =>
      active_thread s' = None
      /\ settings s'
         = <["lastMode" := "Static Color"]>
             (<["lastStaticColor" := color_hex]> (settings s))
      /\ forall w : world,
           load_settings (init_system (settings s') w)
           = in_world (write_color color_hex) (init_system (settings s') w)
  | (Raise _, s') => active_thread s' = None /\ settings s' = settings s
  end.
Proof.
  unfold apply_static_color, bind.
  destruct (stop_active_thread_run s) as (s1 & evs & E & Ha & _ & _ & Hst & _).
  rewrite E. unfold in_world.
  destruct (set_color color_hex (Some STATIC_DURATION_MS) (wld s1))
    as [[[]|e] w']; [|split; assumption].
  unfold set_value at 1. cbn [settings threads next_thread active_thread
                              quit_requested wld].
  assert (Hload : forall st : gmap string string,
             st = <["lastMode" := "Static Color"]>
                    (<["lastStaticColor" := color_hex]> (settings s)) ->
             forall w : world,
               load_settings (init_system st w)
               = in_world (write_color color_hex) (init_system st w)).
  { intros st -> w. apply load_settings_static.
    - apply lookup_insert_eq.
    - rewrite lookup_insert_ne by discriminate. apply lookup_insert_eq. }
  rewrite Hst.
  destruct (<["lastStaticColor" := color_hex]> (settings s) !! "lastMode")
    as [m|] eqn:Hm.
  - destruct (String.eqb_spec m "Static Color") as [->|Hne].
    + cbn [active_thread settings].
      assert (Eq : <["lastStaticColor" := color_hex]> (settings s)
                   = <["lastMode" := "Static Color"]>
                       (<["lastStaticColor" := color_hex]> (settings s)))
        by (symmetry; now apply insert_id).
      split; [exact Ha|]. split; [exact Eq|]. now apply Hload.
    + unfold set_value. cbn [active_thread settings].
      split; [exact Ha|]. split; [reflexivity|]. now apply Hload.
  - unfold set_value. cbn [active_thread settings].
    split; [exact Ha|]. split; [reflexivity|]. now apply Hload.
Qed.

(** X11: [apply_static_color] always ends the running animation; when
    its transition returns, the colour and the static mode are stored,
    so that a restart with these settings is one direct write of that
    colour; when the transition raises, nothing is stored. *)
Theorem apply_static_color_persists (color_hex : string) (s : system) :
  match apply_static_color color_hex s with
  | (Ok _, s') =>
      active_thread s' = None
      /\ settings s'
         = <["lastMode" := "Static Color"]>
             (<["lastStaticColor" := color_hex]> (settings s))
      /\ forall w : world,
           load_settings (init_system (settings s') w)
           = in_world (write_color color_hex) (init_system (settings s') w)
  | (Raise _, s') => active_thread s' = None /\ settings s' = settings s
  end.
Proof. exact (apply_static_color_run color_hex s). Qed.

(** X12: choosing a mode in the tree stores it before activating it, so
    the stored mode is the chosen one whatever the activation does, and
    a restart with these settings activates that mode again, as at
    start-up. *)
Theorem on_mode_persists (mode : string) (s : system) :
  mode <> "" ->
  settings (snd (on_mode mode s)) = <["lastMode" := mode]> (settings s)
  /\ forall w : world,
       load_settings (init_system (settings (snd (on_mode mode s))) w)
       = activate_mode mode true
           (init_system (settings (snd (on_mode mode s))) w).
Proof.
  intros Hne.
  assert (E : settings (snd (on_mode mode s))
              = <["lastMode" := mode]> (settings s)).
  { unfold on_mode. destruct (String.eqb_spec mode "") as [->|_];
      [contradiction|].
    unfold bind, set_value. cbn iota beta.
    now rewrite activate_mode_settings. }
  split; [exact E|]. intros w. rewrite E.
  unfold load_settings, value, init_system. cbn [settings].
  rewrite lookup_insert_eq. reflexivity.
Qed.

Lemma on_mode_persists_witness :
  settings (snd (on_mode "Police" (init_system ∅ (fresh_world None io_ok))))
  = <["lastMode" := "Police"]>
      (settings (init_system ∅ (fresh_world None io_ok)))
  /\ forall w : world,
       load_settings
         (init_system
            (settings
               (snd (on_mode "Police"
                       (init_system ∅ (fresh_world None io_ok))))) w)
       = activate_mode "Police" true
           (init_system
              (settings
                 (snd (on_mode "Police"
                         (init_system ∅ (fresh_world None io_ok))))) w).
Proof.
  apply (on_mode_persists "Police" (init_system ∅ (fresh_world None io_ok))).
  discriminate.
Defined.

(** ** Start-up *)

(** X13: start-up never raises, whatever is stored, whatever the theme
    file holds and whether or not the zone file can be written.  A
    colour found in the theme file is written once, directly, and
    replaces the stored static colour and mode, even when the write
    fails; the stored mode is then not activated and no thread is
    touched.  Without one, start-up is [load_settings] after the line
    of the scraper. *)
Theorem initialize_state_startup (theme : read_result) (a : gui) :
  match scraped theme with
  | Some c =>
      initialize_state theme a
      = (Ok tt,
         mkGui (mkSystem (threads (ctl a)) (next_thread (ctl a))
                         (active_thread (ctl a))
                         (<["lastStaticColor" := c]>
                            (<["lastMode" := "Static Color"]>
                               (settings (ctl a))))
                         (quit_requested (ctl a))
                         (snd (write_color c (wld (ctl a)))))
               (console a ++ [DebugColorFound c]))
  | None =>
      initialize_state theme a
      = (Ok tt,
         mkGui (snd (load_settings (ctl a))) (console a ++ [miss_line theme]))
  end.
Proof.
  assert (Hmiss : forall l : theme_line,
             (do theme_applied <-
                (do wallpaper_color_hex <- (do_ print_line l; ret None);
                 if truthy_opt wallpaper_color_hex then
                   let c := default "" wallpaper_color_hex in
                   fun a =>
                     match (do_ in_ctl (in_world (set_color c None));
                            do_ in_ctl (set_value "lastMode" "Static Color");
                            do_ in_ctl (set_value "lastStaticColor" c);
                            ret true) a with
                     | (Ok r, a') => (Ok r, a')
                     | (Raise e, a') =>
                         (do_ print_line (ErrApplyFailed c e); ret false) a'
                     end
                 else ret false);
              if theme_applied then ret tt else in_ctl load_settings) a
             = (Ok tt, mkGui (snd (load_settings (ctl a))) (console a ++ [l]))).
  { intros l. unfold bind, print_line, ret, in_ctl. cbn [truthy_opt ctl console].
    pose proof (activate_mode_startup
                  (value "lastMode" "Static Color" (ctl a)) (ctl a)) as Hr.
    fold (load_settings (ctl a)) in Hr.
    destruct (load_settings (ctl a)) as [r s']. cbn [fst snd] in *.
    now rewrite Hr. }
  unfold initialize_state, initial_color_setup.
  destruct theme as [| |content];
    cbn [scraped miss_line get_wallpaper_primary_color]; try exact (Hmiss _).
  destruct (search_wallbash true content) as [c|] eqn:Es; [|exact (Hmiss _)].
  pose proof (search_wallbash_ok content true c Es) as Hc.
  destruct c as [|ch c]; [discriminate|].
  unfold bind, print_line, ret, in_ctl, in_world, set_value.
  cbn [truthy_opt ctl console]. cbv [default from_option id].
  rewrite (set_color_else_branch _ None (wld (ctl a))) by now left.
  rewrite write_color_trace. reflexivity.
Qed.

(** ** Nothing raises *)



Lemma rgb_to_hex_hex6 (c : rgb) : rgb_bytes c -> is_hex6 (rgb_to_hex c) = true.
Proof.
  destruct c as [[r g] b]. intros (Hr & Hg & Hb).
  apply lower_hex6_is_hex6. now apply hex_to_rgb_of_bytes.
Qed.






(** One step of a transition between decodable colours returns, and the
    last hardware colour stays six hex digits whether or not the write
    succeeds. *)
Lemma set_color_step_sound (c0 c1 : rgb) (delay : float) (i : Z) (c : rgb)
    (w : world) :
  PrimFloat.ltb delay 0 = false ->
  step_colour c0 c1 i c -> rgb_bytes c ->
  colour_ok (current_hardware_color w) ->
  exists w' : world,
    set_color_step c0 c1 delay i w = (Ok tt, w')
    /\ colour_ok (current_hardware_color w').
Proof.
  intros Hd (Hr & Hg & Hb) Hbytes Hcol.
  pose proof (rgb_to_hex_hex6 c Hbytes) as Hhex.
  destruct c0 as [[r0 g0] b0], c1 as [[r1 g1] b1], c as [[r g] b].
  unfold red, green, blue in *. simpl in Hr, Hg, Hb.
  unfold set_color_step, bind, lift. rewrite Hr, Hg, Hb, write_color_trace.
  unfold sleep. rewrite Hd. unfold emit.
  cbn [trace current_hardware_color zone_io io_count].
  eexists. split; [reflexivity|]. cbn [current_hardware_color].
  destruct (zone_io w (io_count w)); assumption.
Qed.

Lemma for_each_steps_sound (c0 c1 : rgb) (delay : float) :
  PrimFloat.ltb delay 0 = false ->
  rgb_bytes c0 -> rgb_bytes c1 ->
  forall (l : list Z) (cs : list rgb),
  Forall2 (fun i c => step_colour c0 c1 i c /\ rgb_between c0 c1 c) l cs ->
  forall w : world,
  colour_ok (current_hardware_color w) ->
  exists w' : world,
    for_each l (set_color_step c0 c1 delay) w = (Ok tt, w')
    /\ colour_ok (current_hardware_color w').
Proof.
  intros Hd B0 B1 l cs HF.
  induction HF as [|i c l cs [Hc Hb] HF IH]; intros w Hcol.
  - exists w. split; [reflexivity|assumption].
  - destruct (set_color_step_sound c0 c1 delay i c w Hd Hc
                (rgb_between_bytes _ _ _ B0 B1 Hb) Hcol) as (w1 & H1 & C1).
    destruct (IH w1 C1) as (w2 & H2 & C2).
    exists w2. cbn [for_each]. unfold bind at 1. rewrite H1. auto.
Qed.

(** [set_color] towards six hex digits, from a last hardware colour of
    six hex digits if there is one, returns normally and keeps it so. *)
Lemma set_color_sound (b : string) (d : option Z) (w : world) :
  colour_ok (current_hardware_color w) ->
  is_hex6 b = true ->
  match d with Some z => (0 <= z)%Z | None => True end ->
  exists w' : world,
    set_color b d w = (Ok tt, w') /\ colour_ok (current_hardware_color w').
Proof.
  intros Hcol Hb Hd.
  assert (Hdirect : set_color b d w = write_color b w ->
                    exists w' : world,
                      set_color b d w = (Ok tt, w')
                      /\ colour_ok (current_hardware_color w')).
  { intros E. rewrite E, write_color_trace. eexists. split; [reflexivity|].
    cbn [current_hardware_color].
    destruct (zone_io w (io_count w)); assumption. }
  destruct d as [z|]; [|apply Hdirect, set_color_else_branch; auto].
  destruct (Z.eqb_spec z 0) as [->|Hz];
    [apply Hdirect, set_color_else_branch; auto|].
  destruct (current_hardware_color w) as [a|] eqn:Hcur;
    [|apply Hdirect, set_color_else_branch; auto].
  destruct (String.eqb_spec (lower a) (lower b)) as [E|Hne].
  { apply Hdirect, set_color_else_branch. right. right. right.
    exists a. auto. }
  cbn [colour_ok] in Hcol.
  destruct (hex_to_rgb_hex6 a Hcol) as (r0 & g0 & b0 & Da & Br0 & Bg0 & Bb0 & _).
  destruct (hex_to_rgb_hex6 b Hb) as (r1 & g1 & b1 & Db & Br1 & Bg1 & Bb1 & _).
  assert (B0 : rgb_bytes (r0, g0, b0)) by exact (conj Br0 (conj Bg0 Bb0)).
  assert (B1 : rgb_bytes (r1, g1, b1)) by exact (conj Br1 (conj Bg1 Bb1)).
  destruct (transition_colours _ _ B0 B1) as (cs & _ & Hs & _ & Hbt & _).
  assert (Hdelay : PrimFloat.ltb (step_delay z) 0 = false)
    by (apply step_delay_nonneg; lia).
  destruct (for_each_steps_sound _ _ _ Hdelay B0 B1 _ _
              (Forall2_Forall_r _ _ _ _ Hs Hbt) w) as (w' & Hrun & C').
  { now rewrite Hcur. }
  exists w'. split; [|exact C'].
  unfold set_color. rewrite Hcur. cbv [default from_option id truthy_int].
  rewrite (is_hex6_nonempty a Hcol).
  destruct (Z.eqb_spec z 0) as [->|_]; [contradiction|].
  destruct (String.eqb_spec (lower a) (lower b)) as [E|_]; [contradiction|].
  cbn [negb andb]. unfold bind, lift_opt. rewrite Da, Db. exact Hrun.
Qed.


Lemma returns_sound_bind {X Y} (c : C X) (k : X -> C Y) :
  returns_sound c -> (forall x, returns_sound (k x)) ->
  returns_sound (bind c k).
Proof.
  intros Hc Hk s Hs. destruct (Hc s Hs) as (x & s1 & E1 & Hs1).
  destruct (Hk x s1 Hs1) as (y & s2 & E2 & Hs2).
  exists y, s2. unfold bind. rewrite E1. auto.
Qed.

Lemma returns_sound_stop_active_thread : returns_sound stop_active_thread.
Proof.
  intros s (Hc & Hs & Ht).
  destruct (stop_active_thread_run s)
    as (s1 & evs & E & _ & Hth & _ & Hst & _ & _ & _ & Hcol & _).
  exists tt, s1. split; [exact E|].
  split; [now rewrite Hcol|]. split; [now rewrite Hst|].
  intros h t Hl Hr. rewrite Hth in Hl.
  destruct (active_thread s) as [h0|]; [|eauto].
  destruct (threads s !! h0) as [t0|] eqn:E0; [|eauto].
  destruct (decide (h0 = h)) as [<-|Hne].
  - rewrite lookup_insert_eq in Hl. injection Hl as <-. discriminate.
  - rewrite lookup_insert_ne in Hl by assumption. eauto.
Qed.



Lemma returns_sound_set_color (s : system) (c : string) (d : option Z) :
  sound s -> is_hex6 c = true ->
  match d with Some z => (0 <= z)%Z | None => True end ->
  exists s' : system,
    in_world (set_color c d) s = (Ok tt, s') /\ sound s'
    /\ settings s' = settings s.
Proof.
  intros (Hc & Hs & Ht) Hhex Hd.
  destruct (set_color_sound c d (wld s) Hc Hhex Hd) as (w' & E & C').
  unfold in_world. rewrite E. eexists. split; [reflexivity|].
  split; [|reflexivity]. split; [exact C'|]. split; [exact Hs|exact Ht].
Qed.

Lemma returns_sound_set_value (key v : string) :
  (key = "lastStaticColor" -> is_hex6 v = true) ->
  returns_sound (set_value key v).
Proof.
  intros Hv s (Hc & Hs & Ht). exists tt. eexists. split; [reflexivity|].
  split; [exact Hc|]. split; [|exact Ht]. cbn [settings].
  destruct (decide (key = "lastStaticColor")) as [->|Hne].
  - rewrite lookup_insert_eq. now apply Hv.
  - now rewrite lookup_insert_ne.
Qed.


Lemma returns_sound_apply_static_color (color_hex : string) :
  is_hex6 color_hex = true -> returns_sound (apply_static_color color_hex).
Proof.
  intros Hhex. unfold apply_static_color.
  apply returns_sound_bind; [apply returns_sound_stop_active_thread|intros _].
  apply returns_sound_bind.
  { intros s Hs.
    destruct (returns_sound_set_color s color_hex (Some STATIC_DURATION_MS) Hs
                Hhex) as (s' & E & Hs' & _); [discriminate|].
    exists tt, s'. split; assumption. }
  intros _. apply returns_sound_bind;
    [now apply returns_sound_set_value|intros _].
  intros s Hs.
  assert (Hset : exists (x : unit) (s' : system),
             set_value "lastMode" "Static Color" s = (Ok x, s') /\ sound s').
  { apply returns_sound_set_value; [discriminate|exact Hs]. }
  destruct (settings s !! "lastMode") as [m|]; [|exact Hset].
  destruct (String.eqb m "Static Color"); [|exact Hset].
  exists tt, s. split; [reflexivity|exact Hs].
Qed.







Lemma init_system_sound (stored : gmap string string) (w : world) :
  colour_ok (stored !! "lastStaticColor") ->
  colour_ok (current_hardware_color w) ->
  sound (init_system stored w).
Proof.
  intros Hs Hc. split; [exact Hc|]. split; [exact Hs|].
  intros h t Hl. cbn [init_system threads] in Hl.
  rewrite lookup_empty in Hl. discriminate.
Qed.



(** ** The wallpaper button *)

Lemma scraped_ok (theme : read_result) (c : string) :
  scraped theme = Some c -> is_hex6 c = true.
Proof.
  destruct theme as [| |content]; try discriminate.
  apply search_wallbash_ok.
Qed.

(** The scraper returns what it finds after printing one line. *)
Lemma get_wallpaper_primary_color_run (theme : read_result) (a : gui) :
  get_wallpaper_primary_color theme a
  = (Ok (scraped theme),
     mkGui (ctl a)
           (console a ++ [match scraped theme with
                          | Some c => DebugColorFound c
                          | None => miss_line theme
                          end])).
Proof.
  destruct theme as [| |content];
    cbn [get_wallpaper_primary_color scraped miss_line]; try reflexivity.
  destruct (search_wallbash true content); reflexivity.
Qed.

(** What [set_color] sends to the zone file last: the target, up to
    letter case. *)
Lemma set_color_last_write (b : string) (d : option Z) (w : world) :
  colour_ok (current_hardware_color w) ->
  is_hex6 b = true ->
  match d with Some z => (0 <= z)%Z | None => True end ->
  exists (w' : world) (evs : list event) (p : string),
    set_color b d w = (Ok tt, w')
    /\ trace w' = trace w ++ evs
    /\ writes evs <> []
    /\ List.last (writes evs) "" = p
    /\ lower p = lower b.
Proof.
  intros Hcol Hb Hd.
  destruct (set_color_sound b d w Hcol Hb Hd) as (w' & E & _).
  destruct (tracks_set_color b d w) as (evs & T & _).
  rewrite E in T. cbn [snd] in T.
  assert (Em : emitted (set_color b d) w = evs).
  { apply emitted_of_trace. now rewrite E. }
  subst evs. exists w', (emitted (set_color b d) w).
  assert (Hdirect : set_color b d w = write_color b w ->
                    exists p : string,
                      (Ok tt, w') = (Ok tt, w')
                      /\ trace w' = trace w ++ emitted (set_color b d) w
                      /\ writes (emitted (set_color b d) w) <> []
                      /\ List.last (writes (emitted (set_color b d) w)) "" = p
                      /\ lower p = lower b).
  { intros E'. exists b. split; [reflexivity|]. split; [exact T|].
    destruct (write_color_emits b w) as (_ & _ & H3).
    replace (emitted (set_color b d) w) with (emitted (write_color b) w)
      by (unfold emitted; now rewrite E').
    rewrite H3. split; [discriminate|]. split; reflexivity. }
  rewrite E.
  destruct d as [z|]; [|apply Hdirect, set_color_else_branch; auto].
  destruct (Z.eqb_spec z 0) as [->|Hz];
    [apply Hdirect, set_color_else_branch; auto|].
  destruct (current_hardware_color w) as [a|] eqn:Hcur;
    [|apply Hdirect, set_color_else_branch; auto].
  destruct (String.eqb_spec (lower a) (lower b)) as [El|Hne].
  { apply Hdirect, set_color_else_branch. right. right. right.
    exists a. auto. }
  cbn [colour_ok] in Hcol.
  destruct (set_color_interpolates a b z w Hcur Hcol Hb Hne ltac:(lia))
    as (c0 & c1 & cs & _ & _ & _ & (R1 & G1 & B1) & Eb & _ & Hact & Hlen & _ & _
        & _ & _ & Hl).
  exists (rgb_to_hex c1). split; [reflexivity|]. split; [exact T|].
  split; [|split].
  - unfold writes. rewrite Hact, writes_of_steps.
    destruct cs as [|c cs]; discriminate.
  - unfold writes. rewrite Hact, writes_of_steps.
    destruct cs as [|c cs]; [discriminate|].
    rewrite <- Hl. apply last_map_cons.
  - rewrite Eb. apply lower_fixed.
    destruct c1 as [[r1 g1] b1].
    destruct (hex_to_rgb_of_bytes r1 g1 b1 R1 G1 B1) as [_ Hlow].
    rewrite <- Eb. unfold is_lower_hex6 in Hlow.
    now apply andb_prop in Hlow as [_ Hlow].
Qed.

(** [apply_static_color] with six hex digits, from a state where
    nothing can raise: what it returns, stores and writes. *)
Lemma apply_static_color_writes (color_hex : string) (s : system) :
  sound s -> slot_invariant s -> is_hex6 color_hex = true ->
  exists (s' : system) (evs : list event) (p : string),
    apply_static_color color_hex s = (Ok tt, s')
    /\ sound s'
    /\ live s' = []
    /\ active_thread s' = None
    /\ settings s'
       = <["lastMode" := "Static Color"]>
           (<["lastStaticColor" := color_hex]> (settings s))
    /\ trace (wld s') = trace (wld s) ++ evs
    /\ writes evs <> []
    /\ List.last (writes evs) "" = p
    /\ lower p = lower color_hex
    /\ (always_writable (wld s) ->
        exists cur : string,
          current_hardware_color (wld s') = Some cur
          /\ lower cur = lower color_hex).
Proof.
  intros Hs Hinv Hhex.
  pose proof (stop_active_thread_idle s Hinv) as Hidle.
  pose proof (apply_static_color_run color_hex s) as Hrun.
  destruct (returns_sound_apply_static_color color_hex Hhex s Hs)
    as ([] & s' & E & Hs').
  rewrite E in Hrun. destruct Hrun as (Hact & Hset & _).
  rewrite E. revert E. unfold apply_static_color, bind.
  destruct (stop_active_thread_run s)
    as (s1 & evs0 & E0 & _ & _ & _ & _ & _ & T0 & A0 & Hcol & Hz & _).
  rewrite E0 in *. cbn [snd] in Hidle.
  destruct Hs as (Hc & _ & _).
  destruct (set_color_last_write color_hex (Some STATIC_DURATION_MS) (wld s1))
    as (w1 & evs1 & p & Eset & T1 & Hne & Hlast & Hlow).
  { now rewrite Hcol. }
  { exact Hhex. }
  { discriminate. }
  unfold in_world. rewrite Eset. unfold set_value at 1 3.
  cbn [settings threads next_thread active_thread quit_requested wld].
  assert (Hfin : forall st q,
             (Ok tt, mkSystem (threads s1) (next_thread s1) (active_thread s1)
                              st q w1) = (Ok tt, s') ->
             exists (s'0 : system) (evs : list event) (p0 : string),
               (Ok tt, s') = (Ok tt, s'0)
               /\ sound s'0 /\ live s'0 = [] /\ active_thread s'0 = None
               /\ settings s'0
                  = <["lastMode" := "Static Color"]>
                      (<["lastStaticColor" := color_hex]> (settings s))
               /\ trace (wld s'0) = trace (wld s) ++ evs
               /\ writes evs <> []
               /\ List.last (writes evs) "" = p0
               /\ lower p0 = lower color_hex
               /\ (always_writable (wld s) ->
                   exists cur : string,
                     current_hardware_color (wld s'0) = Some cur
                     /\ lower cur = lower color_hex)).
  { intros st q [= <-]. eexists. exists (evs0 ++ evs1), p.
    split; [reflexivity|]. split; [exact Hs'|].
    split; [apply idle_live; exact Hidle|]. split; [exact Hact|].
    split; [exact Hset|]. cbn [wld].
    split; [now rewrite T1, T0, app_assoc|].
    assert (Ew : writes (evs0 ++ evs1) = writes evs1).
    { rewrite writes_app. unfold writes at 1. now rewrite A0. }
    rewrite Ew. split; [exact Hne|]. split; [exact Hlast|].
    split; [exact Hlow|].
    - intros Hio.
      destruct (set_color_writable color_hex (Some STATIC_DURATION_MS) (wld s1))
        as (w1' & cur & Eset' & _ & Hcur & Hlc).
      { intros n. rewrite Hz. apply Hio. }
      { now rewrite Hcol. }
      { exact Hhex. }
      { discriminate. }
      rewrite Eset in Eset'. injection Eset' as <-.
      exists cur. auto. }
  destruct (<["lastStaticColor" := color_hex]> (settings s1) !! "lastMode")
    as [m|].
  - destruct (String.eqb m "Static Color"); [apply Hfin|].
    unfold set_value. apply Hfin.
  - unfold set_value. apply Hfin.
Qed.

(** X15: in a state where nothing can raise and every running thread is
    the one in the slot, the wallpaper button always returns normally,
    whatever the theme file holds.  It leaves no thread running, and the
    colour it applies is the one scraped from the theme file, or white,
    after a warning, when there is none: the last payload it sends to
    the zone file is that colour up to letter case, the settings hold it
    with the static mode, and when the zone file accepts every write the
    last hardware colour is that colour up to letter case. *)
Theorem apply_wallpaper_color_applies (theme : read_result) (a : gui) :
  sound (ctl a) -> slot_invariant (ctl a) ->
  exists (a' : gui) (evs : list event) (p : string),
    apply_wallpaper_color theme a = (Ok tt, a')
    /\ sound (ctl a')
    /\ live (ctl a') = []
    /\ active_thread (ctl a') = None
    /\ settings (ctl a')
       = <["lastMode" := "Static Color"]>
           (<["lastStaticColor" := default "ffffff" (scraped theme)]>
              (settings (ctl a)))
    /\ console a'
       = console a ++ match scraped theme with
                      | Some c => [DebugColorFound c]
                      | None => [miss_line theme; WarnNoWallpaperColor]
                      end
    /\ trace (wld (ctl a')) = trace (wld (ctl a)) ++ evs
    /\ writes evs <> []
    /\ List.last (writes evs) "" = p
    /\ lower p = lower (default "ffffff" (scraped theme))
    /\ (always_writable (wld (ctl a)) ->
        exists cur : string,
          current_hardware_color (wld (ctl a')) = Some cur
          /\ lower cur = lower (default "ffffff" (scraped theme))).
Proof.
  intros Hs Hinv.
  assert (Happly : forall (c : string) (out : list theme_line),
             is_hex6 c = true ->
             exists (a' : gui) (evs : list event) (p : string),
               in_ctl (apply_static_color c) (mkGui (ctl a) out) = (Ok tt, a')
               /\ sound (ctl a')
               /\ live (ctl a') = []
               /\ active_thread (ctl a') = None
               /\ settings (ctl a')
                  = <["lastMode" := "Static Color"]>
                      (<["lastStaticColor" := c]> (settings (ctl a)))
               /\ console a' = out
               /\ trace (wld (ctl a')) = trace (wld (ctl a)) ++ evs
               /\ writes evs <> []
               /\ List.last (writes evs) "" = p
               /\ lower p = lower c
               /\ (always_writable (wld (ctl a)) ->
                   exists cur : string,
                     current_hardware_color (wld (ctl a')) = Some cur
                     /\ lower cur = lower c)).
  { intros c out Hc. unfold in_ctl. cbn [ctl console].
    destruct (apply_static_color_writes c (ctl a) Hs Hinv Hc)
      as (s' & evs & p & E & H1 & H2 & H3 & H4 & H5 & H6 & H7 & H8 & H9).
    rewrite E. eexists. exists evs, p. split; [reflexivity|].
    cbn [ctl console]. auto 12. }
  unfold apply_wallpaper_color, bind.
  rewrite get_wallpaper_primary_color_run.
  destruct (scraped theme) as [c|] eqn:Es.
  - pose proof (scraped_ok theme c Es) as Hc.
    destruct c as [|ch c]; [discriminate|].
    cbn [truthy_opt]. cbv [default from_option id].
    destruct (Happly (String ch c) (console a ++ [DebugColorFound (String ch c)])
                Hc)
      as (a' & evs & p & E & H1 & H2 & H3 & H4 & H5 & H6 & H7 & H8 & H9 & H10).
    exists a', evs, p. rewrite E, H5. auto 12.
  - cbn [truthy_opt]. cbv [default from_option id].
    unfold print_line at 1. cbn [ctl console].
    destruct (Happly "ffffff"
                ((console a ++ [miss_line theme]) ++ [WarnNoWallpaperColor])
                eq_refl)
      as (a' & evs & p & E & H1 & H2 & H3 & H4 & H5 & H6 & H7 & H8 & H9 & H10).
    exists a', evs, p. rewrite E, H5, <- app_assoc. auto 12.
Qed.

Lemma apply_wallpaper_color_applies_witness :
  exists (a' : gui) (evs : list event) (p : string),
    apply_wallpaper_color (FileText "$wallbash_pry1 = 1E1E2E")
      (init_gui ∅ io_ok)
    = (Ok tt, a')
    /\ sound (ctl a')
    /\ live (ctl a') = []
    /\ active_thread (ctl a') = None
    /\ settings (ctl a')
       = <["lastMode" := "Static Color"]>
           (<["lastStaticColor" :=
                default "ffffff"
                  (scraped (FileText "$wallbash_pry1 = 1E1E2E"))]>
              (settings (ctl (init_gui ∅ io_ok))))
    /\ console a'
       = console (init_gui ∅ io_ok)
         ++ match scraped (FileText "$wallbash_pry1 = 1E1E2E") with
            | Some c => [DebugColorFound c]
            | None => [miss_line (FileText "$wallbash_pry1 = 1E1E2E");
                       WarnNoWallpaperColor]
            end
    /\ trace (wld (ctl a')) = trace (wld (ctl (init_gui ∅ io_ok))) ++ evs
    /\ writes evs <> []
    /\ List.last (writes evs) "" = p
    /\ lower p = lower (default "ffffff"
                          (scraped (FileText "$wallbash_pry1 = 1E1E2E")))
    /\ (always_writable (wld (ctl (init_gui ∅ io_ok))) ->
        exists cur : string,
          current_hardware_color (wld (ctl a')) = Some cur
          /\ lower cur
             = lower (default "ffffff"
                        (scraped (FileText "$wallbash_pry1 = 1E1E2E")))).
Proof.
  apply (apply_wallpaper_color_applies (FileText "$wallbash_pry1 = 1E1E2E")
           (init_gui ∅ io_ok)).
  - apply (init_system_sound ∅ (fresh_world None io_ok)).
    + rewrite lookup_empty. exact I.
    + exact I.
  - apply (init_system_slot ∅ (fresh_world None io_ok)).
Defined.

(** ** A static colour reaches the keyboard *)

(** X16: in a state where nothing can raise and with a zone file that
    accepts every write, [apply_static_color] with six hex digits
    returns normally with no thread left running and the keyboard on the
    requested colour: the last hardware colour is the target up to
    letter case, and it is what the settings now hold. *)
Theorem apply_static_color_reaches (color_hex : string) (s : system) :
  sound s -> slot_invariant s -> always_writable (wld s) ->
  is_hex6 color_hex = true ->
  exists (s' : system) (cur : string),
    apply_static_color color_hex s = (Ok tt, s')
    /\ live s' = []
    /\ current_hardware_color (wld s') = Some cur
    /\ lower cur = lower color_hex
    /\ settings s' !! "lastStaticColor" = Some color_hex
    /\ settings s' !! "lastMode" = Some "Static Color".
Proof.
  intros (Hc & _ & _) Hinv Hio Hhex.
  pose proof (stop_active_thread_idle s Hinv) as Hidle.
  unfold apply_static_color, bind.
  destruct (stop_active_thread_run s)
    as (s1 & evs & E & _ & _ & _ & _ & _ & _ & _ & Hcol & Hz & _).
  rewrite E in *. cbn [snd] in Hidle.
  destruct (set_color_writable color_hex (Some STATIC_DURATION_MS) (wld s1))
    as (w1 & cur & Eset & _ & Hcur & Hlow).
  { intros n. rewrite Hz. apply Hio. }
  { now rewrite Hcol. }
  { exact Hhex. }
  { discriminate. }
  unfold in_world. rewrite Eset. unfold set_value at 1 3.
  cbn [settings threads next_thread active_thread quit_requested wld].
  assert (Hlive : forall st q, live (mkSystem (threads s1) (next_thread s1)
                                       (active_thread s1) st q w1) = []).
  { intros st q. apply idle_live. exact Hidle. }
  destruct (<["lastStaticColor" := color_hex]> (settings s1) !! "lastMode")
    as [m|] eqn:Hm.
  - destruct (String.eqb_spec m "Static Color") as [->|Hne].
    + eexists. exists cur. split; [reflexivity|].
      cbn [wld settings]. split; [apply Hlive|].
      split; [exact Hcur|]. split; [exact Hlow|].
      split; [apply lookup_insert_eq|exact Hm].
    + unfold set_value. eexists. exists cur. split; [reflexivity|].
      cbn [wld settings]. split; [apply Hlive|].
      split; [exact Hcur|]. split; [exact Hlow|].
      split; [|apply lookup_insert_eq].
      rewrite lookup_insert_ne by discriminate. apply lookup_insert_eq.
  - unfold set_value. eexists. exists cur. split; [reflexivity|].
    cbn [wld settings]. split; [apply Hlive|].
    split; [exact Hcur|]. split; [exact Hlow|].
    split; [|apply lookup_insert_eq].
    rewrite lookup_insert_ne by discriminate. apply lookup_insert_eq.
Qed.

Lemma apply_static_color_reaches_witness :
  exists (s' : system) (cur : string),
    apply_static_color "FF7F00" (init_system ∅ (fresh_world (Some "0000ff") io_ok))
    = (Ok tt, s')
    /\ live s' = []
    /\ current_hardware_color (wld s') = Some cur
    /\ lower cur = lower "FF7F00"
    /\ settings s' !! "lastStaticColor" = Some "FF7F00"
    /\ settings s' !! "lastMode" = Some "Static Color".
Proof.
  apply (apply_static_color_reaches "FF7F00"
           (init_system ∅ (fresh_world (Some "0000ff") io_ok))).
  - apply init_system_sound; [rewrite lookup_empty; exact I|reflexivity].
  - apply init_system_slot.
  - intros n. reflexivity.
  - reflexivity.
Defined.
